(** * Green hydrogen subsidy disbursement: the two contracts and their properties

    A shallow embedding of [GreenHydrogenSubsidy.sol] (the subsidy ledger) and
    [DataOracle.sol] (the data verification ledger).

    - [uint256] and [address] values are binary naturals ([N]); every checked
      operation of Solidity 0.8 / SafeMath is written out and reverts with
      [Panic 0x11] where the result would leave the 256-bit range.
    - A Solidity [mapping] is a total function (absent keys read as the zero
      value) updated with stdpp's [<[k:=v]>] on functions.
    - An external call either returns the successor state or reverts; a revert
      discards every write of the call, so the caller-visible state is the one
      before the call.
    - Ether reaches the ledger through its payable functions or with no call
      at all (a forced transfer): [run] has the transactions only, [play] has
      both. *)

From Stdlib Require Import NArith Lia.
From stdpp Require Import strings functions base decidable option numbers list sorting.

Open Scope N_scope.

(** ** Values, errors and the revert monad *)

Definition address := N.
Definition uint256 := N.
Definition bytes32 := N.

Definition MAX_UINT256 : N := 2 ^ 256 - 1.

(** The role identifiers the two contracts name.  In the source they are
    [bytes32] constants: [DEFAULT_ADMIN_ROLE] is [0x00] and the others are
    [keccak256] of their own name. *)
Inductive role :=
| DEFAULT_ADMIN_ROLE
| GOVERNMENT_ROLE
| AUDITOR_ROLE
| ORACLE_ROLE
| PRODUCER_ROLE
| ORACLE_OPERATOR_ROLE
| DATA_PROVIDER_ROLE.

#[global] Instance role_eq_dec : EqDecision role.
Proof. solve_decision. Defined.

(** Why a call reverted. *)
Inductive error :=
| Error (reason : string)                  (* require(cond, reason) *)
| Panic (code : N)                         (* 0x11 overflow, 0x32 index out of range *)
| MissingRole (account : address) (r : role) (* AccessControl's onlyRole *)
| NotPayable                               (* value sent to a non-payable function *)
| TransferFailed.                          (* address.transfer did not go through *)

Inductive result (A : Type) :=
| Ok (a : A)
| Revert (e : error).
Arguments Ok {A} a.
Arguments Revert {A} e.

#[global] Instance result_ret : MRet result := fun A a => Ok a.
#[global] Instance result_bind : MBind result := fun A B f m =>
  match m with
  | Ok a => f a
  | Revert e => Revert e
  end.

#[global] Instance result_fmap : FMap result := fun A B f m =>
  match m with
  | Ok a => Ok (f a)
  | Revert e => Revert e
  end.

Definition require (cond : bool) (reason : string) : result unit :=
  if cond then Ok tt else Revert (Error reason).

Definition is_ok {A} (r : result A) : bool :=
  match r with Ok _ => true | Revert _ => false end.

(** [a + b] of Solidity 0.8, which is also SafeMath's [a.add(b)]. *)
Definition checked_add (a b : uint256) : result uint256 :=
  if bool_decide (a + b <= MAX_UINT256) then Ok (a + b) else Revert (Panic 17).

(** [a - b] of Solidity 0.8, which is also SafeMath's [a.sub(b)]. *)
Definition checked_sub (a b : uint256) : result uint256 :=
  if bool_decide (b <= a) then Ok (a - b) else Revert (Panic 17).

(** What the transaction brings with it: [msg.sender], [msg.value],
    [block.timestamp], and which addresses take a plain [transfer] (2300 gas).
    An externally owned account always does; a contract whose receive function
    writes storage, such as the subsidy ledger itself, does not. *)
Record Env := mkEnv {
  sender : address;
  value : uint256;
  timestamp : uint256;
  accepts : address -> bool
}.

(** ** GreenHydrogenSubsidy *)

Module ProjectStatus.
Inductive t := Pending | Active | Completed | Suspended | Cancelled.
#[global] Instance eq_dec : EqDecision t.
Proof. solve_decision. Defined.
End ProjectStatus.

Module MilestoneStatus.
Inductive t := Pending | Verified | Failed | Disputed.
#[global] Instance eq_dec : EqDecision t.
Proof. solve_decision. Defined.
End MilestoneStatus.

Module Project.
Record t := mk {
  id : uint256;
  producer : address;
  name : string;
  description : string;
  totalSubsidyAmount : uint256;
  disbursedAmount : uint256;
  createdAt : uint256;
  status : ProjectStatus.t;
  milestoneIds : list uint256;
  milestoneExists : uint256 -> bool
}.

(** The zero value a fresh mapping slot reads as. *)
Definition zero : t :=
  mk 0 0 "" "" 0 0 0 ProjectStatus.Pending [] (fun _ => false).

Definition set_disbursedAmount (v : uint256) (p : t) : t :=
  mk (id p) (producer p) (name p) (description p) (totalSubsidyAmount p) v
     (createdAt p) (status p) (milestoneIds p) (milestoneExists p).
Definition set_status (v : ProjectStatus.t) (p : t) : t :=
  mk (id p) (producer p) (name p) (description p) (totalSubsidyAmount p)
     (disbursedAmount p) (createdAt p) v (milestoneIds p) (milestoneExists p).
Definition set_milestoneIds (v : list uint256) (p : t) : t :=
  mk (id p) (producer p) (name p) (description p) (totalSubsidyAmount p)
     (disbursedAmount p) (createdAt p) (status p) v (milestoneExists p).
Definition set_milestoneExists (v : uint256 -> bool) (p : t) : t :=
  mk (id p) (producer p) (name p) (description p) (totalSubsidyAmount p)
     (disbursedAmount p) (createdAt p) (status p) (milestoneIds p) v.
End Project.

Module Milestone.
Record t := mk {
  id : uint256;
  projectId : uint256;
  description : string;
  subsidyAmount : uint256;
  targetValue : uint256;
  actualValue : uint256;
  verificationSource : string;
  deadline : uint256;
  status : MilestoneStatus.t;
  verifiedAt : uint256;
  verifiedBy : address;
  paid : bool
}.

Definition zero : t :=
  mk 0 0 "" 0 0 0 "" 0 MilestoneStatus.Pending 0 0 false.

Definition set_actualValue (v : uint256) (m : t) : t :=
  mk (id m) (projectId m) (description m) (subsidyAmount m) (targetValue m) v
     (verificationSource m) (deadline m) (status m) (verifiedAt m) (verifiedBy m) (paid m).
Definition set_verifiedAt (v : uint256) (m : t) : t :=
  mk (id m) (projectId m) (description m) (subsidyAmount m) (targetValue m) (actualValue m)
     (verificationSource m) (deadline m) (status m) v (verifiedBy m) (paid m).
Definition set_verifiedBy (v : address) (m : t) : t :=
  mk (id m) (projectId m) (description m) (subsidyAmount m) (targetValue m) (actualValue m)
     (verificationSource m) (deadline m) (status m) (verifiedAt m) v (paid m).
Definition set_status (v : MilestoneStatus.t) (m : t) : t :=
  mk (id m) (projectId m) (description m) (subsidyAmount m) (targetValue m) (actualValue m)
     (verificationSource m) (deadline m) v (verifiedAt m) (verifiedBy m) (paid m).
Definition set_paid (v : bool) (m : t) : t :=
  mk (id m) (projectId m) (description m) (subsidyAmount m) (targetValue m) (actualValue m)
     (verificationSource m) (deadline m) (status m) (verifiedAt m) (verifiedBy m) v.
End Milestone.

Module GreenHydrogenSubsidy.

Inductive Event :=
| ProjectRegistered (projectId : uint256) (producer : address) (name : string) (totalSubsidy : uint256)
| MilestoneAdded (projectId milestoneId : uint256) (description : string) (subsidyAmount : uint256)
| MilestoneVerified (milestoneId actualValue : uint256) (verifier : address)
| SubsidyDisbursed (projectId milestoneId : uint256) (recipient : address) (amount : uint256)
| ProjectStatusChanged (projectId : uint256) (oldStatus newStatus : ProjectStatus.t)
| FundsAdded (amount newTotal : uint256)
| FundsWithdrawn (amount : uint256) (recipient : address)
| RoleGranted (r : role) (account by_ : address)
| RoleRevoked (r : role) (account by_ : address)
| Paused (account : address)
| Unpaused (account : address).

(** The contract's storage, the ether it holds ([address(this).balance]) and
    the log of the events emitted so far.  [roles] is AccessControl's
    membership table and [paused] is Pausable's flag. *)
Record State := mkState {
  roles : role -> address -> bool;
  paused : bool;
  projects : uint256 -> Project.t;
  milestones : uint256 -> Milestone.t;
  producerProjects : address -> list uint256;
  nextProjectId : uint256;
  nextMilestoneId : uint256;
  totalSubsidyPool : uint256;
  totalDisbursed : uint256;
  balance : uint256;
  events : list Event
}.

Definition set_roles (v : role -> address -> bool) (s : State) : State :=
  mkState v (paused s) (projects s) (milestones s) (producerProjects s) (nextProjectId s)
          (nextMilestoneId s) (totalSubsidyPool s) (totalDisbursed s) (balance s) (events s).
Definition set_paused (v : bool) (s : State) : State :=
  mkState (roles s) v (projects s) (milestones s) (producerProjects s) (nextProjectId s)
          (nextMilestoneId s) (totalSubsidyPool s) (totalDisbursed s) (balance s) (events s).
Definition set_projects (v : uint256 -> Project.t) (s : State) : State :=
  mkState (roles s) (paused s) v (milestones s) (producerProjects s) (nextProjectId s)
          (nextMilestoneId s) (totalSubsidyPool s) (totalDisbursed s) (balance s) (events s).
Definition set_milestones (v : uint256 -> Milestone.t) (s : State) : State :=
  mkState (roles s) (paused s) (projects s) v (producerProjects s) (nextProjectId s)
          (nextMilestoneId s) (totalSubsidyPool s) (totalDisbursed s) (balance s) (events s).
Definition set_producerProjects (v : address -> list uint256) (s : State) : State :=
  mkState (roles s) (paused s) (projects s) (milestones s) v (nextProjectId s)
          (nextMilestoneId s) (totalSubsidyPool s) (totalDisbursed s) (balance s) (events s).
Definition set_nextProjectId (v : uint256) (s : State) : State :=
  mkState (roles s) (paused s) (projects s) (milestones s) (producerProjects s) v
          (nextMilestoneId s) (totalSubsidyPool s) (totalDisbursed s) (balance s) (events s).
Definition set_nextMilestoneId (v : uint256) (s : State) : State :=
  mkState (roles s) (paused s) (projects s) (milestones s) (producerProjects s) (nextProjectId s)
          v (totalSubsidyPool s) (totalDisbursed s) (balance s) (events s).
Definition set_totalSubsidyPool (v : uint256) (s : State) : State :=
  mkState (roles s) (paused s) (projects s) (milestones s) (producerProjects s) (nextProjectId s)
          (nextMilestoneId s) v (totalDisbursed s) (balance s) (events s).
Definition set_totalDisbursed (v : uint256) (s : State) : State :=
  mkState (roles s) (paused s) (projects s) (milestones s) (producerProjects s) (nextProjectId s)
          (nextMilestoneId s) (totalSubsidyPool s) v (balance s) (events s).
Definition set_balance (v : uint256) (s : State) : State :=
  mkState (roles s) (paused s) (projects s) (milestones s) (producerProjects s) (nextProjectId s)
          (nextMilestoneId s) (totalSubsidyPool s) (totalDisbursed s) v (events s).

Definition emit (ev : Event) (s : State) : State :=
  mkState (roles s) (paused s) (projects s) (milestones s) (producerProjects s) (nextProjectId s)
          (nextMilestoneId s) (totalSubsidyPool s) (totalDisbursed s) (balance s) (events s ++ [ev]).

(** Writes through a storage pointer: [milestones[i].f = v] and [projects[i].f = v]. *)
Definition upd_milestone (i : uint256) (f : Milestone.t -> Milestone.t) (s : State) : State :=
  set_milestones (<[i := f (milestones s i)]> (milestones s)) s.
Definition upd_project (i : uint256) (f : Project.t -> Project.t) (s : State) : State :=
  set_projects (<[i := f (projects s i)]> (projects s)) s.

(** *** AccessControl and Pausable (OpenZeppelin 4.x, as the contract inherits them)

    No role has its admin changed, so every role is administered by
    [DEFAULT_ADMIN_ROLE]. *)

Definition hasRole (r : role) (account : address) (s : State) : bool := roles s r account.

Definition _grantRole (e : Env) (r : role) (account : address) (s : State) : State :=
  if hasRole r account s then s
  else emit (RoleGranted r account (sender e))
         (set_roles (<[r := <[account := true]> (roles s r)]> (roles s)) s).

Definition _revokeRole (e : Env) (r : role) (account : address) (s : State) : State :=
  if hasRole r account s
  then emit (RoleRevoked r account (sender e))
         (set_roles (<[r := <[account := false]> (roles s r)]> (roles s)) s)
  else s.

Definition onlyRole (e : Env) (r : role) (s : State) : result unit :=
  if hasRole r (sender e) s then Ok tt else Revert (MissingRole (sender e) r).

Definition grantRole (e : Env) (r : role) (account : address) (s : State) : result State :=
  _ ← onlyRole e DEFAULT_ADMIN_ROLE s;
  Ok (_grantRole e r account s).

Definition revokeRole (e : Env) (r : role) (account : address) (s : State) : result State :=
  _ ← onlyRole e DEFAULT_ADMIN_ROLE s;
  Ok (_revokeRole e r account s).

Definition renounceRole (e : Env) (r : role) (account : address) (s : State) : result State :=
  _ ← require (bool_decide (account = sender e)) "AccessControl: can only renounce roles for self";
  Ok (_revokeRole e r account s).

Definition _pause (e : Env) (s : State) : result State :=
  _ ← require (negb (paused s)) "Pausable: paused";
  Ok (emit (Paused (sender e)) (set_paused true s)).

Definition _unpause (e : Env) (s : State) : result State :=
  _ ← require (paused s) "Pausable: not paused";
  Ok (emit (Unpaused (sender e)) (set_paused false s)).

(** [payable(to).transfer(amount)]: moves [amount] out of the contract's
    balance, or reverts. *)
Definition transfer (e : Env) (to : address) (amount : uint256) (s : State) : result State :=
  if bool_decide (amount <= balance s) && accepts e to
  then Ok (set_balance (balance s - amount) s)
  else Revert TransferFailed.

(** *** Modifiers *)

Definition onlyGovernment (e : Env) (s : State) : result unit :=
  require (hasRole GOVERNMENT_ROLE (sender e) s) "Only government can perform this action".

Definition onlyAuditor (e : Env) (s : State) : result unit :=
  require (hasRole AUDITOR_ROLE (sender e) s) "Only auditor can perform this action".

Definition projectExists (_projectId : uint256) (s : State) : result unit :=
  require (bool_decide (0 < _projectId) && bool_decide (_projectId < nextProjectId s))
          "Project does not exist".

Definition milestoneExists (_milestoneId : uint256) (s : State) : result unit :=
  require (bool_decide (0 < _milestoneId) && bool_decide (_milestoneId < nextMilestoneId s))
          "Milestone does not exist".

(** *** The constructor *)

Definition init (deployer : address) : State :=
  let e := mkEnv deployer 0 0 (fun _ => true) in
  _grantRole e GOVERNMENT_ROLE deployer
    (_grantRole e DEFAULT_ADMIN_ROLE deployer
       (mkState (fun _ _ => false) false (fun _ => Project.zero) (fun _ => Milestone.zero)
                (fun _ => []) 1 1 0 0 0 [])).

(** *** The contract's functions *)

Definition addFunds (e : Env) (s : State) : result State :=
  _ ← onlyGovernment e s;
  _ ← require (bool_decide (0 < value e)) "Amount must be greater than 0";
  pool ← checked_add (totalSubsidyPool s) (value e);
  let s := set_totalSubsidyPool pool s in
  Ok (emit (FundsAdded (value e) (totalSubsidyPool s)) s).

Definition registerProject (e : Env) (_producer : address) (_name _description : string)
    (_totalSubsidyAmount : uint256) (s : State) : result (State * uint256) :=
  _ ← onlyGovernment e s;
  _ ← require (bool_decide (_producer ≠ 0)) "Invalid producer address";
  _ ← require (bool_decide (0 < N.of_nat (String.length _name))) "Project name cannot be empty";
  _ ← require (bool_decide (0 < _totalSubsidyAmount)) "Subsidy amount must be greater than 0";
  available ← checked_sub (totalSubsidyPool s) (totalDisbursed s);
  _ ← require (bool_decide (_totalSubsidyAmount <= available)) "Insufficient subsidy pool";
  let projectId := nextProjectId s in
  next ← checked_add (nextProjectId s) 1;
  let s := set_nextProjectId next s in
  let s := upd_project projectId (fun project =>
             Project.mk projectId _producer _name _description _totalSubsidyAmount 0
                        (timestamp e) ProjectStatus.Pending
                        (Project.milestoneIds project) (Project.milestoneExists project)) s in
  let s := set_producerProjects
             (<[_producer := producerProjects s _producer ++ [projectId]]> (producerProjects s)) s in
  s ← grantRole e PRODUCER_ROLE _producer s;
  let s := emit (ProjectRegistered projectId _producer _name _totalSubsidyAmount) s in
  Ok (s, projectId).

Definition addMilestone (e : Env) (_projectId : uint256) (_description : string)
    (_subsidyAmount _targetValue : uint256) (_verificationSource : string) (_deadline : uint256)
    (s : State) : result (State * uint256) :=
  _ ← onlyGovernment e s;
  _ ← projectExists _projectId s;
  _ ← require (bool_decide (0 < N.of_nat (String.length _description))) "Description cannot be empty";
  _ ← require (bool_decide (0 < _subsidyAmount)) "Subsidy amount must be greater than 0";
  _ ← require (bool_decide (0 < _targetValue)) "Target value must be greater than 0";
  _ ← require (bool_decide (timestamp e < _deadline)) "Deadline must be in the future";
  let project := projects s _projectId in
  _ ← require (bool_decide (Project.status project = ProjectStatus.Pending)
               || bool_decide (Project.status project = ProjectStatus.Active)) "Project not active";
  committed ← checked_add (Project.disbursedAmount project) _subsidyAmount;
  _ ← require (bool_decide (committed <= Project.totalSubsidyAmount project))
              "Exceeds project subsidy limit";
  let milestoneId := nextMilestoneId s in
  next ← checked_add (nextMilestoneId s) 1;
  let s := set_nextMilestoneId next s in
  let s := set_milestones
             (<[milestoneId :=
                  Milestone.mk milestoneId _projectId _description _subsidyAmount _targetValue 0
                               _verificationSource _deadline MilestoneStatus.Pending 0 0 false]>
                (milestones s)) s in
  let s := upd_project _projectId (fun p =>
             Project.set_milestoneIds (Project.milestoneIds p ++ [milestoneId]) p) s in
  let s := upd_project _projectId (fun p =>
             Project.set_milestoneExists (<[milestoneId := true]> (Project.milestoneExists p)) p) s in
  let s :=
    if bool_decide (Project.status (projects s _projectId) = ProjectStatus.Pending)
    then emit (ProjectStatusChanged _projectId ProjectStatus.Pending ProjectStatus.Active)
           (upd_project _projectId (Project.set_status ProjectStatus.Active) s)
    else s in
  let s := emit (MilestoneAdded _projectId milestoneId _description _subsidyAmount) s in
  Ok (s, milestoneId).

(** The loop of [_checkProjectCompletion]: it leaves at the first milestone
    that is not both Verified and paid. *)
Fixpoint allMilestonesCompleted (ms : uint256 -> Milestone.t) (ids : list uint256) : bool :=
  match ids with
  | [] => true
  | milestoneId :: rest =>
      let milestone := ms milestoneId in
      if bool_decide (Milestone.status milestone ≠ MilestoneStatus.Verified)
         || negb (Milestone.paid milestone)
      then false
      else allMilestonesCompleted ms rest
  end.

Definition _checkProjectCompletion (_projectId : uint256) (s : State) : State :=
  let project := projects s _projectId in
  if allMilestonesCompleted (milestones s) (Project.milestoneIds project)
     && (0 <? length (Project.milestoneIds project))%nat
  then
    let oldStatus := Project.status project in
    let s := upd_project _projectId (Project.set_status ProjectStatus.Completed) s in
    emit (ProjectStatusChanged _projectId oldStatus ProjectStatus.Completed) s
  else s.

Definition _processMilestonePayment (e : Env) (_milestoneId : uint256) (s : State) : result State :=
  let milestone := milestones s _milestoneId in
  _ ← require (bool_decide (Milestone.status milestone = MilestoneStatus.Verified))
              "Milestone not verified";
  _ ← require (negb (Milestone.paid milestone)) "Already paid";
  let projectId := Milestone.projectId milestone in
  let project := projects s projectId in
  _ ← require (bool_decide (Project.status project = ProjectStatus.Active)) "Project not active";
  let paymentAmount := Milestone.subsidyAmount milestone in
  _ ← require (bool_decide (paymentAmount <= balance s)) "Insufficient contract balance";
  let s := upd_milestone _milestoneId (Milestone.set_paid true) s in
  disbursed ← checked_add (Project.disbursedAmount (projects s projectId)) paymentAmount;
  let s := upd_project projectId (Project.set_disbursedAmount disbursed) s in
  total ← checked_add (totalDisbursed s) paymentAmount;
  let s := set_totalDisbursed total s in
  s ← transfer e (Project.producer (projects s projectId)) paymentAmount s;
  let s := emit (SubsidyDisbursed projectId _milestoneId
                   (Project.producer (projects s projectId)) paymentAmount) s in
  Ok (_checkProjectCompletion projectId s).

Definition verifyMilestone (e : Env) (_milestoneId _actualValue : uint256) (_success : bool)
    (s : State) : result State :=
  _ ← milestoneExists _milestoneId s;
  _ ← require (hasRole ORACLE_ROLE (sender e) s || hasRole AUDITOR_ROLE (sender e) s)
              "Unauthorized verifier";
  _ ← require (bool_decide (Milestone.status (milestones s _milestoneId) = MilestoneStatus.Pending))
              "Milestone already processed";
  _ ← require (bool_decide (timestamp e <= Milestone.deadline (milestones s _milestoneId)))
              "Milestone deadline passed";
  let s := upd_milestone _milestoneId (Milestone.set_actualValue _actualValue) s in
  let s := upd_milestone _milestoneId (Milestone.set_verifiedAt (timestamp e)) s in
  let s := upd_milestone _milestoneId (Milestone.set_verifiedBy (sender e)) s in
  s ← (if _success
          && bool_decide (Milestone.targetValue (milestones s _milestoneId) <= _actualValue)
       then _processMilestonePayment e _milestoneId
              (upd_milestone _milestoneId (Milestone.set_status MilestoneStatus.Verified) s)
       else Ok (upd_milestone _milestoneId (Milestone.set_status MilestoneStatus.Failed) s));
  Ok (emit (MilestoneVerified _milestoneId _actualValue (sender e)) s).

Definition updateProjectStatus (e : Env) (_projectId : uint256) (_newStatus : ProjectStatus.t)
    (s : State) : result State :=
  _ ← onlyGovernment e s;
  _ ← projectExists _projectId s;
  let oldStatus := Project.status (projects s _projectId) in
  let s := upd_project _projectId (Project.set_status _newStatus) s in
  Ok (emit (ProjectStatusChanged _projectId oldStatus _newStatus) s).

Definition disputeMilestone (e : Env) (_milestoneId : uint256) (s : State) : result State :=
  _ ← milestoneExists _milestoneId s;
  let milestone := milestones s _milestoneId in
  let project := projects s (Milestone.projectId milestone) in
  _ ← require (bool_decide (sender e = Project.producer project)
               || hasRole GOVERNMENT_ROLE (sender e) s) "Unauthorized to dispute";
  _ ← require (bool_decide (Milestone.status milestone = MilestoneStatus.Failed)
               || bool_decide (Milestone.status milestone = MilestoneStatus.Verified))
              "Cannot dispute pending milestone";
  Ok (upd_milestone _milestoneId (Milestone.set_status MilestoneStatus.Disputed) s).

Definition resolveDispute (e : Env) (_milestoneId : uint256) (_approve : bool) (s : State)
    : result State :=
  _ ← onlyAuditor e s;
  _ ← milestoneExists _milestoneId s;
  _ ← require (bool_decide (Milestone.status (milestones s _milestoneId) = MilestoneStatus.Disputed))
              "Milestone not disputed";
  if _approve then
    let s := upd_milestone _milestoneId (Milestone.set_status MilestoneStatus.Verified) s in
    if negb (Milestone.paid (milestones s _milestoneId))
    then _processMilestonePayment e _milestoneId s
    else Ok s
  else Ok (upd_milestone _milestoneId (Milestone.set_status MilestoneStatus.Failed) s).

Definition emergencyWithdraw (e : Env) (_amount : uint256) (_recipient : address) (s : State)
    : result State :=
  _ ← onlyGovernment e s;
  _ ← require (bool_decide (_amount <= balance s)) "Insufficient balance";
  _ ← require (bool_decide (_recipient ≠ 0)) "Invalid recipient";
  s ← transfer e _recipient _amount s;
  Ok (emit (FundsWithdrawn _amount _recipient) s).

Definition pause (e : Env) (s : State) : result State :=
  _ ← onlyGovernment e s;
  _pause e s.

Definition unpause (e : Env) (s : State) : result State :=
  _ ← onlyGovernment e s;
  _unpause e s.

Definition receive (e : Env) (s : State) : result State :=
  pool ← checked_add (totalSubsidyPool s) (value e);
  let s := set_totalSubsidyPool pool s in
  Ok (emit (FundsAdded (value e) (totalSubsidyPool s)) s).

(** *** View functions *)

Definition getMilestone (_milestoneId : uint256) (s : State) : result Milestone.t :=
  _ ← milestoneExists _milestoneId s;
  Ok (milestones s _milestoneId).

Definition getProject (_projectId : uint256) (s : State) : result Project.t :=
  _ ← projectExists _projectId s;
  Ok (projects s _projectId).

Definition getContractBalance (s : State) : uint256 := balance s.

Definition getAvailableSubsidy (s : State) : result uint256 :=
  checked_sub (totalSubsidyPool s) (totalDisbursed s).

(** *** Transactions

    The external entry points.  Only [addFunds] and the receive function are
    payable: any other call that carries value reverts.  The value of a payable
    call is credited to the contract's balance before its body runs.  A call
    changes the balance in no other way, and the constructor is not payable;
    ether that reaches the contract without a call is a move of its own,
    [Forced] below. *)

Inductive Call :=
| AddFunds
| RegisterProject (_producer : address) (_name _description : string) (_totalSubsidyAmount : uint256)
| AddMilestone (_projectId : uint256) (_description : string) (_subsidyAmount _targetValue : uint256)
               (_verificationSource : string) (_deadline : uint256)
| VerifyMilestone (_milestoneId _actualValue : uint256) (_success : bool)
| UpdateProjectStatus (_projectId : uint256) (_newStatus : ProjectStatus.t)
| DisputeMilestone (_milestoneId : uint256)
| ResolveDispute (_milestoneId : uint256) (_approve : bool)
| EmergencyWithdraw (_amount : uint256) (_recipient : address)
| Pause
| Unpause
| GrantRole (r : role) (account : address)
| RevokeRole (r : role) (account : address)
| RenounceRole (r : role) (account : address)
| Receive.

Definition payable (c : Call) : bool :=
  match c with
  | AddFunds | Receive => true
  | _ => false
  end.

Definition call (e : Env) (c : Call) (s : State) : result State :=
  if negb (payable c) && bool_decide (0 < value e) then Revert NotPayable
  else
    let s := set_balance (balance s + value e) s in
    match c with
    | AddFunds => addFunds e s
    | RegisterProject p n d t => fst <$> registerProject e p n d t s
    | AddMilestone p d a t v dl => fst <$> addMilestone e p d a t v dl s
    | VerifyMilestone m a ok => verifyMilestone e m a ok s
    | UpdateProjectStatus p st => updateProjectStatus e p st s
    | DisputeMilestone m => disputeMilestone e m s
    | ResolveDispute m a => resolveDispute e m a s
    | EmergencyWithdraw a r => emergencyWithdraw e a r s
    | Pause => pause e s
    | Unpause => unpause e s
    | GrantRole r a => grantRole e r a s
    | RevokeRole r a => revokeRole e r a s
    | RenounceRole r a => renounceRole e r a s
    | Receive => receive e s
    end.

(** One transaction: the state the call returns, or the state before it when
    the call reverts. *)
Definition step (s : State) (tx : Env * Call) : State :=
  match call tx.1 tx.2 s with
  | Ok s' => s'
  | Revert _ => s
  end.

(** The state after deployment by [deployer] and the transactions [txs], when
    no ether reaches the contract but through its payable functions. *)
Definition run (deployer : address) (txs : list (Env * Call)) : State :=
  fold_left step txs (init deployer).

(** The states the run goes through, the deployed one first. *)
Fixpoint trace (s : State) (txs : list (Env * Call)) : list State :=
  match txs with
  | [] => [s]
  | tx :: rest => s :: trace (step s tx) rest
  end.

(** *** Ether that arrives without a call

    The balance of a contract also grows with no call to it: the contract is
    named as the beneficiary of a [selfdestruct] or of a block reward, or its
    address held ether before deployment.  No code of the contract runs, so
    nothing but [address(this).balance] changes, and the contract cannot
    refuse it. *)

Inductive Move :=
| Transact (tx : Env * Call)
| Forced (amount : uint256).

Definition move (s : State) (m : Move) : State :=
  match m with
  | Transact tx => step s tx
  | Forced amount => set_balance (balance s + amount) s
  end.

(** The state after deployment by [deployer] and the moves, in order. *)
Definition play (deployer : address) (moves : list Move) : State :=
  fold_left move moves (init deployer).

(** The ether the moves force into the contract. *)
Fixpoint forced_total (moves : list Move) : uint256 :=
  match moves with
  | [] => 0
  | Forced amount :: rest => amount + forced_total rest
  | Transact _ :: rest => forced_total rest
  end.

(** *** Quantities the properties speak of *)

(** The identifiers of the milestones created so far: [1 .. nextMilestoneId - 1]. *)
Definition milestone_ids (s : State) : list uint256 :=
  N.of_nat <$> seq 1 (N.to_nat (nextMilestoneId s) - 1).

Definition paid_amount (m : Milestone.t) : uint256 :=
  if Milestone.paid m then Milestone.subsidyAmount m else 0.

Definition sum_over (f : uint256 -> uint256) (l : list uint256) : uint256 :=
  foldr N.add 0 (f <$> l).

(** The sum of [subsidyAmount] over the paid milestones. *)
Definition paid_total (s : State) : uint256 :=
  sum_over (fun i => paid_amount (milestones s i)) (milestone_ids s).

(** How often a sequence of readings of a flag goes from [false] to [true]. *)
Fixpoint rises (l : list bool) : nat :=
  match l with
  | a :: (b :: _) as rest => (if negb a && b then 1 else 0) + rises rest
  | _ => 0
  end%nat.

End GreenHydrogenSubsidy.

(** ** DataOracle *)

Module DataSourceType.
Inductive t := IoTDevice | GovernmentDB | ThirdPartyVerifier | Manual.
#[global] Instance eq_dec : EqDecision t.
Proof. solve_decision. Defined.
End DataSourceType.

Module DataPoint.
Record t := mk {
  value : uint256;
  timestamp : uint256;
  source : string;
  sourceType : DataSourceType.t;
  verifier : address;
  isVerified : bool;
  metadata : string
}.

Definition zero : t := mk 0 0 "" DataSourceType.IoTDevice 0 false "".

Definition set_verifier (v : address) (d : t) : t :=
  mk (value d) (timestamp d) (source d) (sourceType d) v (isVerified d) (metadata d).
Definition set_isVerified (v : bool) (d : t) : t :=
  mk (value d) (timestamp d) (source d) (sourceType d) (verifier d) v (metadata d).
End DataPoint.

(** [abi.encodePacked(_source, _value, block.timestamp, msg.sender)]: the bytes
    of the string, then two 32-byte and one 20-byte big-endian words. *)
Fixpoint be_bytes (n : nat) (x : N) : list Byte.byte :=
  match n with
  | O => []
  | S n' => be_bytes n' (x / 256) ++ [Ascii.byte_of_ascii (Ascii.ascii_of_N (x mod 256))]
  end.

Definition encodePacked (_source : string) (_value _timestamp : uint256) (_sender : address)
    : list Byte.byte :=
  String.list_byte_of_string _source ++ be_bytes 32 _value ++ be_bytes 32 _timestamp
    ++ be_bytes 20 _sender.

Module DataOracle.

Inductive Event :=
| DataSubmitted (dataId : bytes32) (source : string) (value : uint256) (provider : address)
| DataVerified (dataId : bytes32) (verified : bool) (verifier : address)
| TrustedSourceAdded (source : string) (sourceType : DataSourceType.t)
| TrustedSourceRemoved (source : string)
| VerificationThresholdUpdated (sourceType : DataSourceType.t) (newThreshold : uint256)
| RoleGranted (r : role) (account by_ : address)
| RoleRevoked (r : role) (account by_ : address)
| Paused (account : address)
| Unpaused (account : address).

Record State := mkState {
  roles : role -> address -> bool;
  paused : bool;
  trustedSources : string -> bool;
  sourceTypes : string -> DataSourceType.t;
  dataPoints : bytes32 -> DataPoint.t;
  sourceDataHistory : string -> list bytes32;
  verificationThresholds : DataSourceType.t -> uint256;
  sourceReliabilityScore : string -> uint256;
  events : list Event
}.

Definition set_roles (v : role -> address -> bool) (s : State) : State :=
  mkState v (paused s) (trustedSources s) (sourceTypes s) (dataPoints s) (sourceDataHistory s)
          (verificationThresholds s) (sourceReliabilityScore s) (events s).
Definition set_paused (v : bool) (s : State) : State :=
  mkState (roles s) v (trustedSources s) (sourceTypes s) (dataPoints s) (sourceDataHistory s)
          (verificationThresholds s) (sourceReliabilityScore s) (events s).
Definition set_trustedSources (v : string -> bool) (s : State) : State :=
  mkState (roles s) (paused s) v (sourceTypes s) (dataPoints s) (sourceDataHistory s)
          (verificationThresholds s) (sourceReliabilityScore s) (events s).
Definition set_sourceTypes (v : string -> DataSourceType.t) (s : State) : State :=
  mkState (roles s) (paused s) (trustedSources s) v (dataPoints s) (sourceDataHistory s)
          (verificationThresholds s) (sourceReliabilityScore s) (events s).
Definition set_dataPoints (v : bytes32 -> DataPoint.t) (s : State) : State :=
  mkState (roles s) (paused s) (trustedSources s) (sourceTypes s) v (sourceDataHistory s)
          (verificationThresholds s) (sourceReliabilityScore s) (events s).
Definition set_sourceDataHistory (v : string -> list bytes32) (s : State) : State :=
  mkState (roles s) (paused s) (trustedSources s) (sourceTypes s) (dataPoints s) v
          (verificationThresholds s) (sourceReliabilityScore s) (events s).
Definition set_verificationThresholds (v : DataSourceType.t -> uint256) (s : State) : State :=
  mkState (roles s) (paused s) (trustedSources s) (sourceTypes s) (dataPoints s)
          (sourceDataHistory s) v (sourceReliabilityScore s) (events s).
Definition set_sourceReliabilityScore (v : string -> uint256) (s : State) : State :=
  mkState (roles s) (paused s) (trustedSources s) (sourceTypes s) (dataPoints s)
          (sourceDataHistory s) (verificationThresholds s) v (events s).
Definition emit (ev : Event) (s : State) : State :=
  mkState (roles s) (paused s) (trustedSources s) (sourceTypes s) (dataPoints s)
          (sourceDataHistory s) (verificationThresholds s) (sourceReliabilityScore s)
          (events s ++ [ev]).

(** *** AccessControl and Pausable, as for the ledger *)

Definition hasRole (r : role) (account : address) (s : State) : bool := roles s r account.

Definition _grantRole (e : Env) (r : role) (account : address) (s : State) : State :=
  if hasRole r account s then s
  else emit (RoleGranted r account (sender e))
         (set_roles (<[r := <[account := true]> (roles s r)]> (roles s)) s).

Definition _revokeRole (e : Env) (r : role) (account : address) (s : State) : State :=
  if hasRole r account s
  then emit (RoleRevoked r account (sender e))
         (set_roles (<[r := <[account := false]> (roles s r)]> (roles s)) s)
  else s.

Definition onlyRole (e : Env) (r : role) (s : State) : result unit :=
  if hasRole r (sender e) s then Ok tt else Revert (MissingRole (sender e) r).

Definition grantRole (e : Env) (r : role) (account : address) (s : State) : result State :=
  _ ← onlyRole e DEFAULT_ADMIN_ROLE s;
  Ok (_grantRole e r account s).

Definition revokeRole (e : Env) (r : role) (account : address) (s : State) : result State :=
  _ ← onlyRole e DEFAULT_ADMIN_ROLE s;
  Ok (_revokeRole e r account s).

Definition renounceRole (e : Env) (r : role) (account : address) (s : State) : result State :=
  _ ← require (bool_decide (account = sender e)) "AccessControl: can only renounce roles for self";
  Ok (_revokeRole e r account s).

Definition whenNotPaused (s : State) : result unit :=
  require (negb (paused s)) "Pausable: paused".

Definition whenPaused (s : State) : result unit :=
  require (paused s) "Pausable: not paused".

Definition _pause (e : Env) (s : State) : result State :=
  _ ← whenNotPaused s;
  Ok (emit (Paused (sender e)) (set_paused true s)).

Definition _unpause (e : Env) (s : State) : result State :=
  _ ← whenPaused s;
  Ok (emit (Unpaused (sender e)) (set_paused false s)).

Definition onlyTrustedSource (_source : string) (s : State) : result unit :=
  require (trustedSources s _source) "Source not trusted".

(** *** The constructor *)

Definition init (deployer : address) : State :=
  let e := mkEnv deployer 0 0 (fun _ => true) in
  let s := mkState (fun _ _ => false) false (fun _ => false) (fun _ => DataSourceType.IoTDevice)
                   (fun _ => DataPoint.zero) (fun _ => []) (fun _ => 0) (fun _ => 0) [] in
  let s := _grantRole e DEFAULT_ADMIN_ROLE deployer s in
  let s := _grantRole e ORACLE_OPERATOR_ROLE deployer s in
  let s := set_verificationThresholds
             (<[DataSourceType.IoTDevice := 85]> (verificationThresholds s)) s in
  let s := set_verificationThresholds
             (<[DataSourceType.GovernmentDB := 95]> (verificationThresholds s)) s in
  let s := set_verificationThresholds
             (<[DataSourceType.ThirdPartyVerifier := 90]> (verificationThresholds s)) s in
  set_verificationThresholds (<[DataSourceType.Manual := 75]> (verificationThresholds s)) s.

(** *** State-changing functions *)

Definition addTrustedSource (e : Env) (_source : string) (_sourceType : DataSourceType.t)
    (s : State) : result State :=
  _ ← onlyRole e ORACLE_OPERATOR_ROLE s;
  let s := set_trustedSources (<[_source := true]> (trustedSources s)) s in
  let s := set_sourceTypes (<[_source := _sourceType]> (sourceTypes s)) s in
  let s := set_sourceReliabilityScore
             (<[_source := verificationThresholds s _sourceType]> (sourceReliabilityScore s)) s in
  Ok (emit (TrustedSourceAdded _source _sourceType) s).

Definition removeTrustedSource (e : Env) (_source : string) (s : State) : result State :=
  _ ← onlyRole e ORACLE_OPERATOR_ROLE s;
  let s := set_trustedSources (<[_source := false]> (trustedSources s)) s in
  let s := set_sourceTypes (<[_source := DataSourceType.IoTDevice]> (sourceTypes s)) s in
  let s := set_sourceReliabilityScore (<[_source := 0]> (sourceReliabilityScore s)) s in
  Ok (emit (TrustedSourceRemoved _source) s).

Section Hashed.

(** The EVM's [keccak256]. *)
Variable keccak256 : list Byte.byte -> bytes32.

Definition submitData (e : Env) (_source : string) (_value : uint256) (_metadata : string)
    (s : State) : result (State * bytes32) :=
  _ ← onlyRole e DATA_PROVIDER_ROLE s;
  _ ← onlyTrustedSource _source s;
  _ ← whenNotPaused s;
  let dataId := keccak256 (encodePacked _source _value (timestamp e) (sender e)) in
  let s := set_dataPoints
             (<[dataId := DataPoint.mk _value (timestamp e) _source (sourceTypes s _source)
                                      (sender e) false _metadata]> (dataPoints s)) s in
  let s := set_sourceDataHistory
             (<[_source := sourceDataHistory s _source ++ [dataId]]> (sourceDataHistory s)) s in
  let s := emit (DataSubmitted dataId _source _value (sender e)) s in
  Ok (s, dataId).

End Hashed.

Definition verifyData (e : Env) (_dataId : bytes32) (_verified : bool) (s : State)
    : result State :=
  _ ← onlyRole e ORACLE_OPERATOR_ROLE s;
  _ ← require (bool_decide (0 < DataPoint.timestamp (dataPoints s _dataId)))
              "Data point does not exist";
  let s := set_dataPoints
             (<[_dataId := DataPoint.set_isVerified _verified (dataPoints s _dataId)]>
                (dataPoints s)) s in
  let s := set_dataPoints
             (<[_dataId := DataPoint.set_verifier (sender e) (dataPoints s _dataId)]>
                (dataPoints s)) s in
  Ok (emit (DataVerified _dataId _verified (sender e)) s).

Definition updateVerificationThreshold (e : Env) (_sourceType : DataSourceType.t)
    (_newThreshold : uint256) (s : State) : result State :=
  _ ← onlyRole e ORACLE_OPERATOR_ROLE s;
  _ ← require (bool_decide (_newThreshold <= 100)) "Threshold cannot exceed 100";
  let s := set_verificationThresholds
             (<[_sourceType := _newThreshold]> (verificationThresholds s)) s in
  Ok (emit (VerificationThresholdUpdated _sourceType _newThreshold) s).

Definition updateSourceReliability (e : Env) (_source : string) (_newScore : uint256)
    (s : State) : result State :=
  _ ← onlyRole e ORACLE_OPERATOR_ROLE s;
  _ ← onlyTrustedSource _source s;
  _ ← require (bool_decide (_newScore <= 100)) "Score cannot exceed 100";
  Ok (set_sourceReliabilityScore (<[_source := _newScore]> (sourceReliabilityScore s)) s).

Definition pause (e : Env) (s : State) : result State :=
  _ ← onlyRole e ORACLE_OPERATOR_ROLE s;
  _pause e s.

Definition unpause (e : Env) (s : State) : result State :=
  _ ← onlyRole e ORACLE_OPERATOR_ROLE s;
  _unpause e s.

(** *** View functions

    The loop counters [i], [validCount] and [index] are positions in an array,
    whose length is below [2 ^ 256]: they are natural numbers here and their
    increments cannot overflow.  Writing an array out of range reverts with
    [Panic 0x32]. *)

(** The condition both loops of [getVerifiedData] test. *)
Definition inRange (dp : DataPoint.t) (_fromTimestamp _toTimestamp : uint256) : bool :=
  DataPoint.isVerified dp
  && bool_decide (_fromTimestamp <= DataPoint.timestamp dp)
  && bool_decide (DataPoint.timestamp dp <= _toTimestamp).

Fixpoint countValid (dps : bytes32 -> DataPoint.t) (_from _to : uint256)
    (sourceData : list bytes32) (validCount : nat) : nat :=
  match sourceData with
  | [] => validCount
  | dataId :: rest =>
      if inRange (dps dataId) _from _to
      then countValid dps _from _to rest (S validCount)
      else countValid dps _from _to rest validCount
  end.

Fixpoint fillValid (dps : bytes32 -> DataPoint.t) (_from _to : uint256)
    (sourceData : list bytes32) (validDataIds : list bytes32) (values : list uint256)
    (index : nat) : result (list bytes32 * list uint256) :=
  match sourceData with
  | [] => Ok (validDataIds, values)
  | dataId :: rest =>
      let dp := dps dataId in
      if inRange dp _from _to then
        if (index <? length validDataIds)%nat && (index <? length values)%nat
        then fillValid dps _from _to rest
               (<[index := dataId]> validDataIds) (<[index := DataPoint.value dp]> values)
               (S index)
        else Revert (Panic 50)
      else fillValid dps _from _to rest validDataIds values index
  end.

Definition getVerifiedData (_source : string) (_fromTimestamp _toTimestamp : uint256)
    (s : State) : result (list bytes32 * list uint256) :=
  let sourceData := sourceDataHistory s _source in
  let validCount := countValid (dataPoints s) _fromTimestamp _toTimestamp sourceData 0 in
  fillValid (dataPoints s) _fromTimestamp _toTimestamp sourceData
            (replicate validCount 0) (replicate validCount 0) 0.

Fixpoint sumValues (values : list uint256) (totalValue : uint256) : result uint256 :=
  match values with
  | [] => Ok totalValue
  | v :: rest => t ← checked_add totalValue v; sumValues rest t
  end.

Definition getAggregateValue (_source : string) (_fromTimestamp _toTimestamp : uint256)
    (s : State) : result (uint256 * uint256) :=
  '(validDataIds, values) ← getVerifiedData _source _fromTimestamp _toTimestamp s;
  totalValue ← sumValues values 0;
  Ok (totalValue, N.of_nat (length validDataIds)).

Definition getDataPoint (_dataId : bytes32) (s : State) : DataPoint.t := dataPoints s _dataId.

Definition isSourceTrusted (_source : string) (s : State) : bool := trustedSources s _source.

Definition getSourceReliability (_source : string) (s : State) : uint256 :=
  sourceReliabilityScore s _source.

(** *** Transactions: no function of the oracle is payable *)

Inductive Call :=
| AddTrustedSource (_source : string) (_sourceType : DataSourceType.t)
| RemoveTrustedSource (_source : string)
| SubmitData (_source : string) (_value : uint256) (_metadata : string)
| VerifyData (_dataId : bytes32) (_verified : bool)
| UpdateVerificationThreshold (_sourceType : DataSourceType.t) (_newThreshold : uint256)
| UpdateSourceReliability (_source : string) (_newScore : uint256)
| Pause
| Unpause
| GrantRole (r : role) (account : address)
| RevokeRole (r : role) (account : address)
| RenounceRole (r : role) (account : address).

Section Transactions.

Variable keccak256 : list Byte.byte -> bytes32.

Definition call (e : Env) (c : Call) (s : State) : result State :=
  if bool_decide (0 < value e) then Revert NotPayable
  else
    match c with
    | AddTrustedSource src t => addTrustedSource e src t s
    | RemoveTrustedSource src => removeTrustedSource e src s
    | SubmitData src v md => fst <$> submitData keccak256 e src v md s
    | VerifyData d v => verifyData e d v s
    | UpdateVerificationThreshold t n => updateVerificationThreshold e t n s
    | UpdateSourceReliability src n => updateSourceReliability e src n s
    | Pause => pause e s
    | Unpause => unpause e s
    | GrantRole r a => grantRole e r a s
    | RevokeRole r a => revokeRole e r a s
    | RenounceRole r a => renounceRole e r a s
    end.

Definition step (s : State) (tx : Env * Call) : State :=
  match call tx.1 tx.2 s with
  | Ok s' => s'
  | Revert _ => s
  end.

Definition run (deployer : address) (txs : list (Env * Call)) : State :=
  fold_left step txs (init deployer).

(** What a submission's identifier is computed from. *)
Definition submission (tx : Env * Call) : option (string * uint256 * uint256 * address) :=
  match tx.2 with
  | SubmitData src v _ => Some (src, v, timestamp tx.1, sender tx.1)
  | _ => None
  end.

Definition dataIdOf (t : string * uint256 * uint256 * address) : bytes32 :=
  keccak256 (encodePacked t.1.1.1 t.1.1.2 t.1.2 t.2).

(** No two submissions of the transactions collide under the hash unless they
    agree on source, value, timestamp and submitter. *)
Definition collisionFree (txs : list (Env * Call)) : bool :=
  let subs := omap submission txs in
  forallb (fun t1 => forallb (fun t2 =>
    implb (bool_decide (dataIdOf t1 = dataIdOf t2)) (bool_decide (t1 = t2))) subs) subs.

End Transactions.


(** *** The query as the specification words it

    The data points of the source's history that are verified and whose
    timestamp lies in [[fromTime, toTime]], in the order of the history. *)
Definition verifiedInRange (_source : string) (fromTime toTime : uint256) (s : State)
    : list bytes32 :=
  filter (fun dataId =>
            DataPoint.isVerified (dataPoints s dataId) = true
            ∧ fromTime <= DataPoint.timestamp (dataPoints s dataId) <= toTime)
         (sourceDataHistory s _source).

Definition sumN (l : list uint256) : N := foldr N.add 0 l.

End DataOracle.

(** ** Concrete transactions, after the repository's test suite

    Account 1 deploys the ledger and is the government, 2 is the auditor, 3 the
    oracle, 4 the producer; every recipient takes a transfer. *)

Module SubsidyScenarios.
Import GreenHydrogenSubsidy.

Definition everyone : address -> bool := fun _ => true.

Definition government : Env := mkEnv 1 0 100 everyone.

Definition auditor : Env := mkEnv 2 0 200 everyone.

Definition oracle : Env := mkEnv 3 0 200 everyone.

Definition producer : Env := mkEnv 4 0 300 everyone.

(** Roles granted, 10 units in the pool, one project with budget 5 and one
    milestone of 2 units with target 1000 and deadline 1000. *)
Definition setup : list (Env * Call) :=
  [ (government, GrantRole AUDITOR_ROLE 2);
    (government, GrantRole ORACLE_ROLE 3);
    (mkEnv 1 10 100 everyone, AddFunds);
    (government, RegisterProject 4 "Test Project" "Test Description" 5);
    (government, AddMilestone 1 "Produce 1000kg of green hydrogen" 2 1000
                              "hydrogen-meter-001" 1000) ].

Definition verified_and_paid : list (Env * Call) :=
  setup ++ [ (oracle, VerifyMilestone 1 1500 true) ].

Definition paid_then_disputed : list (Env * Call) :=
  verified_and_paid ++ [ (producer, DisputeMilestone 1) ].

(** Two projects of budget 10 registered against a pool of 10, each with one
    milestone of 10 units; the first milestone has been verified and paid, so
    the pool is exhausted when the second is verified. *)
Definition pool_exhausted : list (Env * Call) :=
  [ (government, GrantRole ORACLE_ROLE 3);
    (mkEnv 1 10 100 everyone, AddFunds);
    (government, RegisterProject 4 "Alpha" "first plant" 10);
    (government, RegisterProject 6 "Beta" "second plant" 10);
    (government, AddMilestone 1 "Produce 1000kg" 10 1000 "hydrogen-meter-001" 1000);
    (government, AddMilestone 2 "Produce 1000kg" 10 1000 "hydrogen-meter-002" 1000);
    (oracle, VerifyMilestone 1 1500 true) ].

(** One project of budget 5 with two milestones of 5 units each, both admitted
    while nothing was disbursed, and both verified. *)
Definition overcommitted : list (Env * Call) :=
  [ (government, GrantRole ORACLE_ROLE 3);
    (mkEnv 1 10 100 everyone, AddFunds);
    (government, RegisterProject 4 "Test Project" "Test Description" 5);
    (government, AddMilestone 1 "first half" 5 1000 "hydrogen-meter-001" 1000);
    (government, AddMilestone 1 "second half" 5 1000 "hydrogen-meter-001" 1000);
    (oracle, VerifyMilestone 1 1500 true);
    (oracle, VerifyMilestone 2 1500 true) ].

Definition paused_ledger : list (Env * Call) :=
  [ (mkEnv 1 10 100 everyone, AddFunds); (government, Pause) ].

(** The run [pool_exhausted], then 10 units forced into the contract, and the
    second milestone verified. *)
Definition forced_overdraft : list Move :=
  (Transact <$> pool_exhausted)
  ++ [ Forced 10; Transact (oracle, VerifyMilestone 2 1500 true) ].

(** The project of [setup] suspended by the government: the contract holds 10
    units and the milestone asks for 2. *)
Definition suspended : list (Env * Call) :=
  setup ++ [ (government, UpdateProjectStatus 1 ProjectStatus.Suspended) ].

End SubsidyScenarios.

(** ** Concrete transactions on the oracle

    Account 1 deploys the oracle and operates it, account 2 provides data. *)

Module OracleScenarios.
Import DataOracle.

Definition meter : string := "hydrogen-meter-001".
Definition operator : Env := mkEnv 1 0 100 (fun _ => true).
Definition provider : Env := mkEnv 2 0 150 (fun _ => true).
Definition provider_later : Env := mkEnv 2 0 160 (fun _ => true).

Definition enrolled : list (Env * Call) :=
  [ (operator, GrantRole DATA_PROVIDER_ROLE 2);
    (operator, AddTrustedSource meter DataSourceType.IoTDevice) ].


(** Two readings in successive blocks. *)
Definition two_readings : list (Env * Call) :=
  enrolled ++ [ (provider, SubmitData meter 1500 "morning");
                (provider_later, SubmitData meter 1600 "evening") ].

(** A reading of [2 ^ 255] sent twice and then verified under its identifier. *)
Definition large_twice (dataId : bytes32) : list (Env * Call) :=
  enrolled ++ [ (provider, SubmitData meter (2 ^ 255) "first copy");
                (provider, SubmitData meter (2 ^ 255) "second copy");
                (operator, VerifyData dataId true) ].

(** A stand-in for the hash where a concrete one is needed: the bytes read as
    a big-endian number, which tells apart packed encodings of equal length. *)
Definition bytes_number (bs : list Byte.byte) : bytes32 :=
  fold_left (fun acc b => acc * 256 + Byte.to_N b) bs 0.

End OracleScenarios.

(** ** Further views of the ledger *)

Module SubsidyViews.
Import GreenHydrogenSubsidy.

Definition getProjectMilestones (_projectId : uint256) (s : State) : result (list uint256) :=
  _ ← projectExists _projectId s;
  Ok (Project.milestoneIds (projects s _projectId)).

Definition getProducerProjects (_producer : address) (s : State) : list uint256 :=
  producerProjects s _producer.

End SubsidyViews.

Module DisputeScenarios.
Import GreenHydrogenSubsidy SubsidyScenarios.



End DisputeScenarios.

(** ** Further transactions on the oracle *)

Module VerificationScenarios.
Import DataOracle OracleScenarios.

(** The identifier of the morning reading of [two_readings] under the
    stand-in hash. *)
Definition morning_id : bytes32 := bytes_number (encodePacked meter 1500 150 2).

(** Two readings, the first of them verified by the operator. *)
Definition one_verified : list (Env * Call) :=
  two_readings ++ [ (operator, VerifyData morning_id true) ].

(** An account that holds no role. *)
Definition stranger : Env := mkEnv 9 0 170 (fun _ => true).

End VerificationScenarios.

(** * Properties *)

(** ** Reasoning about calls that return *)

Lemma bind_Ok {A B} (m : result A) (k : A -> result B) (b : B) :
  m ≫= k = Ok b -> exists a, m = Ok a /\ k a = Ok b.
Proof. destruct m as [a|err]; simpl; [eauto | discriminate]. Qed.

Lemma fmap_Ok {A B} (f : A -> B) (m : result A) (b : B) :
  f <$> m = Ok b -> exists a, m = Ok a /\ b = f a.
Proof. destruct m as [a|err]; simpl; [intros [= <-]; eauto | discriminate]. Qed.

Lemma require_Ok (cond : bool) (reason : string) (u : unit) :
  require cond reason = Ok u -> cond = true.
Proof. destruct cond; [reflexivity | discriminate]. Qed.

Lemma checked_add_Ok (a b c : uint256) :
  checked_add a b = Ok c -> c = a + b /\ a + b <= MAX_UINT256.
Proof. unfold checked_add. case_bool_decide; [intros [= <-]; auto | discriminate]. Qed.

Lemma checked_sub_Ok (a b c : uint256) :
  checked_sub a b = Ok c -> c = a - b /\ b <= a.
Proof. unfold checked_sub. case_bool_decide; [intros [= <-]; auto | discriminate]. Qed.

Lemma checked_add_fits (a b : uint256) :
  a + b <= MAX_UINT256 -> checked_add a b = Ok (a + b).
Proof. intros H. unfold checked_add. rewrite bool_decide_true; auto. Qed.

(** Splits a hypothesis [H : c = Ok _] along the binds, requires and checked
    operations of [c]. *)
Ltac inv_ok H :=
  repeat match type of H with
  | _ ≫= _ = Ok _ =>
      let u := fresh "u" in let Hu := fresh "Hu" in
      apply bind_Ok in H as (u & Hu & H);
      first [ apply require_Ok in Hu
            | apply checked_add_Ok in Hu as [-> Hu]
            | apply checked_sub_Ok in Hu as [-> Hu]
            | idtac ]
  | _ <$> _ = Ok _ =>
      let u := fresh "u" in let Hu := fresh "Hu" in
      apply fmap_Ok in H as (u & H & Hu)
  | Ok _ = Ok _ => injection H as H
  | Revert _ = Ok _ => discriminate H
  end.

Module SubsidyProperties.
Import GreenHydrogenSubsidy SubsidyScenarios.

(** *** What a payment does *)

Lemma transfer_Ok e to a s s' :
  transfer e to a s = Ok s' -> s' = set_balance (balance s - a) s /\ a <= balance s.
Proof.
  unfold transfer. destruct (bool_decide (a <= balance s)) eqn:Hb; simpl; [|discriminate].
  destruct (accepts e to); [|discriminate].
  intros [= <-]. apply bool_decide_eq_true in Hb. auto.
Qed.

Lemma checkProjectCompletion_frame p s :
  let s' := _checkProjectCompletion p s in
  milestones s' = milestones s /\ nextMilestoneId s' = nextMilestoneId s
  /\ totalSubsidyPool s' = totalSubsidyPool s /\ totalDisbursed s' = totalDisbursed s
  /\ balance s' = balance s.
Proof. unfold _checkProjectCompletion. destruct (_ && _); simpl; auto. Qed.

Lemma processMilestonePayment_Ok e i s s' :
  _processMilestonePayment e i s = Ok s' ->
  Milestone.status (milestones s i) = MilestoneStatus.Verified
  /\ Milestone.paid (milestones s i) = false
  /\ milestones s' = <[i := Milestone.set_paid true (milestones s i)]> (milestones s)
  /\ nextMilestoneId s' = nextMilestoneId s
  /\ totalSubsidyPool s' = totalSubsidyPool s
  /\ totalDisbursed s' = totalDisbursed s + Milestone.subsidyAmount (milestones s i)
  /\ balance s' + Milestone.subsidyAmount (milestones s i) = balance s.
Proof.
  unfold _processMilestonePayment. intros H. inv_ok H.
  match goal with Ht : transfer _ _ _ _ = Ok _ |- _ => apply transfer_Ok in Ht as [-> Hle] end.
  simpl in Hle.
  repeat match goal with
  | Hb : bool_decide _ = true |- _ => apply bool_decide_eq_true in Hb
  | Hb : negb _ = true |- _ => apply negb_true_iff in Hb
  end.
  subst s'.
  match goal with |- context [_checkProjectCompletion ?p ?t] =>
    destruct (checkProjectCompletion_frame p t) as (-> & -> & -> & -> & ->) end.
  simpl. repeat split; auto. lia.
Qed.

(** *** The effect of a call on milestones and funds

    A call that returns either leaves the milestones alone ([eff_funds]),
    creates one ([eff_add]), changes the status of one without paying
    ([eff_status]), or pays one ([eff_pay]). *)
Inductive effect (e : Env) (s s' : State) : Prop :=
| eff_funds :
    (forall j, milestones s' j = milestones s j) ->
    nextMilestoneId s' = nextMilestoneId s ->
    totalDisbursed s' = totalDisbursed s ->
    totalSubsidyPool s <= totalSubsidyPool s' ->
    balance s' + totalSubsidyPool s <= balance s + totalSubsidyPool s' ->
    effect e s s'
| eff_add :
    (forall j, j ≠ nextMilestoneId s -> milestones s' j = milestones s j) ->
    Milestone.paid (milestones s' (nextMilestoneId s)) = false ->
    nextMilestoneId s' = nextMilestoneId s + 1 ->
    totalDisbursed s' = totalDisbursed s ->
    totalSubsidyPool s' = totalSubsidyPool s ->
    balance s' = balance s ->
    effect e s s'
| eff_status i :
    0 < i < nextMilestoneId s ->
    (forall j, j ≠ i -> milestones s' j = milestones s j) ->
    (Milestone.status (milestones s i) = MilestoneStatus.Pending ->
     timestamp e <= Milestone.deadline (milestones s i)) ->
    Milestone.paid (milestones s' i) = Milestone.paid (milestones s i) ->
    Milestone.subsidyAmount (milestones s' i) = Milestone.subsidyAmount (milestones s i) ->
    Milestone.status (milestones s' i) ≠ MilestoneStatus.Pending ->
    nextMilestoneId s' = nextMilestoneId s ->
    totalDisbursed s' = totalDisbursed s ->
    totalSubsidyPool s' = totalSubsidyPool s ->
    balance s' = balance s ->
    effect e s s'
| eff_pay i :
    0 < i < nextMilestoneId s ->
    (forall j, j ≠ i -> milestones s' j = milestones s j) ->
    (Milestone.status (milestones s i) = MilestoneStatus.Pending ->
     timestamp e <= Milestone.deadline (milestones s i)) ->
    Milestone.paid (milestones s i) = false ->
    Milestone.paid (milestones s' i) = true ->
    Milestone.status (milestones s' i) = MilestoneStatus.Verified ->
    Milestone.subsidyAmount (milestones s' i) = Milestone.subsidyAmount (milestones s i) ->
    nextMilestoneId s' = nextMilestoneId s ->
    totalDisbursed s' = totalDisbursed s + Milestone.subsidyAmount (milestones s i) ->
    totalSubsidyPool s' = totalSubsidyPool s ->
    balance s' + Milestone.subsidyAmount (milestones s i) = balance s ->
    effect e s s'.

Ltac to_prop :=
  repeat match goal with
  | Hb : bool_decide _ = true |- _ => apply bool_decide_eq_true in Hb
  | Hb : negb _ = true |- _ => apply negb_true_iff in Hb
  | Hb : _ && _ = true |- _ => apply andb_true_iff in Hb as [? ?]
  end.

Lemma exists_range i s u :
  milestoneExists i s = Ok u -> 0 < i < nextMilestoneId s.
Proof. intros H. apply require_Ok in H. to_prop. auto. Qed.

Lemma grantRole_frame e r a s : 
  let s' := _grantRole e r a s in
  milestones s' = milestones s /\ nextMilestoneId s' = nextMilestoneId s
  /\ totalSubsidyPool s' = totalSubsidyPool s /\ totalDisbursed s' = totalDisbursed s
  /\ balance s' = balance s.
Proof. unfold _grantRole. destruct (hasRole _ _ _); simpl; auto. Qed.

Lemma revokeRole_frame e r a s : 
  let s' := _revokeRole e r a s in
  milestones s' = milestones s /\ nextMilestoneId s' = nextMilestoneId s
  /\ totalSubsidyPool s' = totalSubsidyPool s /\ totalDisbursed s' = totalDisbursed s
  /\ balance s' = balance s.
Proof. unfold _revokeRole. destruct (hasRole _ _ _); simpl; auto. Qed.


Ltac inv_step :=
  match goal with
  | H : _ ≫= _ = Ok _ |- _ => apply bind_Ok in H as (? & ? & ?)
  | H : _ <$> _ = Ok _ |- _ => apply fmap_Ok in H as (? & ? & ?)
  | H : require _ _ = Ok _ |- _ => apply require_Ok in H
  | H : checked_add _ _ = Ok _ |- _ => apply checked_add_Ok in H as [-> ?]
  | H : checked_sub _ _ = Ok _ |- _ => apply checked_sub_Ok in H as [-> ?]
  | H : transfer _ _ _ _ = Ok _ |- _ => apply transfer_Ok in H as [-> ?]
  | H : milestoneExists _ _ = Ok _ |- _ => apply exists_range in H
  | H : Ok _ = Ok _ |- _ => injection H as H
  | H : Revert _ = Ok _ |- _ => discriminate H
  | H : (if ?b then Ok _ else Revert _) = Ok _ |- _ =>
      let Hb := fresh "Hb" in destruct b eqn:Hb; [|discriminate H]
  end.
Ltac inv_calls := repeat inv_step; to_prop.

(** Every call that returns has one of the four effects. *)
Lemma call_effect e c s s' : call e c s = Ok s' -> effect e s s'.
Proof.
  unfold call. destruct (negb (payable c) && bool_decide (0 < value e)) eqn:Hpay; [discriminate|].
  assert (Hv : payable c = false -> balance s + value e = balance s).
  { intros Hc. rewrite Hc in Hpay. simpl in Hpay. apply bool_decide_eq_false in Hpay. lia. }
  destruct c; simpl in Hv; intros H.
  - (* addFunds *)
    unfold addFunds, onlyGovernment in H. inv_calls. subst s'. apply eff_funds; simpl; auto; lia.
  - (* registerProject *)
    unfold registerProject, grantRole, onlyGovernment, onlyRole in H. inv_calls. subst. 
    match goal with |- context [_grantRole ?e ?r ?a ?t] =>
      destruct (grantRole_frame e r a t) as (Hm & Hn & Hp & Hd & Hb') end.
    apply eff_funds; simpl; rewrite ?Hm, ?Hn, ?Hp, ?Hd, ?Hb'; simpl; auto; lia.
  - (* addMilestone *)
    unfold addMilestone, onlyGovernment, projectExists in H. inv_calls. subst. 
    apply eff_add; intros;
      match goal with |- context [if ?b then _ else _] => destruct b end; simpl;
      rewrite ?fn_lookup_insert, ?fn_lookup_insert_ne by auto; auto.
  - (* verifyMilestone *)
    unfold verifyMilestone in H. inv_calls. subst s'.
    match goal with Hi : (if ?b then _ else _) = Ok _ |- _ => destruct b eqn:Hcond end.
    + match goal with Hp : _processMilestonePayment _ _ _ = Ok _ |- _ =>
        apply processMilestonePayment_Ok in Hp as (Hst & Hpd & Hms & Hn & Hp & Hd & Hbal) end.
      simpl in *. rewrite ?fn_lookup_insert in *. simpl in *.
      apply (eff_pay _ _ _ _milestoneId); simpl; rewrite ?Hms, ?Hn, ?Hp, ?Hd;
        rewrite ?fn_lookup_insert; simpl; auto; try lia.
      intros j Hj. rewrite !fn_lookup_insert_ne by auto. reflexivity.
    + inv_calls. subst.
      apply (eff_status _ _ _ _milestoneId); simpl; rewrite ?fn_lookup_insert; simpl; auto; try lia.
      * intros j Hj. rewrite !fn_lookup_insert_ne by auto. reflexivity.
  - (* updateProjectStatus *)
    unfold updateProjectStatus, onlyGovernment, projectExists in H. inv_calls. subst.
    apply eff_funds; simpl; auto; lia.
  - (* disputeMilestone *)
    unfold disputeMilestone in H. inv_calls. subst.
    apply (eff_status _ _ _ _milestoneId); simpl; rewrite ?fn_lookup_insert; simpl; auto; try lia.
    + intros j Hj. rewrite !fn_lookup_insert_ne by auto. reflexivity.
    + simpl in *. intros Hp. 
      match goal with Hs : _ || _ = true |- _ => rewrite Hp in Hs; discriminate Hs end.
  - (* resolveDispute *)
    unfold resolveDispute, onlyAuditor in H. inv_calls. simpl in *.
    destruct _approve.
    + match goal with Hi : (if _ then _ else _) = Ok _ |- _ =>
        rewrite fn_lookup_insert in Hi; simpl in Hi; rename Hi into Hres end.
      destruct (negb (Milestone.paid (milestones s _milestoneId))) eqn:Hnp.
      * apply processMilestonePayment_Ok in Hres as (Hst & Hpd & Hms & Hn & Hp & Hd & Hbal).
        simpl in *. rewrite ?fn_lookup_insert in *. simpl in *.
        apply (eff_pay _ _ _ _milestoneId); simpl; rewrite ?Hms, ?Hn, ?Hp, ?Hd;
          rewrite ?fn_lookup_insert; simpl; auto; try lia; try congruence.
        intros j Hj. rewrite !fn_lookup_insert_ne by auto. reflexivity.
      * inv_calls. subst.
        apply (eff_status _ _ _ _milestoneId); simpl; rewrite ?fn_lookup_insert; simpl;
          auto; try lia; try congruence.
        intros j Hj. rewrite !fn_lookup_insert_ne by auto. reflexivity.
    + inv_calls. subst.
      apply (eff_status _ _ _ _milestoneId); simpl; rewrite ?fn_lookup_insert; simpl;
        auto; try lia; try congruence.
      intros j Hj. rewrite !fn_lookup_insert_ne by auto. reflexivity.
  - (* emergencyWithdraw *)
    unfold emergencyWithdraw, onlyGovernment in H. inv_calls. subst.
    apply eff_funds; simpl in *; auto; lia.
  - (* pause *)
    unfold pause, _pause, onlyGovernment in H. inv_calls. subst.
    apply eff_funds; simpl; auto; lia.
  - (* unpause *)
    unfold unpause, _unpause, onlyGovernment in H. inv_calls. subst.
    apply eff_funds; simpl; auto; lia.
  - (* grantRole *)
    unfold grantRole, onlyRole in H. inv_calls. subst.
    match goal with |- context [_grantRole ?e ?r ?a ?t] =>
      destruct (grantRole_frame e r a t) as (Hm & Hn & Hp & Hd & Hb') end.
    apply eff_funds; simpl; rewrite ?Hm, ?Hn, ?Hp, ?Hd, ?Hb'; simpl; auto; lia.
  - (* revokeRole *)
    unfold revokeRole, onlyRole in H. inv_calls. subst.
    match goal with |- context [_revokeRole ?e ?r ?a ?t] =>
      destruct (revokeRole_frame e r a t) as (Hm & Hn & Hp & Hd & Hb') end.
    apply eff_funds; simpl; rewrite ?Hm, ?Hn, ?Hp, ?Hd, ?Hb'; simpl; auto; lia.
  - (* renounceRole *)
    unfold renounceRole in H. inv_calls. subst.
    match goal with |- context [_revokeRole ?e ?r ?a ?t] =>
      destruct (revokeRole_frame e r a t) as (Hm & Hn & Hp & Hd & Hb') end.
    apply eff_funds; simpl; rewrite ?Hm, ?Hn, ?Hp, ?Hd, ?Hb'; simpl; auto; lia.
  - (* receive *)
    unfold receive in H. inv_calls. subst s'. apply eff_funds; simpl; auto; lia.
Qed.

(** *** Sums over the milestones *)


Lemma sum_over_cons f a l : sum_over f (a :: l) = f a + sum_over f l.
Proof. reflexivity. Qed.

Lemma sum_over_ext f g l :
  (forall i, i ∈ l -> f i = g i) -> sum_over f l = sum_over g l.
Proof.
  induction l as [|a l IH]; intros H; [reflexivity|].
  rewrite !sum_over_cons, (H a) by left. rewrite IH; [reflexivity|].
  intros i Hi. apply H. by right.
Qed.

Lemma sum_over_app f l1 l2 : sum_over f (l1 ++ l2) = sum_over f l1 + sum_over f l2.
Proof.
  induction l1 as [|a l IH]; [reflexivity|].
  rewrite <- app_comm_cons, !sum_over_cons, IH. lia.
Qed.

Lemma sum_over_update f g l i :
  NoDup l -> i ∈ l -> (forall j, j ∈ l -> j ≠ i -> g j = f j) ->
  sum_over g l + f i = sum_over f l + g i.
Proof.
  induction l as [|a l IH]; intros Hnd Hi Hsame.
  - inversion Hi.
  - apply NoDup_cons in Hnd as [Ha Hnd]. rewrite !sum_over_cons.
    destruct (decide (a = i)) as [->|Hne].
    + rewrite (sum_over_ext g f l); [lia|].
      intros j Hj. apply Hsame; [by right|]. intros ->. contradiction.
    + rewrite (Hsame a) by (auto; left).
      apply elem_of_cons in Hi as [->|Hi]; [contradiction|].
      assert (forall j, j ∈ l -> j ≠ i -> g j = f j) as Hs by (intros; apply Hsame; auto; by right).
      specialize (IH Hnd Hi Hs). lia.
Qed.

Lemma elem_of_milestone_ids s i :
  i ∈ milestone_ids s <-> 0 < i < nextMilestoneId s.
Proof.
  unfold milestone_ids. rewrite list_elem_of_fmap. split.
  - intros (k & -> & Hk). apply elem_of_seq in Hk. lia.
  - intros Hi. exists (N.to_nat i). split; [lia|]. apply elem_of_seq. lia.
Qed.

Lemma NoDup_milestone_ids s : NoDup (milestone_ids s).
Proof.
  unfold milestone_ids. apply NoDup_fmap_2; [|apply NoDup_seq].
  intros a b Hab. lia.
Qed.

Lemma milestone_ids_next s s' :
  1 <= nextMilestoneId s -> nextMilestoneId s' = nextMilestoneId s + 1 ->
  milestone_ids s' = milestone_ids s ++ [nextMilestoneId s].
Proof.
  intros H1 Hn. unfold milestone_ids. rewrite Hn.
  replace (N.to_nat (nextMilestoneId s + 1) - 1)%nat
    with (S (N.to_nat (nextMilestoneId s) - 1))%nat by lia.
  rewrite seq_S, fmap_app. simpl. do 2 f_equal. lia.
Qed.

Lemma milestone_ids_same s s' :
  nextMilestoneId s' = nextMilestoneId s -> milestone_ids s' = milestone_ids s.
Proof. unfold milestone_ids. intros ->. reflexivity. Qed.

(** *** The invariant of the ledger *)

Record Inv (s : State) : Prop := {
  inv_next : 1 <= nextMilestoneId s;
  inv_sum : totalDisbursed s = paid_total s;
  inv_balance : balance s + totalDisbursed s <= totalSubsidyPool s;
  inv_range : forall i, Milestone.paid (milestones s i) = true -> 0 < i < nextMilestoneId s;
  inv_status : forall i, Milestone.paid (milestones s i) = true ->
                 Milestone.status (milestones s i) ≠ MilestoneStatus.Pending
}.

Lemma init_Inv deployer : Inv (init deployer).
Proof. split; cbn; try lia; try discriminate; reflexivity. Qed.

Lemma effect_Inv e s s' : effect e s s' -> Inv s -> Inv s'.
Proof.
  intros Heff [Hnext Hsum Hbal Hrange Hstatus].
  destruct Heff as
    [Hms Hn Hd Hp Hb
    |Hms Hnew Hn Hd Hp Hb
    |i Hi Hms Hdl Hpaid Hamt Hst Hn Hd Hp Hb
    |i Hi Hms Hdl Hunpaid Hpaid Hst Hamt Hn Hd Hp Hb].
  - split; try lia.
    + rewrite Hd, Hsum. unfold paid_total. rewrite (milestone_ids_same _ _ Hn).
      apply sum_over_ext. intros j _. by rewrite Hms.
    + intros j. rewrite Hms, Hn. auto.
    + intros j. rewrite Hms. auto.
  - assert (Hold : forall j, Milestone.paid (milestones s' j) = true -> j ≠ nextMilestoneId s).
    { intros j Hj ->. congruence. }
    split; try lia.
    + rewrite Hd, Hsum. unfold paid_total. rewrite (milestone_ids_next s s') by auto.
      rewrite sum_over_app, sum_over_cons. unfold paid_amount at 3. rewrite Hnew.
      unfold sum_over at 3. simpl.
      rewrite (sum_over_ext (fun i => paid_amount (milestones s' i))
                (fun i => paid_amount (milestones s i)) (milestone_ids s)); [lia|].
      intros j Hj%elem_of_milestone_ids. rewrite Hms by lia. reflexivity.
    + intros j Hj. specialize (Hold j Hj). rewrite Hms in Hj by auto.
      apply Hrange in Hj. lia.
    + intros j Hj. specialize (Hold j Hj). rewrite Hms in * by auto. auto.
  - split; try lia.
    + rewrite Hd, Hsum. unfold paid_total. rewrite (milestone_ids_same _ _ Hn).
      apply sum_over_ext. intros j _. destruct (decide (j = i)) as [->|Hne].
      * unfold paid_amount. by rewrite Hpaid, Hamt.
      * by rewrite Hms.
    + intros j. rewrite Hn. destruct (decide (j = i)) as [->|Hne]; [auto|].
      rewrite Hms by auto. auto.
    + intros j. destruct (decide (j = i)) as [->|Hne]; [auto|].
      rewrite Hms by auto. auto.
  - assert (Hsumeq : paid_total s' + 0 = paid_total s + Milestone.subsidyAmount (milestones s i)).
    { unfold paid_total. rewrite (milestone_ids_same _ _ Hn).
      pose proof (sum_over_update (fun j => paid_amount (milestones s j))
                    (fun j => paid_amount (milestones s' j)) (milestone_ids s) i
                    (NoDup_milestone_ids s)) as Hu.
      cbv beta in Hu.
      assert (H0 : paid_amount (milestones s i) = 0)
        by (unfold paid_amount; by rewrite Hunpaid).
      assert (H1 : paid_amount (milestones s' i) = Milestone.subsidyAmount (milestones s i))
        by (unfold paid_amount; by rewrite Hpaid, Hamt).
      rewrite H0, H1 in Hu. apply Hu.
      - by apply elem_of_milestone_ids.
      - intros j _ Hne. by rewrite Hms. }
    split; try lia.
    + intros j. rewrite Hn. destruct (decide (j = i)) as [->|Hne]; [auto|].
      rewrite Hms by auto. auto.
    + intros j. destruct (decide (j = i)) as [->|Hne]; [rewrite Hst; discriminate|].
      rewrite Hms by auto. auto.
Qed.

Lemma step_Inv s tx : Inv s -> Inv (step s tx).
Proof.
  intros Hinv. unfold step. destruct (call tx.1 tx.2 s) as [s'|err] eqn:Hc; [|assumption].
  eapply effect_Inv; [|eassumption]. by eapply call_effect.
Qed.

Lemma fold_step_Inv txs s : Inv s -> Inv (fold_left step txs s).
Proof.
  revert s. induction txs as [|tx txs IH]; intros s Hs; simpl; [assumption|].
  apply IH. by apply step_Inv.
Qed.

Lemma run_Inv deployer txs : Inv (run deployer txs).
Proof. apply fold_step_Inv, init_Inv. Qed.

(** *** Steps of a run *)

Lemma step_effect s tx :
  step s tx = s \/ effect tx.1 s (step s tx).
Proof.
  unfold step. destruct (call tx.1 tx.2 s) as [s'|err] eqn:Hc; [right|by left].
  by apply (call_effect _ tx.2).
Qed.


Lemma step_paid_stays s tx i :
  Inv s ->
  Milestone.paid (milestones s i) = true ->
  Milestone.paid (milestones (step s tx) i) = true.
Proof.
  intros Hinv Hp. destruct (step_effect s tx) as [Heq|Heff].
  { by rewrite Heq. }
  destruct Heff as
    [Hms Hn Hd Hpool Hb
    |Hms Hnew Hn Hd Hpool Hb
    |i0 Hi Hms Hdl Hpaid Hamt Hst Hn Hd Hpool Hb
    |i0 Hi Hms Hdl Hunpaid Hpaid Hst Hamt Hn Hd Hpool Hb].
  - by rewrite Hms.
  - apply (inv_range _ Hinv) in Hp as Hr. rewrite Hms by lia. done.
  - destruct (decide (i = i0)) as [->|Hne]; [congruence|]. by rewrite Hms.
  - destruct (decide (i = i0)) as [->|Hne]; [congruence|]. by rewrite Hms.
Qed.

Lemma step_disbursed_mono s tx : totalDisbursed s <= totalDisbursed (step s tx).
Proof.
  destruct (step_effect s tx) as [Heq|Heff]; [rewrite Heq; lia|].
  destruct Heff; lia.
Qed.

(** *** Runs with forced ether

    Forced ether is in the balance and not in the pool.  The invariant holds
    of the ledger once the pool is credited with it. *)

Definition with_forced (f : uint256) (s : State) : State :=
  set_totalSubsidyPool (totalSubsidyPool s + f) s.

Lemma effect_with_forced f e s s' :
  effect e s s' -> effect e (with_forced f s) (with_forced f s').
Proof.
  intros Heff. destruct Heff as
    [Hms Hn Hd Hp Hb
    |Hms Hnew Hn Hd Hp Hb
    |i Hi Hms Hdl Hpaid Hamt Hst Hn Hd Hp Hb
    |i Hi Hms Hdl Hunpaid Hpaid Hst Hamt Hn Hd Hp Hb].
  - apply eff_funds; simpl; auto; lia.
  - apply eff_add; simpl; auto; lia.
  - apply (eff_status _ _ _ i); simpl; auto; lia.
  - apply (eff_pay _ _ _ i); simpl; auto; lia.
Qed.

Lemma move_Inv f s m :
  Inv (with_forced f s) -> Inv (with_forced (f + forced_total [m]) (move s m)).
Proof.
  intros Hinv. destruct m as [tx|amount]; simpl.
  - rewrite !N.add_0_r. destruct (step_effect s tx) as [->|Heff]; [assumption|].
    eapply effect_Inv; [|exact Hinv]. apply effect_with_forced. exact Heff.
  - rewrite N.add_0_r. destruct Hinv as [Hnext Hsum Hbal Hrange Hstatus].
    split; simpl in *; auto. lia.
Qed.

Lemma forced_total_cons m moves :
  forced_total (m :: moves) = forced_total [m] + forced_total moves.
Proof. destruct m; simpl; lia. Qed.

Lemma fold_move_Inv moves f s :
  Inv (with_forced f s) ->
  Inv (with_forced (f + forced_total moves) (fold_left move moves s)).
Proof.
  revert f s. induction moves as [|m moves IH]; intros f s Hs.
  - simpl. by rewrite N.add_0_r.
  - rewrite forced_total_cons, N.add_assoc. simpl fold_left. apply IH.
    by apply move_Inv.
Qed.

Lemma play_Inv deployer moves :
  Inv (with_forced (forced_total moves) (play deployer moves)).
Proof.
  unfold play.
  replace (forced_total moves) with (0 + forced_total moves) by lia.
  apply fold_move_Inv. split; cbn; try lia; try discriminate; reflexivity.
Qed.

(** A run without forced ether is a play. *)
Lemma play_run deployer txs :
  play deployer (Transact <$> txs) = run deployer txs
  /\ forced_total (Transact <$> txs) = 0.
Proof.
  unfold play, run. generalize (init deployer).
  induction txs as [|tx txs IH]; intros s; simpl; [auto|]. apply IH.
Qed.

(** A move that raises [paid] of a milestone is a transaction that pays it. *)
Lemma move_pays s m i :
  Milestone.paid (milestones s i) = false ->
  Milestone.paid (milestones (move s m) i) = true ->
  totalSubsidyPool (move s m) = totalSubsidyPool s
  /\ totalDisbursed (move s m) = totalDisbursed s + Milestone.subsidyAmount (milestones s i)
  /\ balance (move s m) + Milestone.subsidyAmount (milestones s i) = balance s.
Proof.
  intros Hu Hp. destruct m as [tx|amount]; simpl in *; [|congruence].
  destruct (step_effect s tx) as [Heq|Heff].
  { rewrite Heq in Hp. congruence. }
  destruct Heff as
    [Hms Hn Hd Hpool Hb
    |Hms Hnew Hn Hd Hpool Hb
    |i0 Hi Hms Hdl Hpaid Hamt Hst Hn Hd Hpool Hb
    |i0 Hi Hms Hdl Hunpaid Hpaid Hst Hamt Hn Hd Hpool Hb].
  - rewrite Hms in Hp. congruence.
  - destruct (decide (i = nextMilestoneId s)) as [->|Hne]; [congruence|].
    rewrite Hms in Hp by auto. congruence.
  - destruct (decide (i = i0)) as [->|Hne]; [congruence|].
    rewrite Hms in Hp by auto. congruence.
  - destruct (decide (i = i0)) as [->|Hne]; [auto|].
    rewrite Hms in Hp by auto. congruence.
Qed.

Lemma move_disbursed_mono s m : totalDisbursed s <= totalDisbursed (move s m).
Proof. destruct m as [tx|amount]; simpl; [apply step_disbursed_mono|lia]. Qed.

(** Closes a goal about concrete transactions by evaluating it. *)
Ltac evaluate :=
  vm_compute; repeat split; solve [reflexivity | discriminate | intros ?; discriminate].

(** C1 (as stated, refuted). With 10 units in the pool, 10 paid out and 10
    forced into the contract, the second milestone is paid from the forced
    ether: [totalDisbursed] is 20 against a pool of 10, and
    [getAvailableSubsidy] reverts. *)
Lemma forced_ether_counterexample :
  let s := play 1 forced_overdraft in
  totalSubsidyPool s = 10
  /\ totalDisbursed s = 20
  /\ ~ totalDisbursed s <= totalSubsidyPool s
  /\ Milestone.paid (milestones s 2) = true
  /\ getAvailableSubsidy s = Revert (Panic 17).
Proof. vm_compute. repeat split; try reflexivity. intros H. by apply H. Qed.

(** C1 (amended). Conservation of the fund pool, after any transactions and
    any ether forced into the contract: [totalDisbursed] is the sum of
    [subsidyAmount] over the paid milestones, and no move decreases it; the
    balance and [totalDisbursed] together do not exceed [totalSubsidyPool]
    plus the forced ether, so [totalDisbursed] stays within the pool as long
    as no ether is forced in.  A move that pays a milestone leaves the pool
    alone, raises [totalDisbursed] by exactly the milestone's [subsidyAmount]
    and lowers the balance by the same; the available subsidy
    ([getAvailableSubsidy]) goes down by exactly that amount when
    [totalDisbursed] stays within the pool, which it does without forced
    ether, and [getAvailableSubsidy] reverts when it does not. *)
Theorem conservation (deployer : address) (moves : list Move) :
  let s := play deployer moves in
  totalDisbursed s = paid_total s
  /\ balance s + totalDisbursed s <= totalSubsidyPool s + forced_total moves
  /\ (forced_total moves = 0 -> totalDisbursed s <= totalSubsidyPool s)
  /\ (forall m, totalDisbursed s <= totalDisbursed (move s m))
  /\ (forall m i,
        Milestone.paid (milestones s i) = false ->
        Milestone.paid (milestones (move s m) i) = true ->
        let amount := Milestone.subsidyAmount (milestones s i) in
        totalSubsidyPool (move s m) = totalSubsidyPool s
        /\ totalDisbursed (move s m) = totalDisbursed s + amount
        /\ balance (move s m) + amount = balance s
        /\ (totalDisbursed s + amount <= totalSubsidyPool s ->
            exists available,
              getAvailableSubsidy s = Ok available
              /\ amount <= available
              /\ getAvailableSubsidy (move s m) = Ok (available - amount))
        /\ (totalSubsidyPool s < totalDisbursed s + amount ->
            getAvailableSubsidy (move s m) = Revert (Panic 17))
        /\ (forced_total moves = 0 -> totalDisbursed s + amount <= totalSubsidyPool s)).
Proof.
  intros s. destruct (play_Inv deployer moves) as [_ Hsum Hbal _ _].
  fold s in Hsum, Hbal. simpl in Hbal.
  split; [exact Hsum|]. split; [exact Hbal|]. split; [lia|].
  split; [apply move_disbursed_mono|].
  intros m i Hu Hp amount. subst amount.
  destruct (move_pays s m i Hu Hp) as (Hpool & Hd & Hb).
  split; [exact Hpool|]. split; [exact Hd|]. split; [exact Hb|].
  unfold getAvailableSubsidy, checked_sub. rewrite Hpool, Hd.
  split; [|split].
  - intros Hfit. exists (totalSubsidyPool s - totalDisbursed s).
    rewrite !bool_decide_true by lia. repeat split; [lia|]. f_equal. lia.
  - intros Hover. by rewrite bool_decide_false by lia.
  - lia.
Qed.

Lemma trace_head s txs : exists tl, trace s txs = s :: tl.
Proof. destruct txs; simpl; eauto. Qed.

Lemma rises_cons a b l :
  rises (a :: b :: l) = ((if negb a && b then 1 else 0) + rises (b :: l))%nat.
Proof. reflexivity. Qed.

Lemma rises_trace i txs s :
  Inv s ->
  (rises ((fun st => Milestone.paid (milestones st i)) <$> trace s txs)
   <= if Milestone.paid (milestones s i) then 0 else 1)%nat.
Proof.
  revert s. induction txs as [|tx txs IH]; intros s Hinv.
  - simpl. lia.
  - specialize (IH (step s tx) (step_Inv s tx Hinv)).
    cbn [trace]. destruct (trace_head (step s tx) txs) as [tl Htl].
    rewrite Htl in *. rewrite !fmap_cons in *. rewrite rises_cons.
    destruct (Milestone.paid (milestones s i)) eqn:Hp.
    + rewrite (step_paid_stays s tx i Hinv Hp) in *.
      set (r := rises _) in *. simpl. lia.
    + destruct (Milestone.paid (milestones (step s tx) i)) eqn:Hq;
        rewrite ?Hq in IH; set (r := rises _) in *; simpl; lia.
Qed.

(** C2. At-most-once payment: along any run the [paid] flag of a milestone
    goes from [false] to [true] at most once, no transaction resets it, and an
    approving [resolveDispute] on a milestone that is already paid makes it
    Verified without touching the funds, the project or the event log. *)
Theorem paid_at_most_once (deployer : address) (txs : list (Env * Call)) (i : uint256) :
  let s := run deployer txs in
  (rises ((fun st => Milestone.paid (milestones st i)) <$> trace (init deployer) txs) <= 1)%nat
  /\ (forall tx, Milestone.paid (milestones s i) = true ->
                 Milestone.paid (milestones (step s tx) i) = true)
  /\ (forall e,
        let s' := step s (e, ResolveDispute i true) in
        Milestone.paid (milestones s i) = true ->
        is_ok (call e (ResolveDispute i true) s) = true ->
        Milestone.paid (milestones s' i) = true
        /\ Milestone.status (milestones s' i) = MilestoneStatus.Verified
        /\ totalDisbursed s' = totalDisbursed s
        /\ balance s' = balance s
        /\ projects s' = projects s
        /\ events s' = events s).
Proof.
  intros s. pose proof (run_Inv deployer txs) as Hinv. fold s in Hinv.
  split; [|split].
  - pose proof (rises_trace i txs (init deployer) (init_Inv deployer)) as H.
    destruct (Milestone.paid _) in H; lia.
  - intros tx. by apply step_paid_stays.
  - intros e s' Hp. unfold s', step. cbn [fst snd].
    destruct (call e (ResolveDispute i true) s) as [s1|err] eqn:Hc; [intros _|discriminate].
    revert Hc. unfold call. simpl.
    destruct (bool_decide (0 < value e)) eqn:Hv; [discriminate|].
    apply bool_decide_eq_false in Hv.
    unfold resolveDispute, onlyAuditor. intros H. inv_calls. simpl in *.
    rewrite fn_lookup_insert in *. simpl in *. rewrite Hp in *. simpl in *.
    inv_calls. subst s1. simpl. rewrite fn_lookup_insert. simpl.
    repeat split; auto. lia.
Qed.

Lemma paid_at_most_once_witness :
  let s := run 1 paid_then_disputed in
  let s' := step s (auditor, ResolveDispute 1 true) in
  Milestone.paid (milestones s' 1) = true
  /\ Milestone.status (milestones s' 1) = MilestoneStatus.Verified
  /\ totalDisbursed s' = totalDisbursed s
  /\ balance s' = balance s
  /\ projects s' = projects s
  /\ events s' = events s.
Proof.
  destruct (paid_at_most_once 1 paid_then_disputed 1) as (_ & _ & H).
  apply (H auditor); vm_compute; reflexivity.
Defined.




(** *** A verification that cannot be paid *)

(** C4 (as stated, refuted). The pool cannot cover milestone 2; its successful
    verification reverts and the milestone is Pending afterwards, not Verified. *)
Lemma unpaid_verification_counterexample :
  let s := run 1 pool_exhausted in
  getAvailableSubsidy s = Ok 0
  /\ Milestone.subsidyAmount (milestones s 2) = 10
  /\ call oracle (VerifyMilestone 2 1500 true) s
     = Revert (Error "Insufficient contract balance")
  /\ Milestone.status (milestones (step s (oracle, VerifyMilestone 2 1500 true)) 2)
     = MilestoneStatus.Pending.
Proof. vm_compute. repeat split; reflexivity. Qed.

(** *** Running a call forward *)

Lemma require_true (cond : bool) (reason : string) :
  cond = true -> require cond reason = Ok tt.
Proof. intros ->. reflexivity. Qed.

Lemma require_false (cond : bool) (reason : string) :
  cond = false -> require cond reason = Revert (Error reason).
Proof. intros ->. reflexivity. Qed.

Lemma milestoneExists_true i s :
  0 < i < nextMilestoneId s -> milestoneExists i s = Ok tt.
Proof.
  intros [H1 H2]. unfold milestoneExists. apply require_true.
  by rewrite !bool_decide_true.
Qed.

Lemma processMilestonePayment_short e i t :
  Milestone.status (milestones t i) = MilestoneStatus.Verified ->
  Milestone.paid (milestones t i) = false ->
  Project.status (projects t (Milestone.projectId (milestones t i))) = ProjectStatus.Active ->
  balance t < Milestone.subsidyAmount (milestones t i) ->
  _processMilestonePayment e i t = Revert (Error "Insufficient contract balance").
Proof.
  intros Hst Hp Hact Hlt. unfold _processMilestonePayment.
  rewrite (require_true _ _ (bool_decide_eq_true_2 _ Hst)). simpl.
  rewrite Hp. simpl.
  rewrite (require_true _ _ (bool_decide_eq_true_2 _ Hact)). simpl.
  rewrite require_false; [reflexivity|]. apply bool_decide_eq_false_2. lia.
Qed.

(** The state in which [verifyMilestone] starts the payment. *)
Definition verified_state (e : Env) (i actual : uint256) (s : State) : State :=
  upd_milestone i (Milestone.set_status MilestoneStatus.Verified)
    (upd_milestone i (Milestone.set_verifiedBy (sender e))
       (upd_milestone i (Milestone.set_verifiedAt (timestamp e))
          (upd_milestone i (Milestone.set_actualValue actual) s))).

Lemma verified_state_milestone e i actual s :
  milestones (verified_state e i actual s) i
  = Milestone.set_status MilestoneStatus.Verified
      (Milestone.set_verifiedBy (sender e)
         (Milestone.set_verifiedAt (timestamp e)
            (Milestone.set_actualValue actual (milestones s i)))).
Proof. unfold verified_state. simpl. by rewrite !fn_lookup_insert. Qed.

Lemma verifyMilestone_meets_target e i actual s :
  0 < i < nextMilestoneId s ->
  hasRole ORACLE_ROLE (sender e) s || hasRole AUDITOR_ROLE (sender e) s = true ->
  Milestone.status (milestones s i) = MilestoneStatus.Pending ->
  timestamp e <= Milestone.deadline (milestones s i) ->
  Milestone.targetValue (milestones s i) <= actual ->
  verifyMilestone e i actual true s
  = (_processMilestonePayment e i (verified_state e i actual s)
     ≫= fun s' => Ok (emit (MilestoneVerified i actual (sender e)) s')).
Proof.
  intros Hi Hrole Hst Hdl Htarget. unfold verifyMilestone.
  rewrite milestoneExists_true by exact Hi. simpl.
  rewrite Hrole. simpl.
  rewrite (require_true _ _ (bool_decide_eq_true_2 _ Hst)). simpl.
  rewrite (require_true _ _ (bool_decide_eq_true_2 _ Hdl)). simpl.
  rewrite !fn_lookup_insert. simpl.
  rewrite (bool_decide_eq_true_2 _ Htarget). reflexivity.
Qed.

Lemma processMilestonePayment_returns e i s :
  is_ok (_processMilestonePayment e i s) = true
  <-> Milestone.status (milestones s i) = MilestoneStatus.Verified
      /\ Milestone.paid (milestones s i) = false
      /\ Project.status (projects s (Milestone.projectId (milestones s i)))
         = ProjectStatus.Active
      /\ Milestone.subsidyAmount (milestones s i) <= balance s
      /\ Project.disbursedAmount (projects s (Milestone.projectId (milestones s i)))
         + Milestone.subsidyAmount (milestones s i) <= MAX_UINT256
      /\ totalDisbursed s + Milestone.subsidyAmount (milestones s i) <= MAX_UINT256
      /\ accepts e (Project.producer (projects s (Milestone.projectId (milestones s i))))
         = true.
Proof.
  unfold _processMilestonePayment, require, checked_add, transfer. simpl.
  set (pid := Milestone.projectId (milestones s i)).
  set (amount := Milestone.subsidyAmount (milestones s i)).
  destruct (bool_decide (Milestone.status (milestones s i) = MilestoneStatus.Verified))
    eqn:H0; simpl.
  2: { apply bool_decide_eq_false in H0. split; [discriminate|tauto]. }
  destruct (Milestone.paid (milestones s i)) eqn:Hpaid; simpl.
  1: { split; [discriminate|]. intros (_ & Hx & _). discriminate. }
  destruct (bool_decide (Project.status (projects s pid) = ProjectStatus.Active)) eqn:H1;
    simpl.
  2: { apply bool_decide_eq_false in H1. split; [discriminate|tauto]. }
  destruct (bool_decide (amount <= balance s)) eqn:H2; simpl.
  2: { apply bool_decide_eq_false in H2. split; [discriminate|tauto]. }
  destruct (bool_decide (Project.disbursedAmount (projects s pid) + amount <= MAX_UINT256))
    eqn:H3; simpl.
  2: { apply bool_decide_eq_false in H3. split; [discriminate|tauto]. }
  destruct (bool_decide (totalDisbursed s + amount <= MAX_UINT256)) eqn:H4; simpl.
  2: { apply bool_decide_eq_false in H4. split; [discriminate|tauto]. }
  rewrite !fn_lookup_insert. simpl.
  destruct (accepts e (Project.producer (projects s pid))) eqn:H5; simpl.
  2: { split; [discriminate|]. intros (_ & _ & _ & _ & _ & _ & Hx). discriminate. }
  apply bool_decide_eq_true in H0, H1, H2, H3, H4. tauto.
Qed.

Lemma processMilestonePayment_inactive e i t :
  Milestone.status (milestones t i) = MilestoneStatus.Verified ->
  Milestone.paid (milestones t i) = false ->
  Project.status (projects t (Milestone.projectId (milestones t i))) ≠ ProjectStatus.Active ->
  _processMilestonePayment e i t = Revert (Error "Project not active").
Proof.
  intros Hst Hp Hact. unfold _processMilestonePayment.
  rewrite (require_true _ _ (bool_decide_eq_true_2 _ Hst)). simpl.
  rewrite Hp. simpl.
  by rewrite (require_false _ _ (bool_decide_eq_false_2 _ Hact)).
Qed.

(** C4 (amended). A verification that meets the target before the deadline
    sets the milestone Verified and pays it in the same transaction, or
    reverts as a whole.  It returns exactly when the project is Active, the
    contract's balance covers the milestone's [subsidyAmount], the producer
    takes the transfer and no counter overflows; the milestone is then
    Verified and paid.  Otherwise it reverts, with "Project not active" when
    the project is not Active and with "Insufficient contract balance" when
    the project is Active and the balance is short, and the transaction
    changes nothing: the milestone stays Pending and unpaid, never Verified
    and unpaid, and the same call can be made again. *)
Theorem verification_and_payment_together (deployer : address) (moves : list Move)
    (e : Env) (i actual : uint256) :
  let s := play deployer moves in
  let m := milestones s i in
  let p := projects s (Milestone.projectId m) in
  let amount := Milestone.subsidyAmount m in
  let tx := (e, VerifyMilestone i actual true) in
  value e = 0 ->
  0 < i < nextMilestoneId s ->
  hasRole ORACLE_ROLE (sender e) s || hasRole AUDITOR_ROLE (sender e) s = true ->
  Milestone.status m = MilestoneStatus.Pending ->
  timestamp e <= Milestone.deadline m ->
  Milestone.targetValue m <= actual ->
  (is_ok (call e (VerifyMilestone i actual true) s) = true
   <-> Project.status p = ProjectStatus.Active
       /\ amount <= balance s
       /\ accepts e (Project.producer p) = true
       /\ Project.disbursedAmount p + amount <= MAX_UINT256
       /\ totalDisbursed s + amount <= MAX_UINT256)
  /\ (is_ok (call e (VerifyMilestone i actual true) s) = true ->
      Milestone.status (milestones (step s tx) i) = MilestoneStatus.Verified
      /\ Milestone.paid (milestones (step s tx) i) = true
      /\ totalDisbursed (step s tx) = totalDisbursed s + amount
      /\ balance (step s tx) + amount = balance s)
  /\ (is_ok (call e (VerifyMilestone i actual true) s) = false ->
      step s tx = s
      /\ Milestone.status (milestones (step s tx) i) = MilestoneStatus.Pending
      /\ Milestone.paid (milestones (step s tx) i) = false)
  /\ (Project.status p ≠ ProjectStatus.Active ->
      call e (VerifyMilestone i actual true) s = Revert (Error "Project not active"))
  /\ (Project.status p = ProjectStatus.Active -> balance s < amount ->
      call e (VerifyMilestone i actual true) s
      = Revert (Error "Insufficient contract balance")).
Proof.
  intros s m p amount tx Hv Hi Hrole Hst Hdl Htarget. subst m p amount tx.
  assert (Hunpaid : Milestone.paid (milestones s i) = false).
  { destruct (play_Inv deployer moves) as [_ _ _ _ Hstatus]. fold s in Hstatus.
    destruct (Milestone.paid (milestones s i)) eqn:Hp; [|reflexivity].
    by destruct (Hstatus i Hp). }
  set (s0 := set_balance (balance s + 0) s).
  assert (Hcall : call e (VerifyMilestone i actual true) s
                  = (_processMilestonePayment e i (verified_state e i actual s0)
                     ≫= fun s' => Ok (emit (MilestoneVerified i actual (sender e)) s'))).
  { unfold call. rewrite Hv. simpl. fold s0.
    by apply verifyMilestone_meets_target. }
  set (t := verified_state e i actual s0) in *.
  assert (Hmt : milestones t i
                = Milestone.set_status MilestoneStatus.Verified
                    (Milestone.set_verifiedBy (sender e)
                       (Milestone.set_verifiedAt (timestamp e)
                          (Milestone.set_actualValue actual (milestones s i)))))
    by (unfold t; rewrite verified_state_milestone; reflexivity).
  assert (Hbt : balance t = balance s) by (simpl; lia).
  assert (Hpt : projects t = projects s) by reflexivity.
  assert (Hdt : totalDisbursed t = totalDisbursed s) by reflexivity.
  assert (Hok : is_ok (call e (VerifyMilestone i actual true) s)
                = is_ok (_processMilestonePayment e i t)).
  { rewrite Hcall. by destruct (_processMilestonePayment e i t). }
  pose proof (processMilestonePayment_returns e i t) as Hiff.
  rewrite Hmt, Hpt, Hbt, Hdt in Hiff. simpl in Hiff.
  unfold step. cbn [fst snd]. rewrite Hok.
  split; [|split; [|split; [|split]]].
  - rewrite Hiff. tauto.
  - intros Hpay. destruct (_processMilestonePayment e i t) as [t'|err] eqn:Ht';
      [|discriminate].
    rewrite Hcall. simpl.
    apply processMilestonePayment_Ok in Ht' as (_ & _ & Hms & _ & _ & Htot & Hbal).
    rewrite Hms, fn_lookup_insert, Htot, Hmt, Hdt. simpl.
    rewrite Hmt, Hbt in Hbal. simpl in Hbal. auto.
  - intros Hfail. destruct (_processMilestonePayment e i t) as [t'|err] eqn:Ht';
      [discriminate|].
    rewrite Hcall. simpl. auto.
  - intros Hact. rewrite Hcall, processMilestonePayment_inactive;
      rewrite ?Hmt; simpl; auto.
  - intros Hact Hshort. rewrite Hcall, processMilestonePayment_short;
      rewrite ?Hmt; simpl; auto; lia.
Qed.

Lemma verification_and_payment_together_witness :
  call oracle (VerifyMilestone 2 1500 true) (play 1 (Transact <$> pool_exhausted))
  = Revert (Error "Insufficient contract balance")
  /\ call oracle (VerifyMilestone 1 1500 true) (play 1 (Transact <$> suspended))
     = Revert (Error "Project not active").
Proof.
  split.
  - refine (proj2 (proj2 (proj2 (proj2
              (verification_and_payment_together 1 (Transact <$> pool_exhausted)
                 oracle 2 1500 _ _ _ _ _ _)))) _ _); evaluate.
  - refine (proj1 (proj2 (proj2 (proj2
              (verification_and_payment_together 1 (Transact <$> suspended)
                 oracle 1 1500 _ _ _ _ _ _)))) _); evaluate.
Defined.

(** *** A budget that is exceeded *)

(** C5 (defect of the code). Both milestones are paid and the project has
    disbursed 10 against a total subsidy of 5: the payment does not compare
    [disbursedAmount + subsidyAmount] with [totalSubsidyAmount], and the check
    of [addMilestone] ("Exceeds project subsidy limit") counts only what is
    already disbursed. *)
Lemma budget_exceeded :
  let s := run 1 overcommitted in
  Milestone.paid (milestones s 1) = true
  /\ Milestone.paid (milestones s 2) = true
  /\ Project.totalSubsidyAmount (projects s 1) = 5
  /\ Project.disbursedAmount (projects s 1) = 10.
Proof. evaluate. Qed.

(** *** Verification after the deadline *)

Lemma verifyMilestone_expired e i actual success s :
  0 < i < nextMilestoneId s ->
  Milestone.status (milestones s i) = MilestoneStatus.Pending ->
  Milestone.deadline (milestones s i) < timestamp e ->
  verifyMilestone e i actual success s
  = if hasRole ORACLE_ROLE (sender e) s || hasRole AUDITOR_ROLE (sender e) s
    then Revert (Error "Milestone deadline passed")
    else Revert (Error "Unauthorized verifier").
Proof.
  intros Hi Hst Hdl. unfold verifyMilestone.
  rewrite milestoneExists_true by exact Hi. simpl.
  destruct (hasRole ORACLE_ROLE (sender e) s || hasRole AUDITOR_ROLE (sender e) s);
    [|reflexivity].
  simpl. rewrite (require_true _ _ (bool_decide_eq_true_2 _ Hst)). simpl.
  rewrite require_false; [reflexivity|]. apply bool_decide_eq_false_2. lia.
Qed.

(** C9. A Pending milestone whose deadline has passed: every verification
    attempt fails, with "Milestone deadline passed" when it comes from an
    oracle or auditor, and leaves the state as it was; and no transaction at
    all of that time changes the milestone, so it is never moved to Failed. *)
Theorem expired_milestone_stays_pending (e : Env) (i : uint256) (s : State) :
  0 < i < nextMilestoneId s ->
  Milestone.status (milestones s i) = MilestoneStatus.Pending ->
  Milestone.deadline (milestones s i) < timestamp e ->
  (forall actual success,
     is_ok (call e (VerifyMilestone i actual success) s) = false
     /\ step s (e, VerifyMilestone i actual success) = s
     /\ (value e = 0 ->
         hasRole ORACLE_ROLE (sender e) s || hasRole AUDITOR_ROLE (sender e) s = true ->
         call e (VerifyMilestone i actual success) s
         = Revert (Error "Milestone deadline passed")))
  /\ (forall c, milestones (step s (e, c)) i = milestones s i).
Proof.
  intros Hi Hst Hdl. split.
  - intros actual success.
    assert (Hcall : call e (VerifyMilestone i actual success) s
                    = if bool_decide (0 < value e) then Revert NotPayable
                      else if hasRole ORACLE_ROLE (sender e) s
                              || hasRole AUDITOR_ROLE (sender e) s
                           then Revert (Error "Milestone deadline passed")
                           else Revert (Error "Unauthorized verifier")).
    { unfold call. simpl. destruct (bool_decide (0 < value e)); [reflexivity|].
      by rewrite verifyMilestone_expired. }
    unfold step. cbn [fst snd]. rewrite Hcall.
    destruct (bool_decide (0 < value e)) eqn:Hv;
      [|destruct (hasRole ORACLE_ROLE (sender e) s || hasRole AUDITOR_ROLE (sender e) s)];
      repeat split; try reflexivity; try discriminate.
    intros Hz. apply bool_decide_eq_true in Hv. lia.
  - intros c. destruct (step_effect s (e, c)) as [Heq|Heff]; [by rewrite Heq|].
    cbn [fst] in Heff.
    destruct Heff as
      [Hms Hn Hd Hpool Hb
      |Hms Hnew Hn Hd Hpool Hb
      |i0 Hi0 Hms Hdl0 Hpaid Hamt Hst0 Hn Hd Hpool Hb
      |i0 Hi0 Hms Hdl0 Hunpaid Hpaid Hst0 Hamt Hn Hd Hpool Hb].
    + apply Hms.
    + apply Hms. lia.
    + destruct (decide (i = i0)) as [->|Hne]; [|by apply Hms].
      specialize (Hdl0 Hst). lia.
    + destruct (decide (i = i0)) as [->|Hne]; [|by apply Hms].
      specialize (Hdl0 Hst). lia.
Qed.

Lemma expired_milestone_stays_pending_witness :
  let s := run 1 setup in
  let late := mkEnv 3 0 2000 everyone in
  call late (VerifyMilestone 1 1500 true) s = Revert (Error "Milestone deadline passed")
  /\ milestones (step s (late, VerifyMilestone 1 1500 true)) 1 = milestones s 1.
Proof.
  intros s late.
  destruct (expired_milestone_stays_pending late 1 s) as [H1 H2]; [evaluate..|].
  split; [|apply H2].
  apply H1; evaluate.
Defined.

(** *** Funding the pool *)

(** C10. The receive function takes value from any sender: whatever the
    sender's roles, as long as the pool stays within [uint256] the call
    returns, adds the value to [totalSubsidyPool] (and to the balance) and
    emits [FundsAdded]; the same sender calling [addFunds] without the
    government role is turned away. *)
Theorem receive_grows_pool (e : Env) (s : State) :
  totalSubsidyPool s + value e <= MAX_UINT256 ->
  let s' := step s (e, Receive) in
  is_ok (call e Receive s) = true
  /\ totalSubsidyPool s' = totalSubsidyPool s + value e
  /\ balance s' = balance s + value e
  /\ events s' = events s ++ [FundsAdded (value e) (totalSubsidyPool s + value e)]
  /\ (hasRole GOVERNMENT_ROLE (sender e) s = false ->
      call e AddFunds s = Revert (Error "Only government can perform this action")).
Proof.
  intros Hfits s'. unfold s', step, call. cbn [fst snd payable negb andb].
  unfold receive. cbn [totalSubsidyPool set_balance].
  rewrite (checked_add_fits _ _ Hfits). simpl. repeat split.
  intros Hrole. unfold addFunds, onlyGovernment, hasRole in *. simpl. by rewrite Hrole.
Qed.

Lemma receive_grows_pool_witness :
  let s := init 1 in
  let stranger := mkEnv 5 7 100 everyone in
  hasRole GOVERNMENT_ROLE 5 s = false
  /\ totalSubsidyPool (step s (stranger, Receive)) = 7
  /\ call stranger AddFunds s = Revert (Error "Only government can perform this action").
Proof.
  intros s stranger.
  destruct (receive_grows_pool stranger s) as (_ & Hpool & _ & _ & Hgate); [evaluate|].
  split; [reflexivity|]. split; [exact Hpool|]. apply Hgate. reflexivity.
Defined.

(** *** Pausing the ledger *)

(** C6 (defect of the code). The ledger is paused and [registerProject]
    returns all the same, registering the project: the function carries no
    [whenNotPaused].  The test "Should pause and unpause contract" expects the
    call to revert with "Pausable: paused", as [submitData] of the oracle does
    (see [paused_oracle]). *)
Lemma registration_ignores_pause :
  let s := run 1 paused_ledger in
  paused s = true
  /\ is_ok (call government (RegisterProject 4 "Test" "Test" 1) s) = true
  /\ nextProjectId (step s (government, RegisterProject 4 "Test" "Test" 1)) = 2.
Proof. evaluate. Qed.

End SubsidyProperties.

(** ** The data oracle *)

Module OracleProperties.
Import DataOracle OracleScenarios.

(** *** The query and the aggregate *)

Lemma inRange_spec (dp : DataPoint.t) (a b : uint256) :
  inRange dp a b = true
  <-> DataPoint.isVerified dp = true /\ a <= DataPoint.timestamp dp <= b.
Proof.
  unfold inRange. rewrite !andb_true_iff, !bool_decide_eq_true. tauto.
Qed.

Section Query.

Variables (dps : bytes32 -> DataPoint.t) (a b : uint256).

Let P (dataId : bytes32) : Prop :=
  DataPoint.isVerified (dps dataId) = true /\ a <= DataPoint.timestamp (dps dataId) <= b.

Lemma countValid_filter (l : list bytes32) (n : nat) :
  countValid dps a b l n = (n + length (filter P l))%nat.
Proof.
  revert n. induction l as [|d l IH]; intros n; simpl; [lia|].
  destruct (inRange (dps d) a b) eqn:Hd.
  - rewrite filter_cons_True by (by apply inRange_spec). rewrite IH. simpl. lia.
  - rewrite filter_cons_False; [apply IH|].
    intros HP. apply inRange_spec in HP. congruence.
Qed.

(** The second loop fills the arrays from the left: with [index] slots written
    and as many free slots as there are valid points left, it ends with every
    slot written, in the order of the history. *)
Lemma fillValid_filter (l : list bytes32) (ids : list bytes32) (vals : list uint256) :
  length ids = length vals ->
  fillValid dps a b l
            (ids ++ replicate (length (filter P l)) 0)
            (vals ++ replicate (length (filter P l)) 0) (length ids)
  = Ok (ids ++ filter P l, vals ++ ((fun d => DataPoint.value (dps d)) <$> filter P l)).
Proof.
  revert ids vals. induction l as [|d l IH]; intros ids vals Hlen; simpl.
  - reflexivity.
  - destruct (inRange (dps d) a b) eqn:Hd.
    + rewrite filter_cons_True by (by apply inRange_spec).
      simpl length. rewrite !replicate_S.
      assert (Hi : (length ids <? length (ids ++ 0%N :: replicate (length (filter P l)) 0%N))%nat
                   = true) by (apply Nat.ltb_lt; rewrite length_app; simpl; lia).
      assert (Hv : (length ids <? length (vals ++ 0%N :: replicate (length (filter P l)) 0%N))%nat
                   = true) by (apply Nat.ltb_lt; rewrite length_app; simpl; lia).
      rewrite Hi, Hv. simpl.
      replace (length ids) with (length ids + 0)%nat at 1 by lia.
      rewrite insert_app_r. rewrite Hlen at 1.
      replace (length vals) with (length vals + 0)%nat at 1 by lia.
      rewrite insert_app_r. simpl.
      specialize (IH (ids ++ [d]) (vals ++ [DataPoint.value (dps d)])).
      rewrite !length_app in IH. simpl in IH.
      rewrite <- !app_assoc in IH. simpl in IH.
      replace (S (length ids)) with (length ids + 1)%nat by lia.
      rewrite IH by lia. reflexivity.
    + rewrite filter_cons_False; [by apply IH|].
      intros HP. apply inRange_spec in HP. congruence.
Qed.

End Query.

Lemma getVerifiedData_filter (src : string) (a b : uint256) (s : State) :
  getVerifiedData src a b s
  = Ok (verifiedInRange src a b s,
        (fun d => DataPoint.value (dataPoints s d)) <$> verifiedInRange src a b s).
Proof.
  unfold getVerifiedData. rewrite countValid_filter. simpl.
  apply (fillValid_filter (dataPoints s) a b (sourceDataHistory s src) [] []).
  reflexivity.
Qed.

Lemma sumN_cons (v : uint256) (l : list uint256) : sumN (v :: l) = v + sumN l.
Proof. reflexivity. Qed.

Lemma sumValues_sum (l : list uint256) (acc : uint256) :
  acc <= MAX_UINT256 ->
  sumValues l acc
  = if bool_decide (acc + sumN l <= MAX_UINT256) then Ok (acc + sumN l) else Revert (Panic 17).
Proof.
  revert acc. induction l as [|v l IH]; intros acc Hacc.
  - simpl. change (sumN []) with 0. rewrite N.add_0_r, bool_decide_true by exact Hacc.
    reflexivity.
  - cbn [sumValues]. rewrite sumN_cons. unfold checked_add.
    destruct (bool_decide (acc + v <= MAX_UINT256)) eqn:Hv.
    + apply bool_decide_eq_true in Hv. simpl. rewrite IH by exact Hv.
      rewrite N.add_assoc. reflexivity.
    + apply bool_decide_eq_false in Hv. simpl. rewrite bool_decide_false by lia.
      reflexivity.
Qed.

Lemma getAggregateValue_sum (src : string) (a b : uint256) (s : State) :
  let values := (fun d => DataPoint.value (dataPoints s d)) <$> verifiedInRange src a b s in
  getAggregateValue src a b s
  = if bool_decide (sumN values <= MAX_UINT256)
    then Ok (sumN values, N.of_nat (length (verifiedInRange src a b s)))
    else Revert (Panic 17).
Proof.
  intros values. unfold getAggregateValue. rewrite getVerifiedData_filter. simpl.
  fold values. rewrite sumValues_sum by (vm_compute; discriminate).
  rewrite N.add_0_l. destruct (bool_decide _); reflexivity.
Qed.

(** C8 (amended). [getVerifiedData] returns exactly the identifiers of the
    source's history whose data point is verified with a timestamp in
    [[fromTime, toTime]], in the order of the history, with their values; it
    is a function of the state and changes none.  [getAggregateValue] returns
    the sum of these values and their number when the sum fits in [uint256],
    and reverts with the overflow panic otherwise. *)
Theorem query_and_aggregate (src : string) (fromTime toTime : uint256) (s : State) :
  let ids := verifiedInRange src fromTime toTime s in
  let values := (fun d => DataPoint.value (dataPoints s d)) <$> ids in
  getVerifiedData src fromTime toTime s = Ok (ids, values)
  /\ getAggregateValue src fromTime toTime s
     = if bool_decide (sumN values <= MAX_UINT256)
       then Ok (sumN values, N.of_nat (length ids))
       else Revert (Panic 17).
Proof.
  intros ids values. split; [apply getVerifiedData_filter|apply getAggregateValue_sum].
Qed.

(** *** What a call of the oracle does to the data points and histories *)

Ltac inv_oracle :=
  repeat match goal with
  | H : _ ≫= _ = Ok _ |- _ => apply bind_Ok in H as (? & ? & ?)
  | H : _ <$> _ = Ok _ |- _ => apply fmap_Ok in H as (? & ? & ?)
  | H : require _ _ = Ok _ |- _ => apply require_Ok in H
  | H : Ok _ = Ok _ |- _ => injection H as H
  | H : Revert _ = Ok _ |- _ => discriminate H
  | H : (if ?b then Ok _ else Revert _) = Ok _ |- _ =>
      let Hb := fresh "Hb" in destruct b eqn:Hb; [|discriminate H]
  end.

Section Oracle.

Variable keccak256 : list Byte.byte -> bytes32.

Lemma submitData_Ok e src v md s s' dataId :
  submitData keccak256 e src v md s = Ok (s', dataId) ->
  dataId = keccak256 (encodePacked src v (timestamp e) (sender e))
  /\ dataPoints s' dataId
     = DataPoint.mk v (timestamp e) src (sourceTypes s src) (sender e) false md
  /\ (forall d, d ≠ dataId -> dataPoints s' d = dataPoints s d)
  /\ sourceDataHistory s' src = sourceDataHistory s src ++ [dataId]
  /\ (forall src', src' ≠ src -> sourceDataHistory s' src' = sourceDataHistory s src').
Proof.
  unfold submitData, onlyRole, onlyTrustedSource, whenNotPaused. intros H. inv_oracle.
  subst. simpl. rewrite !fn_lookup_insert. repeat split; auto.
  - intros d Hd. by rewrite fn_lookup_insert_ne.
  - intros src' Hs. by rewrite fn_lookup_insert_ne.
Qed.

Lemma submitData_runs e src v md s :
  hasRole DATA_PROVIDER_ROLE (sender e) s = true ->
  trustedSources s src = true ->
  paused s = false ->
  exists s', submitData keccak256 e src v md s
             = Ok (s', keccak256 (encodePacked src v (timestamp e) (sender e))).
Proof.
  intros Hr Ht Hp. unfold submitData, onlyRole, onlyTrustedSource, whenNotPaused.
  rewrite Hr, Ht, Hp. simpl. eauto.
Qed.

Lemma grantRole_keeps e r a s :
  dataPoints (_grantRole e r a s) = dataPoints s
  /\ sourceDataHistory (_grantRole e r a s) = sourceDataHistory s.
Proof. unfold _grantRole. destruct (hasRole r a s); auto. Qed.

Lemma revokeRole_keeps e r a s :
  dataPoints (_revokeRole e r a s) = dataPoints s
  /\ sourceDataHistory (_revokeRole e r a s) = sourceDataHistory s.
Proof. unfold _revokeRole. destruct (hasRole r a s); auto. Qed.

(** A call that is not a submission leaves every history alone and changes
    neither value nor timestamp of a data point. *)
Lemma call_keeps e c s s' :
  submission (e, c) = None ->
  call keccak256 e c s = Ok s' ->
  (forall src, sourceDataHistory s' src = sourceDataHistory s src)
  /\ (forall d, DataPoint.timestamp (dataPoints s' d) = DataPoint.timestamp (dataPoints s d)
                /\ DataPoint.value (dataPoints s' d) = DataPoint.value (dataPoints s d)).
Proof.
  unfold call. destruct (bool_decide (0 < value e)); [discriminate|].
  destruct c; simpl; try discriminate; intros _ H.
  - unfold addTrustedSource, onlyRole in H. inv_oracle. subst. auto.
  - unfold removeTrustedSource, onlyRole in H. inv_oracle. subst. auto.
  - unfold verifyData, onlyRole in H. inv_oracle. subst. simpl. split; [auto|].
    intros d. destruct (decide (d = _dataId)) as [->|Hne].
    + rewrite !fn_lookup_insert. auto.
    + rewrite !fn_lookup_insert_ne by auto. auto.
  - unfold updateVerificationThreshold, onlyRole in H. inv_oracle. subst. auto.
  - unfold updateSourceReliability, onlyRole, onlyTrustedSource in H. inv_oracle. subst. auto.
  - unfold pause, _pause, onlyRole, whenNotPaused in H. inv_oracle. subst. auto.
  - unfold unpause, _unpause, onlyRole, whenPaused in H. inv_oracle. subst. auto.
  - unfold grantRole, onlyRole in H. inv_oracle. subst.
    destruct (grantRole_keeps e r account s) as [-> ->]. auto.
  - unfold revokeRole, onlyRole in H. inv_oracle. subst.
    destruct (revokeRole_keeps e r account s) as [-> ->]. auto.
  - unfold renounceRole in H. inv_oracle. subst.
    destruct (revokeRole_keeps e r account s) as [-> ->]. auto.
Qed.

Lemma call_submits e src v md s s' :
  call keccak256 e (SubmitData src v md) s = Ok s' ->
  exists dataId, submitData keccak256 e src v md s = Ok (s', dataId).
Proof.
  unfold call. destruct (bool_decide (0 < value e)); [discriminate|].
  intros H. apply fmap_Ok in H as ([s1 d] & H & ->). eauto.
Qed.


End Oracle.

(** *** Time order of the histories *)

Section TimeOrder.

Variable keccak256 : list Byte.byte -> bytes32.

Abbreviation tuple := (string * uint256 * uint256 * address)%type.


Definition injective_on (subs : list tuple) : Prop :=
  forall t1 t2, t1 ∈ subs -> t2 ∈ subs ->
    dataIdOf keccak256 t1 = dataIdOf keccak256 t2 -> t1 = t2.

Lemma collisionFree_spec txs :
  collisionFree keccak256 txs = true -> injective_on (omap submission txs).
Proof.
  unfold collisionFree, injective_on. intros H t1 t2 H1 H2 Hid.
  apply Is_true_true, forallb_True in H. rewrite Forall_forall in H.
  specialize (H t1 H1). apply forallb_True in H. rewrite Forall_forall in H.
  specialize (H t2 H2). apply Is_true_true in H.
  rewrite bool_decide_true in H by exact Hid. simpl in H.
  by apply bool_decide_eq_true in H.
Qed.









End TimeOrder.

(** *** Submitting the same reading twice *)

Section Twice.

Variable keccak256 : list Byte.byte -> bytes32.

Lemma step_submit e src v md s :
  value e = 0 ->
  hasRole DATA_PROVIDER_ROLE (sender e) s = true ->
  trustedSources s src = true ->
  paused s = false ->
  let dataId := keccak256 (encodePacked src v (timestamp e) (sender e)) in
  let s' := step keccak256 s (e, SubmitData src v md) in
  roles s' = roles s /\ trustedSources s' = trustedSources s /\ paused s' = paused s
  /\ sourceDataHistory s' src = sourceDataHistory s src ++ [dataId]
  /\ dataPoints s' dataId
     = DataPoint.mk v (timestamp e) src (sourceTypes s src) (sender e) false md.
Proof.
  intros Hv Hr Ht Hp dataId s'. unfold s', step, call. cbn [fst snd].
  rewrite Hv. simpl. unfold submitData, onlyRole, onlyTrustedSource, whenNotPaused.
  rewrite Hr, Ht, Hp. simpl. by rewrite !fn_lookup_insert.
Qed.

Lemma step_verify e d s :
  value e = 0 ->
  hasRole ORACLE_OPERATOR_ROLE (sender e) s = true ->
  0 < DataPoint.timestamp (dataPoints s d) ->
  let s' := step keccak256 s (e, VerifyData d true) in
  (forall src, sourceDataHistory s' src = sourceDataHistory s src)
  /\ DataPoint.isVerified (dataPoints s' d) = true
  /\ DataPoint.timestamp (dataPoints s' d) = DataPoint.timestamp (dataPoints s d)
  /\ DataPoint.value (dataPoints s' d) = DataPoint.value (dataPoints s d).
Proof.
  intros Hv Hr Ht s'. unfold s', step, call. cbn [fst snd].
  rewrite Hv. simpl. unfold verifyData, onlyRole. rewrite Hr. simpl.
  rewrite bool_decide_true by exact Ht. simpl. by rewrite !fn_lookup_insert.
Qed.

(** Two submissions that agree on source, value, timestamp and submitter
    (they may differ in their metadata) get one identifier: the history holds
    it twice and the data point is the one of the second submission. *)
Lemma submit_twice e src v md md' s :
  value e = 0 ->
  hasRole DATA_PROVIDER_ROLE (sender e) s = true ->
  trustedSources s src = true ->
  paused s = false ->
  let dataId := keccak256 (encodePacked src v (timestamp e) (sender e)) in
  let s' := step keccak256 (step keccak256 s (e, SubmitData src v md))
                 (e, SubmitData src v md') in
  roles s' = roles s
  /\ sourceDataHistory s' src = sourceDataHistory s src ++ [dataId; dataId]
  /\ DataPoint.isVerified (dataPoints s' dataId) = false
  /\ DataPoint.value (dataPoints s' dataId) = v
  /\ DataPoint.timestamp (dataPoints s' dataId) = timestamp e
  /\ DataPoint.metadata (dataPoints s' dataId) = md'.
Proof.
  intros Hv Hr Ht Hp dataId s'.
  destruct (step_submit e src v md s Hv Hr Ht Hp) as (Hr1 & Ht1 & Hp1 & Hh1 & _).
  set (s1 := step keccak256 s (e, SubmitData src v md)) in *.
  destruct (step_submit e src v md' s1) as (Hr2 & _ & _ & Hh2 & Hd2); auto.
  { unfold hasRole. by rewrite Hr1. }
  { by rewrite Ht1. }
  { by rewrite Hp1. }
  fold s' in Hr2, Hh2, Hd2. fold dataId in Hh1, Hh2, Hd2.
  rewrite Hr2, Hr1, Hh2, Hh1, Hd2, <- app_assoc. simpl. repeat split; reflexivity.
Qed.

(** With both copies verified, the aggregate adds the value twice. *)
Lemma aggregate_twice src d t s :
  sourceDataHistory s src = [d; d] ->
  DataPoint.isVerified (dataPoints s d) = true ->
  DataPoint.timestamp (dataPoints s d) = t ->
  DataPoint.value (dataPoints s d) = 2 ^ 255 ->
  getAggregateValue src 0 t s = Revert (Panic 17).
Proof.
  intros Hh Hver Ht Hval.
  rewrite getAggregateValue_sum.
  assert (Hids : verifiedInRange src 0 t s = [d; d]).
  { unfold verifiedInRange. rewrite Hh.
    rewrite !filter_cons_True; [reflexivity| |]; (split; [exact Hver|lia]). }
  rewrite Hids. simpl. rewrite Hval. reflexivity.
Qed.

End Twice.

(** *** Submissions *)

Lemma run_app keccak256 deployer txs txs' :
  run keccak256 deployer (txs ++ txs')
  = fold_left (step keccak256) txs' (run keccak256 deployer txs).
Proof. unfold run. apply fold_left_app. Qed.


Lemma run_snoc3 keccak256 deployer txs a b c :
  run keccak256 deployer (txs ++ [a; b; c])
  = step keccak256 (step keccak256 (step keccak256 (run keccak256 deployer txs) a) b) c.
Proof. rewrite run_app. reflexivity. Qed.




(** C8 (as stated, refuted). Whatever the hash function, some transactions
    lead to a state where the aggregate of a source over a range does not
    return: the verified values add up beyond [uint256] and the checked
    addition reverts. *)
Lemma aggregate_overflow_counterexample :
  ~ exists keccak256 : list Byte.byte -> bytes32,
      forall txs src fromTime toTime,
        is_ok (getAggregateValue src fromTime toTime (run keccak256 1 txs)) = true.
Proof.
  intros [k H].
  set (d := k (encodePacked meter (2 ^ 255) (timestamp provider) (sender provider))).
  specialize (H (large_twice d) meter 0 150).
  unfold large_twice in H. rewrite run_snoc3 in H.
  destruct (submit_twice k provider meter (2 ^ 255) "first copy" "second copy"
              (run k 1 enrolled))
    as (Hr & Hh & _ & Hval & Hts & _); try (vm_compute; reflexivity).
  fold d in Hh, Hval, Hts.
  set (s2 := step k (step k (run k 1 enrolled) _) _) in *.
  assert (Hnil : sourceDataHistory (run k 1 enrolled) meter = [])
    by (vm_compute; reflexivity).
  rewrite Hnil, app_nil_l in Hh.
  destruct (step_verify k operator d s2) as (Hh3 & Hver & Hts3 & Hval3).
  { vm_compute. reflexivity. }
  { unfold hasRole. rewrite Hr. vm_compute. reflexivity. }
  { rewrite Hts. vm_compute. reflexivity. }
  rewrite (aggregate_twice meter d 150) in H; [discriminate H| | | |].
  - rewrite Hh3. exact Hh.
  - exact Hver.
  - rewrite Hts3, Hts. vm_compute. reflexivity.
  - rewrite Hval3. exact Hval.
Qed.

(** *** Pausing the oracle *)

(** While the oracle is paused no submission returns (a provider's
    submission for a trusted source reverts with "Pausable: paused"), the
    queries do not read the flag, and after [unpause] the flag is clear
    again. *)
Lemma paused_oracle (keccak256 : list Byte.byte -> bytes32) e src v md s :
  paused s = true ->
  is_ok (submitData keccak256 e src v md s) = false
  /\ (hasRole DATA_PROVIDER_ROLE (sender e) s = true ->
      trustedSources s src = true ->
      submitData keccak256 e src v md s = Revert (Error "Pausable: paused"))
  /\ (forall a b, getVerifiedData src a b (set_paused false s) = getVerifiedData src a b s)
  /\ (forall e', value e' = 0 -> hasRole ORACLE_OPERATOR_ROLE (sender e') s = true ->
                 paused (step keccak256 s (e', Unpause)) = false).
Proof.
  intros Hp. unfold submitData, onlyRole, onlyTrustedSource, whenNotPaused. rewrite Hp.
  repeat split.
  - destruct (hasRole _ _ _); [|reflexivity]. simpl.
    destruct (trustedSources s src); reflexivity.
  - intros -> ->. reflexivity.
  - intros e' Hv Hr. unfold step, call. cbn [fst snd]. rewrite Hv. simpl.
    unfold unpause, onlyRole, _unpause, whenPaused. rewrite Hr, Hp. reflexivity.
Qed.

End OracleProperties.

(** * Further properties of the ledger *)

Module SubsidyExtras.
Import GreenHydrogenSubsidy SubsidyViews SubsidyScenarios DisputeScenarios SubsidyProperties.
(** *** What each call does to projects and milestones *)

(** The record a verification writes before deciding between Verified and
    Failed. *)
Definition recorded (e : Env) (actual : uint256) (m : Milestone.t) : Milestone.t :=
  Milestone.set_verifiedBy (sender e)
    (Milestone.set_verifiedAt (timestamp e) (Milestone.set_actualValue actual m)).

(** The project after a payment of [amount]: the amount is added and the
    project is Completed when [completed] says so. *)
Definition credited (amount : uint256) (completed : bool) (p : Project.t) : Project.t :=
  let p := Project.set_disbursedAmount (Project.disbursedAmount p + amount) p in
  if completed then Project.set_status ProjectStatus.Completed p else p.

Inductive transition (e : Env) (s s' : State) : Prop :=
| tr_frame :
    (forall i, milestones s' i = milestones s i) ->
    (forall p, projects s' p = projects s p) ->
    nextProjectId s' = nextProjectId s ->
    nextMilestoneId s' = nextMilestoneId s ->
    transition e s s'
| tr_register producer name description amount :
    (forall i, milestones s' i = milestones s i) ->
    (forall p, p ≠ nextProjectId s -> projects s' p = projects s p) ->
    projects s' (nextProjectId s)
    = Project.mk (nextProjectId s) producer name description amount 0 (timestamp e)
                 ProjectStatus.Pending
                 (Project.milestoneIds (projects s (nextProjectId s)))
                 (Project.milestoneExists (projects s (nextProjectId s))) ->
    nextProjectId s' = nextProjectId s + 1 ->
    nextMilestoneId s' = nextMilestoneId s ->
    transition e s s'
| tr_project_status pid st :
    0 < pid < nextProjectId s ->
    (forall i, milestones s' i = milestones s i) ->
    (forall p, p ≠ pid -> projects s' p = projects s p) ->
    projects s' pid = Project.set_status st (projects s pid) ->
    nextProjectId s' = nextProjectId s ->
    nextMilestoneId s' = nextMilestoneId s ->
    transition e s s'
| tr_add pid description amount target source deadline :
    0 < pid < nextProjectId s ->
    timestamp e < deadline ->
    0 < amount ->
    Project.status (projects s pid) = ProjectStatus.Pending
    \/ Project.status (projects s pid) = ProjectStatus.Active ->
    Project.disbursedAmount (projects s pid) + amount
    <= Project.totalSubsidyAmount (projects s pid) ->
    (forall i, i ≠ nextMilestoneId s -> milestones s' i = milestones s i) ->
    milestones s' (nextMilestoneId s)
    = Milestone.mk (nextMilestoneId s) pid description amount target 0 source deadline
                   MilestoneStatus.Pending 0 0 false ->
    (forall p, p ≠ pid -> projects s' p = projects s p) ->
    projects s' pid
    = Project.set_status ProjectStatus.Active
        (Project.set_milestoneExists
           (<[nextMilestoneId s := true]> (Project.milestoneExists (projects s pid)))
           (Project.set_milestoneIds
              (Project.milestoneIds (projects s pid) ++ [nextMilestoneId s])
              (projects s pid))) ->
    nextProjectId s' = nextProjectId s ->
    nextMilestoneId s' = nextMilestoneId s + 1 ->
    transition e s s'
| tr_failed i actual :
    0 < i < nextMilestoneId s ->
    Milestone.status (milestones s i) = MilestoneStatus.Pending ->
    timestamp e <= Milestone.deadline (milestones s i) ->
    (forall j, j ≠ i -> milestones s' j = milestones s j) ->
    milestones s' i
    = Milestone.set_status MilestoneStatus.Failed (recorded e actual (milestones s i)) ->
    (forall p, projects s' p = projects s p) ->
    nextProjectId s' = nextProjectId s ->
    nextMilestoneId s' = nextMilestoneId s ->
    transition e s s'
| tr_dispute i :
    0 < i < nextMilestoneId s ->
    Milestone.status (milestones s i) = MilestoneStatus.Failed
    \/ Milestone.status (milestones s i) = MilestoneStatus.Verified ->
    (forall j, j ≠ i -> milestones s' j = milestones s j) ->
    milestones s' i = Milestone.set_status MilestoneStatus.Disputed (milestones s i) ->
    (forall p, projects s' p = projects s p) ->
    nextProjectId s' = nextProjectId s ->
    nextMilestoneId s' = nextMilestoneId s ->
    transition e s s'
| tr_resolve i (approve : bool) :
    0 < i < nextMilestoneId s ->
    Milestone.status (milestones s i) = MilestoneStatus.Disputed ->
    approve = false \/ Milestone.paid (milestones s i) = true ->
    (forall j, j ≠ i -> milestones s' j = milestones s j) ->
    milestones s' i
    = Milestone.set_status
        (if approve then MilestoneStatus.Verified else MilestoneStatus.Failed)
        (milestones s i) ->
    (forall p, projects s' p = projects s p) ->
    nextProjectId s' = nextProjectId s ->
    nextMilestoneId s' = nextMilestoneId s ->
    transition e s s'
| tr_pay i m :
    0 < i < nextMilestoneId s ->
    (Milestone.status (milestones s i) = MilestoneStatus.Disputed /\ m = milestones s i)
    \/ (Milestone.status (milestones s i) = MilestoneStatus.Pending
        /\ timestamp e <= Milestone.deadline (milestones s i)
        /\ exists actual, Milestone.targetValue (milestones s i) <= actual
                          /\ m = recorded e actual (milestones s i)) ->
    Milestone.paid (milestones s i) = false ->
    Project.status (projects s (Milestone.projectId (milestones s i))) = ProjectStatus.Active ->
    (forall j, j ≠ i -> milestones s' j = milestones s j) ->
    milestones s' i
    = Milestone.set_paid true (Milestone.set_status MilestoneStatus.Verified m) ->
    (forall p, p ≠ Milestone.projectId (milestones s i) -> projects s' p = projects s p) ->
    projects s' (Milestone.projectId (milestones s i))
    = credited (Milestone.subsidyAmount (milestones s i))
        (allMilestonesCompleted (milestones s')
           (Project.milestoneIds (projects s (Milestone.projectId (milestones s i))))
         && (0 <? length (Project.milestoneIds
                            (projects s (Milestone.projectId (milestones s i)))))%nat)
        (projects s (Milestone.projectId (milestones s i))) ->
    nextProjectId s' = nextProjectId s ->
    nextMilestoneId s' = nextMilestoneId s ->
    transition e s s'.

Lemma checkProjectCompletion_projects pid s :
  let s' := _checkProjectCompletion pid s in
  milestones s' = milestones s
  /\ nextProjectId s' = nextProjectId s
  /\ nextMilestoneId s' = nextMilestoneId s
  /\ (forall p, p ≠ pid -> projects s' p = projects s p)
  /\ projects s' pid
     = if allMilestonesCompleted (milestones s) (Project.milestoneIds (projects s pid))
          && (0 <? length (Project.milestoneIds (projects s pid)))%nat
       then Project.set_status ProjectStatus.Completed (projects s pid)
       else projects s pid.
Proof.
  unfold _checkProjectCompletion. destruct (_ && _); simpl; repeat split; auto.
  - intros p Hp. by rewrite fn_lookup_insert_ne.
  - by rewrite fn_lookup_insert.
Qed.

Lemma processMilestonePayment_projects e i s s' :
  _processMilestonePayment e i s = Ok s' ->
  let pid := Milestone.projectId (milestones s i) in
  Project.status (projects s pid) = ProjectStatus.Active
  /\ (forall j, j ≠ i -> milestones s' j = milestones s j)
  /\ milestones s' i = Milestone.set_paid true (milestones s i)
  /\ (forall p, p ≠ pid -> projects s' p = projects s p)
  /\ projects s' pid
     = credited (Milestone.subsidyAmount (milestones s i))
         (allMilestonesCompleted (milestones s') (Project.milestoneIds (projects s pid))
          && (0 <? length (Project.milestoneIds (projects s pid)))%nat)
         (projects s pid)
  /\ nextProjectId s' = nextProjectId s.
Proof.
  intros H pid.
  pose proof (processMilestonePayment_Ok e i s s' H) as (_ & _ & Hms & _).
  unfold _processMilestonePayment in H. inv_calls. subst s'.
  match goal with |- context [_checkProjectCompletion ?p ?t] =>
    destruct (checkProjectCompletion_projects p t) as (Hm & Hnp & Hnm & Hother & Hpid);
    revert Hms; rewrite ?Hm, ?Hnp; intros Hms
  end.
  simpl in *. fold pid in Hother, Hpid |- *.
  split; [assumption|]. split; [intros j Hj; by rewrite fn_lookup_insert_ne|].
  split; [by rewrite fn_lookup_insert|].
  split.
  - intros p Hp. rewrite Hother by auto. simpl. by rewrite fn_lookup_insert_ne.
  - split; [|reflexivity]. rewrite Hpid. rewrite !fn_lookup_insert. simpl.
    unfold credited. destruct (_ && _); reflexivity.
Qed.

Lemma set_status_same (p : Project.t) st :
  Project.status p = st -> Project.set_status st p = p.
Proof. destruct p. simpl. by intros ->. Qed.

Lemma grantRole_projects e r a s :
  milestones (_grantRole e r a s) = milestones s
  /\ projects (_grantRole e r a s) = projects s
  /\ nextProjectId (_grantRole e r a s) = nextProjectId s
  /\ nextMilestoneId (_grantRole e r a s) = nextMilestoneId s.
Proof. unfold _grantRole. destruct (hasRole _ _ _); simpl; auto. Qed.

Lemma revokeRole_projects e r a s :
  milestones (_revokeRole e r a s) = milestones s
  /\ projects (_revokeRole e r a s) = projects s
  /\ nextProjectId (_revokeRole e r a s) = nextProjectId s
  /\ nextMilestoneId (_revokeRole e r a s) = nextMilestoneId s.
Proof. unfold _revokeRole. destruct (hasRole _ _ _); simpl; auto. Qed.

Ltac frame_roles :=
  match goal with
  | |- context [_grantRole ?e ?r ?a ?t] =>
      destruct (grantRole_projects e r a t) as (Hgm & Hgp & Hgn & Hgk)
  | |- context [_revokeRole ?e ?r ?a ?t] =>
      destruct (revokeRole_projects e r a t) as (Hgm & Hgp & Hgn & Hgk)
  end.

(** Every call that returns is one of the transitions. *)
Lemma call_transition e c s s' : call e c s = Ok s' -> transition e s s'.
Proof.
  unfold call. destruct (negb (payable c) && bool_decide (0 < value e)); [discriminate|].
  destruct c; intros H.
  - unfold addFunds, onlyGovernment in H. inv_calls. subst s'. by apply tr_frame.
  - unfold registerProject, grantRole, onlyGovernment, onlyRole in H. inv_calls. subst.
    frame_roles.
    eapply tr_register; simpl; rewrite ?Hgm, ?Hgp, ?Hgn, ?Hgk; simpl; auto.
    + intros p Hp. by rewrite fn_lookup_insert_ne.
    + by rewrite fn_lookup_insert.
  - unfold addMilestone, onlyGovernment, projectExists in H. inv_calls. subst.
    simpl in *. rewrite !fn_lookup_insert. simpl.
    match goal with Hx : _ || _ = true |- _ =>
      apply orb_true_iff in Hx as [Hst|Hst]; apply bool_decide_eq_true in Hst end.
    + rewrite (bool_decide_eq_true_2 _ Hst).
      apply (tr_add _ _ _ _projectId _description _subsidyAmount _targetValue
                    _verificationSource _deadline);
        simpl; rewrite ?fn_lookup_insert; simpl; auto; try lia.
      * intros i Hi. by rewrite fn_lookup_insert_ne.
      * intros p Hp. by rewrite !fn_lookup_insert_ne.
    + rewrite bool_decide_eq_false_2 by (rewrite Hst; discriminate).
      apply (tr_add _ _ _ _projectId _description _subsidyAmount _targetValue
                    _verificationSource _deadline);
        simpl; rewrite ?fn_lookup_insert; simpl; auto; try lia.
      * intros i Hi. by rewrite fn_lookup_insert_ne.
      * intros p Hp. by rewrite !fn_lookup_insert_ne.
      * by rewrite (set_status_same _ ProjectStatus.Active).
  - (* verifyMilestone *)
    unfold verifyMilestone in H. inv_calls. subst s'. simpl in *.
    match goal with Hi : (if ?b then _ else _) = Ok _ |- _ =>
      destruct b eqn:Hcond; rename Hi into Hres end.
    + apply andb_true_iff in Hcond as [_ Htarget]. apply bool_decide_eq_true in Htarget.
      rewrite !fn_lookup_insert in Htarget. simpl in Htarget.
      pose proof Hres as Hres'.
      apply processMilestonePayment_projects in Hres
        as (Hact & Hms & Hmi & Hps & Hpi & Hnp).
      apply processMilestonePayment_Ok in Hres' as (_ & Hunpaid & _ & Hnm & _).
      simpl in *. rewrite !fn_lookup_insert in *. simpl in *.
      eapply (tr_pay _ _ _ _milestoneId (recorded e _actualValue (milestones s _milestoneId)));
        simpl; rewrite ?Hmi; simpl; eauto.
      * right. eauto.
      * intros j Hj. rewrite Hms by auto. by rewrite !fn_lookup_insert_ne.
    + inv_calls. subst.
      eapply (tr_failed _ _ _ _milestoneId _actualValue); simpl;
        rewrite ?fn_lookup_insert; simpl; auto.
      intros j Hj. by rewrite !fn_lookup_insert_ne.
  - (* updateProjectStatus *)
    unfold updateProjectStatus, onlyGovernment, projectExists in H. inv_calls. subst.
    eapply (tr_project_status _ _ _ _projectId _newStatus); simpl;
      rewrite ?fn_lookup_insert; auto.
    intros p Hp. by rewrite fn_lookup_insert_ne.
  - (* disputeMilestone *)
    unfold disputeMilestone in H. inv_calls. subst. simpl in *.
    eapply (tr_dispute _ _ _ _milestoneId); simpl; rewrite ?fn_lookup_insert; auto.
    + match goal with Hx : bool_decide _ || bool_decide _ = true |- _ =>
        apply orb_true_iff in Hx as [Hx|Hx]; apply bool_decide_eq_true in Hx; auto end.
    + intros j Hj. by rewrite fn_lookup_insert_ne.
  - (* resolveDispute *)
    unfold resolveDispute, onlyAuditor in H. inv_calls. simpl in *.
    destruct _approve.
    + match goal with Hi : (if _ then _ else _) = Ok _ |- _ =>
        rewrite fn_lookup_insert in Hi; simpl in Hi; rename Hi into Hres end.
      destruct (Milestone.paid (milestones s _milestoneId)) eqn:Hpaid; simpl in Hres.
      * inv_calls. subst.
        eapply (tr_resolve _ _ _ _milestoneId true); simpl; rewrite ?fn_lookup_insert; auto.
        intros j Hj. by rewrite fn_lookup_insert_ne.
      * pose proof Hres as Hres'.
        apply processMilestonePayment_projects in Hres
          as (Hact & Hms & Hmi & Hps & Hpi & Hnp).
        apply processMilestonePayment_Ok in Hres' as (_ & _ & _ & Hnm & _).
        simpl in *. rewrite !fn_lookup_insert in *. simpl in *.
        eapply (tr_pay _ _ _ _milestoneId (milestones s _milestoneId));
          simpl; rewrite ?Hmi; simpl; eauto.
        intros j Hj. rewrite Hms by auto. by rewrite !fn_lookup_insert_ne.
    + inv_calls. subst.
      eapply (tr_resolve _ _ _ _milestoneId false); simpl; rewrite ?fn_lookup_insert; auto.
      intros j Hj. by rewrite fn_lookup_insert_ne.
  - unfold emergencyWithdraw, onlyGovernment in H. inv_calls. subst. by apply tr_frame.
  - unfold pause, _pause, onlyGovernment in H. inv_calls. subst. by apply tr_frame.
  - unfold unpause, _unpause, onlyGovernment in H. inv_calls. subst. by apply tr_frame.
  - unfold grantRole, onlyRole in H. inv_calls. subst. frame_roles.
    apply tr_frame; rewrite ?Hgm, ?Hgp, ?Hgn, ?Hgk; auto.
  - unfold revokeRole, onlyRole in H. inv_calls. subst. frame_roles.
    apply tr_frame; rewrite ?Hgm, ?Hgp, ?Hgn, ?Hgk; auto.
  - unfold renounceRole in H. inv_calls. subst. frame_roles.
    apply tr_frame; rewrite ?Hgm, ?Hgp, ?Hgn, ?Hgk; auto.
  - unfold receive in H. inv_calls. subst s'. by apply tr_frame.
Qed.

(** *** Allocation of identifiers *)

Definition project_exists (s : State) (p : uint256) : Prop := 0 < p < nextProjectId s.
Definition milestone_exists (s : State) (i : uint256) : Prop := 0 < i < nextMilestoneId s.

Record Allocated (s : State) : Prop := {
  al_nextP : 1 <= nextProjectId s;
  al_nextM : 1 <= nextMilestoneId s;
  al_free_project : forall p, ~ project_exists s p -> projects s p = Project.zero;
  al_free_milestone : forall i, ~ milestone_exists s i -> milestones s i = Milestone.zero;
  al_project_id : forall p, project_exists s p -> Project.id (projects s p) = p;
  al_milestone_id : forall i, milestone_exists s i ->
      Milestone.id (milestones s i) = i
      /\ project_exists s (Milestone.projectId (milestones s i))
}.

Lemma init_Allocated deployer : Allocated (init deployer).
Proof.
  assert (HP : nextProjectId (init deployer) = 1) by reflexivity.
  assert (HM : nextMilestoneId (init deployer) = 1) by reflexivity.
  split; unfold project_exists, milestone_exists; rewrite ?HP, ?HM; intros;
    try lia; reflexivity.
Qed.

Lemma transition_Allocated e s s' : transition e s s' -> Allocated s -> Allocated s'.
Proof.
  intros Htr [HnP HnM HfP HfM HidP HidM].
  unfold project_exists, milestone_exists in *.
  destruct Htr as
    [Hms Hps Hp Hm
    |producer name description amount Hms Hps Hnew Hp Hm
    |pid st Hpid Hms Hps Hat Hp Hm
    |pid description amount target source deadline Hpid Hdl Hamt Hst Hfit Hms Hnew Hps Hat Hp Hm
    |i actual Hi Hst Hdl Hms Hat Hps Hp Hm
    |i Hi Hst Hms Hat Hps Hp Hm
    |i approve Hi Hst Hor Hms Hat Hps Hp Hm
    |i m Hi Hfrom Hunpaid Hact Hms Hat Hps Hcred Hp Hm];
    unfold project_exists, milestone_exists; rewrite ?Hp, ?Hm.
  - split; unfold project_exists, milestone_exists; rewrite ?Hp, ?Hm; try lia;
      intros x; rewrite ?Hms, ?Hps; auto.
  - split; unfold project_exists, milestone_exists; rewrite ?Hp, ?Hm; try lia.
    + intros p Hn. rewrite Hps by lia. apply HfP. lia.
    + intros i. rewrite Hms. auto.
    + intros p Hx. destruct (decide (p = nextProjectId s)) as [->|Hne].
      * by rewrite Hnew.
      * rewrite Hps by auto. apply HidP. lia.
    + intros i Hx. rewrite Hms. destruct (HidM i Hx). split; [auto|lia].
  - split; unfold project_exists, milestone_exists; rewrite ?Hp, ?Hm; try lia.
    + intros p Hn. rewrite Hps by lia. by apply HfP.
    + intros i. rewrite Hms. auto.
    + intros p Hx. destruct (decide (p = pid)) as [->|Hne].
      * rewrite Hat. simpl. by apply HidP.
      * rewrite Hps by auto. by apply HidP.
    + intros i Hx. rewrite Hms. by apply HidM.
  - split; unfold project_exists, milestone_exists; rewrite ?Hp, ?Hm; try lia.
    + intros p Hn. rewrite Hps by lia. by apply HfP.
    + intros i Hn. rewrite Hms by lia. apply HfM. lia.
    + intros p Hx. destruct (decide (p = pid)) as [->|Hne].
      * rewrite Hat. simpl. by apply HidP.
      * rewrite Hps by auto. by apply HidP.
    + intros i Hx. destruct (decide (i = nextMilestoneId s)) as [->|Hne].
      * rewrite Hnew. simpl. auto.
      * rewrite Hms by auto. apply HidM. lia.
  - split; unfold project_exists, milestone_exists; rewrite ?Hp, ?Hm; try lia.
    + intros p. rewrite Hps. auto.
    + intros j Hn. rewrite Hms by lia. by apply HfM.
    + intros p. rewrite Hps. auto.
    + intros j Hx. destruct (decide (j = i)) as [->|Hne].
      * rewrite Hat. simpl. by apply HidM.
      * rewrite Hms by auto. by apply HidM.
  - split; unfold project_exists, milestone_exists; rewrite ?Hp, ?Hm; try lia.
    + intros p. rewrite Hps. auto.
    + intros j Hn. rewrite Hms by lia. by apply HfM.
    + intros p. rewrite Hps. auto.
    + intros j Hx. destruct (decide (j = i)) as [->|Hne].
      * rewrite Hat. simpl. by apply HidM.
      * rewrite Hms by auto. by apply HidM.
  - split; unfold project_exists, milestone_exists; rewrite ?Hp, ?Hm; try lia.
    + intros p. rewrite Hps. auto.
    + intros j Hn. rewrite Hms by lia. by apply HfM.
    + intros p. rewrite Hps. auto.
    + intros j Hx. destruct (decide (j = i)) as [->|Hne].
      * rewrite Hat. simpl. by apply HidM.
      * rewrite Hms by auto. by apply HidM.
  - destruct (HidM i Hi) as [Hid Hpe].
    assert (Hm_terms : Milestone.id m = i
              /\ Milestone.projectId m = Milestone.projectId (milestones s i)).
    { destruct Hfrom as [[_ ->]|(_ & _ & actual & _ & ->)]; simpl; auto. }
    destruct Hm_terms as [Hmid Hmp].
    split; unfold project_exists, milestone_exists; rewrite ?Hp, ?Hm; try lia.
    + intros p Hn. rewrite Hps; [by apply HfP|]. intros ->. contradiction.
    + intros j Hn. rewrite Hms by lia. by apply HfM.
    + intros p Hx. destruct (decide (p = Milestone.projectId (milestones s i))) as [->|Hne].
      * rewrite Hcred. unfold credited. destruct (_ && _); simpl; by apply HidP.
      * rewrite Hps by auto. by apply HidP.
    + intros j Hx. destruct (decide (j = i)) as [->|Hne].
      * rewrite Hat. simpl. rewrite Hmid, Hmp. auto.
      * rewrite Hms by auto. by apply HidM.
Qed.

(** *** Projects and their milestone lists *)

Record Linked (s : State) : Prop := {
  lk_member : forall p i,
      i ∈ Project.milestoneIds (projects s p)
      <-> milestone_exists s i /\ Milestone.projectId (milestones s i) = p;
  lk_flag : forall p i,
      Project.milestoneExists (projects s p) i = true
      <-> i ∈ Project.milestoneIds (projects s p);
  lk_order : forall p, StronglySorted N.lt (Project.milestoneIds (projects s p))
}.

Lemma init_Linked deployer : Linked (init deployer).
Proof.
  assert (HM : nextMilestoneId (init deployer) = 1) by reflexivity.
  assert (HP : forall p, projects (init deployer) p = Project.zero) by reflexivity.
  split; intros p; rewrite ?HP; simpl.
  - intros i. unfold milestone_exists. rewrite HM. split; [inversion 1|lia].
  - intros i. split; [discriminate|inversion 1].
  - constructor.
Qed.

Lemma credited_lists amount completed p :
  Project.milestoneIds (credited amount completed p) = Project.milestoneIds p
  /\ Project.milestoneExists (credited amount completed p) = Project.milestoneExists p.
Proof. unfold credited. destruct completed; auto. Qed.

Lemma transition_Linked e s s' :
  transition e s s' -> Allocated s -> Linked s -> Linked s'.
Proof.
  intros Htr [HnP HnM HfP HfM HidP HidM] [Hmem Hflag Hord].
  unfold project_exists, milestone_exists in *.
  destruct Htr as
    [Hms Hps Hp Hm
    |producer name description amount Hms Hps Hnew Hp Hm
    |pid st Hpid Hms Hps Hat Hp Hm
    |pid description amount target source deadline Hpid Hdl Hamt Hst Hfit Hms Hnew Hps Hat Hp Hm
    |i actual Hi Hst Hdl Hms Hat Hps Hp Hm
    |i Hi Hst Hms Hat Hps Hp Hm
    |i approve Hi Hst Hor Hms Hat Hps Hp Hm
    |i m Hi Hfrom Hunpaid Hact Hms Hat Hps Hcred Hp Hm].
  - split; unfold milestone_exists; intros p; rewrite ?Hps, ?Hm; auto.
    intros i. rewrite Hms. apply Hmem.
  - assert (Hempty : Project.milestoneIds (projects s (nextProjectId s)) = []
                     /\ Project.milestoneExists (projects s (nextProjectId s)) = (fun _ => false)).
    { rewrite HfP by lia. auto. }
    destruct Hempty as [He1 He2].
    split; unfold milestone_exists; intros p; rewrite ?Hm;
      (destruct (decide (p = nextProjectId s)) as [->|Hne];
       [rewrite Hnew; simpl; rewrite ?He1, ?He2|rewrite Hps by auto]); auto.
    + intros i. rewrite Hms. split; [inversion 1|].
      intros [Hx Hpid]. destruct (HidM i Hx) as [_ Hpe]. lia.
    + intros i. rewrite Hms. apply Hmem.
    + intros i. split; [discriminate|inversion 1].
    + constructor.
  - split; unfold milestone_exists; intros p; rewrite ?Hm;
      (destruct (decide (p = pid)) as [->|Hne];
       [rewrite Hat; simpl|rewrite Hps by auto]); auto;
      intros i; rewrite Hms; apply Hmem.
  - assert (Hold : forall p i, i ∈ Project.milestoneIds (projects s p) -> i < nextMilestoneId s).
    { intros p i Hin. apply Hmem in Hin as [Hx _]. lia. }
    split; unfold milestone_exists; intros p; rewrite ?Hm;
      (destruct (decide (p = pid)) as [->|Hne];
       [rewrite Hat; simpl|rewrite Hps by auto]); auto.
    + intros i. rewrite elem_of_app, list_elem_of_singleton.
      destruct (decide (i = nextMilestoneId s)) as [->|Hi].
      * rewrite Hnew. simpl. split; [intros _; split; [lia|reflexivity]|auto].
      * rewrite Hms by auto. rewrite Hmem. unfold milestone_exists.
        split; [intros [[H1 H2]|H1]; [split; [lia|auto]|contradiction]|].
        intros [H1 H2]. left. split; [lia|auto].
    + intros i. destruct (decide (i = nextMilestoneId s)) as [->|Hi].
      * rewrite Hnew. simpl. split.
        -- intros Hin. apply Hold in Hin. lia.
        -- intros [_ Hpid']. congruence.
      * rewrite Hms by auto. rewrite Hmem. unfold milestone_exists.
        split; intros [H1 H2]; (split; [lia|auto]).
    + intros i. rewrite elem_of_app, list_elem_of_singleton.
      destruct (decide (i = nextMilestoneId s)) as [->|Hi].
      * rewrite fn_lookup_insert. split; auto.
      * rewrite fn_lookup_insert_ne by auto. rewrite Hflag.
        split; [auto|intros [H1|H1]; [auto|contradiction]].
    + apply StronglySorted_app_2; [|apply Hord|repeat constructor].
      intros x1 x2 H1 H2. apply list_elem_of_singleton in H2. subst x2. by eapply Hold.
  - split; unfold milestone_exists; intros p; rewrite ?Hps, ?Hm; auto.
    intros j. rewrite Hmem. unfold milestone_exists.
    destruct (decide (j = i)) as [->|Hne]; [rewrite Hat; simpl|rewrite Hms by auto]; tauto.
  - split; unfold milestone_exists; intros p; rewrite ?Hps, ?Hm; auto.
    intros j. rewrite Hmem. unfold milestone_exists.
    destruct (decide (j = i)) as [->|Hne]; [rewrite Hat; simpl|rewrite Hms by auto]; tauto.
  - split; unfold milestone_exists; intros p; rewrite ?Hps, ?Hm; auto.
    intros j. rewrite Hmem. unfold milestone_exists.
    destruct (decide (j = i)) as [->|Hne]; [rewrite Hat; simpl|rewrite Hms by auto]; tauto.
  - assert (Hterms : Milestone.projectId m = Milestone.projectId (milestones s i)).
    { destruct Hfrom as [[_ ->]|(_ & _ & actual & _ & ->)]; simpl; auto. }
    split; unfold milestone_exists; intros p; rewrite ?Hm;
      (destruct (decide (p = Milestone.projectId (milestones s i))) as [->|Hne];
       [rewrite Hcred;
        destruct (credited_lists (Milestone.subsidyAmount (milestones s i))
                    (allMilestonesCompleted (milestones s')
                       (Project.milestoneIds
                          (projects s (Milestone.projectId (milestones s i))))
                     && (0 <? length (Project.milestoneIds
                                        (projects s (Milestone.projectId (milestones s i)))))%nat)
                    (projects s (Milestone.projectId (milestones s i)))) as [Hl1 Hl2];
        rewrite ?Hl1, ?Hl2
       |rewrite Hps by auto]); auto;
      intros j; rewrite Hmem; unfold milestone_exists;
      (destruct (decide (j = i)) as [->|Hnj];
       [rewrite Hat; simpl; rewrite Hterms|rewrite Hms by auto]); tauto.
Qed.

(** *** What each project has received *)

Definition project_paid (s : State) (p : uint256) : uint256 :=
  sum_over (fun i => paid_amount (milestones s i)) (Project.milestoneIds (projects s p)).

Definition Accounted (s : State) : Prop :=
  forall p, Project.disbursedAmount (projects s p) = project_paid s p.

Lemma StronglySorted_lt_NoDup (l : list N) : StronglySorted N.lt l -> NoDup l.
Proof.
  induction 1 as [|x l Hs IH Hall]; constructor; [|exact IH].
  intros Hin. rewrite Forall_forall in Hall. specialize (Hall x Hin). lia.
Qed.

Lemma credited_disbursed amount completed p :
  Project.disbursedAmount (credited amount completed p) = Project.disbursedAmount p + amount.
Proof. unfold credited. destruct completed; reflexivity. Qed.

Lemma transition_Accounted e s s' :
  transition e s s' -> Allocated s -> Linked s -> Accounted s -> Accounted s'.
Proof.
  intros Htr [HnP HnM HfP HfM HidP HidM] [Hmem Hflag Hord] Hacc.
  unfold project_exists, milestone_exists, Accounted, project_paid in *.
  destruct Htr as
    [Hms Hps Hp Hm
    |producer name description amount Hms Hps Hnew Hp Hm
    |pid st Hpid Hms Hps Hat Hp Hm
    |pid description amount target source deadline Hpid Hdl Hamt Hst Hfit Hms Hnew Hps Hat Hp Hm
    |i actual Hi Hst Hdl Hms Hat Hps Hp Hm
    |i Hi Hst Hms Hat Hps Hp Hm
    |i approve Hi Hst Hor Hms Hat Hps Hp Hm
    |i m Hi Hfrom Hunpaid Hact Hms Hat Hps Hcred Hp Hm];
    intros p.
  - rewrite Hps, Hacc. apply sum_over_ext. intros j _. by rewrite Hms.
  - destruct (decide (p = nextProjectId s)) as [->|Hne].
    + rewrite Hnew. simpl. rewrite HfP by lia. reflexivity.
    + rewrite Hps by auto. rewrite Hacc. apply sum_over_ext. intros j _. by rewrite Hms.
  - destruct (decide (p = pid)) as [->|Hne]; [rewrite Hat; simpl|rewrite Hps by auto];
      rewrite Hacc; apply sum_over_ext; intros j _; by rewrite Hms.
  - assert (Hold : forall q j, j ∈ Project.milestoneIds (projects s q) ->
                     milestones s' j = milestones s j).
    { intros q j Hin. apply Hmem in Hin as [Hx _]. apply Hms. lia. }
    destruct (decide (p = pid)) as [->|Hne].
    + rewrite Hat. simpl. rewrite sum_over_app, sum_over_cons, Hnew. simpl.
      rewrite Hacc. unfold sum_over at 3. simpl.
      rewrite (sum_over_ext (fun i => paid_amount (milestones s' i))
                 (fun i => paid_amount (milestones s i))
                 (Project.milestoneIds (projects s pid))); [unfold paid_amount; simpl; lia|].
      intros j Hj. by rewrite (Hold pid).
    + rewrite Hps by auto. rewrite Hacc. apply sum_over_ext.
      intros j Hj. by rewrite (Hold p).
  - rewrite Hps, Hacc. apply sum_over_ext. intros j _.
    destruct (decide (j = i)) as [->|Hne]; [by rewrite Hat|by rewrite Hms].
  - rewrite Hps, Hacc. apply sum_over_ext. intros j _.
    destruct (decide (j = i)) as [->|Hne]; [by rewrite Hat|by rewrite Hms].
  - rewrite Hps, Hacc. apply sum_over_ext. intros j _.
    destruct (decide (j = i)) as [->|Hne]; [by rewrite Hat|by rewrite Hms].
  - assert (Hamt : Milestone.subsidyAmount m = Milestone.subsidyAmount (milestones s i)).
    { destruct Hfrom as [[_ ->]|(_ & _ & actual & _ & ->)]; simpl; auto. }
    assert (Hnew : paid_amount (milestones s' i) = Milestone.subsidyAmount (milestones s i)).
    { rewrite Hat. unfold paid_amount. simpl. exact Hamt. }
    assert (Hwas : paid_amount (milestones s i) = 0).
    { unfold paid_amount. by rewrite Hunpaid. }
    destruct (decide (p = Milestone.projectId (milestones s i))) as [->|Hne].
    + rewrite Hcred, credited_disbursed.
      destruct (credited_lists (Milestone.subsidyAmount (milestones s i))
                  (allMilestonesCompleted (milestones s')
                     (Project.milestoneIds
                        (projects s (Milestone.projectId (milestones s i))))
                   && (0 <? length (Project.milestoneIds
                                      (projects s (Milestone.projectId (milestones s i)))))%nat)
                  (projects s (Milestone.projectId (milestones s i)))) as [-> _].
      rewrite Hacc.
      pose proof (sum_over_update (fun j => paid_amount (milestones s j))
                    (fun j => paid_amount (milestones s' j))
                    (Project.milestoneIds (projects s (Milestone.projectId (milestones s i)))) i)
        as Hu.
      cbv beta in Hu. rewrite Hnew, Hwas in Hu. rewrite <- Hu; [lia| | |].
      * apply StronglySorted_lt_NoDup, Hord.
      * apply Hmem. auto.
      * intros j _ Hj. by rewrite Hms.
    + rewrite Hps by auto. rewrite Hacc. apply sum_over_ext. intros j Hj.
      destruct (decide (j = i)) as [->|Hnj]; [|by rewrite Hms].
      apply Hmem in Hj as [_ Hpj]. congruence.
Qed.

(** *** What a verdict records *)

Record Recorded (s : State) : Prop := {
  rc_pending : forall i,
      Milestone.status (milestones s i) = MilestoneStatus.Pending ->
      Milestone.actualValue (milestones s i) = 0
      /\ Milestone.verifiedAt (milestones s i) = 0
      /\ Milestone.verifiedBy (milestones s i) = 0
      /\ Milestone.paid (milestones s i) = false;
  rc_in_time : forall i,
      Milestone.status (milestones s i) ≠ MilestoneStatus.Pending ->
      Milestone.verifiedAt (milestones s i) <= Milestone.deadline (milestones s i)
}.

Lemma init_Recorded deployer : Recorded (init deployer).
Proof. split; intros i; cbn; [auto|intros Hx; by destruct Hx]. Qed.

Lemma transition_Recorded e s s' : transition e s s' -> Recorded s -> Recorded s'.
Proof.
  intros Htr [Hpend Htime].
  destruct Htr as
    [Hms Hps Hp Hm
    |producer name description amount Hms Hps Hnew Hp Hm
    |pid st Hpid Hms Hps Hat Hp Hm
    |pid description amount target source deadline Hpid Hdl Hamt Hst Hfit Hms Hnew Hps Hat Hp Hm
    |i actual Hi Hst Hdl Hms Hat Hps Hp Hm
    |i Hi Hst Hms Hat Hps Hp Hm
    |i approve Hi Hst Hor Hms Hat Hps Hp Hm
    |i m Hi Hfrom Hunpaid Hact Hms Hat Hps Hcred Hp Hm].
  1-3: split; intros j; rewrite Hms; auto.
  - split; intros j;
      (destruct (decide (j = nextMilestoneId s)) as [->|Hne];
       [rewrite Hnew; simpl|rewrite Hms by auto]); auto. congruence.
  - split; intros j;
      (destruct (decide (j = i)) as [->|Hne];
       [rewrite Hat; simpl|rewrite Hms by auto]); auto. discriminate.
  - split; intros j;
      (destruct (decide (j = i)) as [->|Hne];
       [rewrite Hat; simpl|rewrite Hms by auto]); auto; [discriminate|].
    intros _. apply Htime. destruct Hst as [-> | ->]; discriminate.
  - split; intros j;
      (destruct (decide (j = i)) as [->|Hne];
       [rewrite Hat; simpl|rewrite Hms by auto]); auto.
    + destruct approve; discriminate.
    + intros _. apply Htime. rewrite Hst. discriminate.
  - split; intros j;
      (destruct (decide (j = i)) as [->|Hne];
       [rewrite Hat; simpl|rewrite Hms by auto]); auto; [discriminate|].
    intros _. destruct Hfrom as [[Hd ->]|(_ & Hdl & actual & _ & ->)]; simpl; [|exact Hdl].
    apply Htime. rewrite Hd. discriminate.
Qed.

(** *** The invariants along a run *)

Definition Sound (s : State) : Prop :=
  Allocated s /\ Linked s /\ Accounted s /\ Recorded s.

Lemma init_Sound deployer : Sound (init deployer).
Proof.
  split; [apply init_Allocated|]. split; [apply init_Linked|].
  split; [|apply init_Recorded]. intros p. reflexivity.
Qed.

Lemma step_transition s tx : step s tx = s \/ transition tx.1 s (step s tx).
Proof.
  unfold step. destruct (call tx.1 tx.2 s) as [s'|err] eqn:Hc; [right|by left].
  by apply (call_transition _ tx.2).
Qed.

Lemma step_Sound s tx : Sound s -> Sound (step s tx).
Proof.
  intros (HA & HL & HC & HR).
  destruct (step_transition s tx) as [->|Htr]; [unfold Sound; tauto|].
  split; [|split; [|split]].
  - by eapply transition_Allocated.
  - by eapply transition_Linked.
  - by eapply transition_Accounted.
  - by eapply transition_Recorded.
Qed.

Lemma run_Sound deployer txs : Sound (run deployer txs).
Proof.
  unfold run. generalize (init_Sound deployer). generalize (init deployer).
  induction txs as [|tx txs IH]; intros s Hs; simpl; [assumption|].
  apply IH. by apply step_Sound.
Qed.

(** X1. Identifiers are issued in sequence: the existing projects and
    milestones are those numbered from 1 up to the counters, each record
    carries its own identifier, a milestone names an existing project, and a
    slot never issued still reads as the zero record. *)
Theorem identifiers_issued_in_sequence (deployer : address) (txs : list (Env * Call)) :
  let s := run deployer txs in
  1 <= nextProjectId s /\ 1 <= nextMilestoneId s
  /\ (forall p, is_ok (getProject p s) = true ->
                Project.id (projects s p) = p)
  /\ (forall i, is_ok (getMilestone i s) = true ->
                Milestone.id (milestones s i) = i
                /\ is_ok (getProject (Milestone.projectId (milestones s i)) s) = true)
  /\ (forall p, is_ok (getProject p s) = false -> projects s p = Project.zero)
  /\ (forall i, is_ok (getMilestone i s) = false -> milestones s i = Milestone.zero).
Proof.
  intros s. destruct (run_Sound deployer txs) as ([HnP HnM HfP HfM HidP HidM] & _).
  fold s in HnP, HnM, HfP, HfM, HidP, HidM.
  assert (HP : forall p, is_ok (getProject p s) = true <-> project_exists s p).
  { intros p. unfold getProject, projectExists, project_exists, require.
    destruct (bool_decide (0 < p)) eqn:H1, (bool_decide (p < nextProjectId s)) eqn:H2;
      simpl; rewrite ?bool_decide_eq_true, ?bool_decide_eq_false in *;
      split; try discriminate; try lia; auto. }
  assert (HM : forall i, is_ok (getMilestone i s) = true <-> milestone_exists s i).
  { intros i. unfold getMilestone, milestoneExists, milestone_exists, require.
    destruct (bool_decide (0 < i)) eqn:H1, (bool_decide (i < nextMilestoneId s)) eqn:H2;
      simpl; rewrite ?bool_decide_eq_true, ?bool_decide_eq_false in *;
      split; try discriminate; try lia; auto. }
  repeat split; auto.
  - intros p Hp. apply HidP. by apply HP.
  - apply HidM. by apply HM.
  - apply HP. apply HidM. by apply HM.
  - intros p Hp. apply HfP. rewrite <- HP. by rewrite Hp.
  - intros i Hi. apply HfM. rewrite <- HM. by rewrite Hi.
Qed.

(** X2. The milestone list of a project, as [getProjectMilestones] returns
    it, holds exactly the milestones that name the project, in strictly
    increasing order of their identifiers (the order of creation, without
    repetition), and the project's [milestoneExists] flags say the same. *)
Theorem project_lists_its_milestones (deployer : address) (txs : list (Env * Call))
    (p : uint256) :
  let s := run deployer txs in
  forall l, getProjectMilestones p s = Ok l ->
    StronglySorted N.lt l
    /\ (forall i, i ∈ l <-> is_ok (getMilestone i s) = true
                            /\ Milestone.projectId (milestones s i) = p)
    /\ (forall i, Project.milestoneExists (projects s p) i = true <-> i ∈ l).
Proof.
  intros s l Hl. destruct (run_Sound deployer txs) as (_ & [Hmem Hflag Hord] & _).
  fold s in Hmem, Hflag, Hord.
  unfold getProjectMilestones in Hl. inv_calls. subst l.
  split; [apply Hord|]. split; [|apply Hflag].
  intros i. rewrite Hmem. unfold milestone_exists, getMilestone, milestoneExists, require.
  destruct (bool_decide (0 < i)) eqn:H1, (bool_decide (i < nextMilestoneId s)) eqn:H2;
    simpl; rewrite ?bool_decide_eq_true, ?bool_decide_eq_false in *;
    split; intros [Ha Hb]; split; auto; try discriminate; try lia.
Qed.

Lemma project_lists_its_milestones_witness :
  getProjectMilestones 1 (run 1 overcommitted) = Ok [1; 2]
  /\ StronglySorted N.lt [1; 2].
Proof.
  assert (H : getProjectMilestones 1 (run 1 overcommitted) = Ok [1; 2])
    by (vm_compute; reflexivity).
  split; [exact H|].
  exact (proj1 (project_lists_its_milestones 1 overcommitted 1 [1; 2] H)).
Defined.

(** X3. The amount a project has received, [disbursedAmount], is the sum of
    [subsidyAmount] over the paid milestones of its list. *)
Theorem project_disbursed_is_paid (deployer : address) (txs : list (Env * Call))
    (p : uint256) :
  let s := run deployer txs in
  Project.disbursedAmount (projects s p)
  = sum_over (fun i => paid_amount (milestones s i)) (Project.milestoneIds (projects s p)).
Proof. intros s. destruct (run_Sound deployer txs) as (_ & _ & H & _). apply H. Qed.

(** X4. What a verdict leaves behind: a Pending milestone has no actual
    value, no verifier and no verification time and is unpaid; a milestone
    that is no longer Pending was verified no later than its deadline. *)
Theorem verdict_bookkeeping (deployer : address) (txs : list (Env * Call)) (i : uint256) :
  let m := milestones (run deployer txs) i in
  (Milestone.status m = MilestoneStatus.Pending ->
   Milestone.actualValue m = 0 /\ Milestone.verifiedAt m = 0
   /\ Milestone.verifiedBy m = 0 /\ Milestone.paid m = false)
  /\ (Milestone.status m ≠ MilestoneStatus.Pending ->
      Milestone.verifiedAt m <= Milestone.deadline m).
Proof.
  intros m. destruct (run_Sound deployer txs) as (_ & _ & _ & [H1 H2]).
  split; [apply H1|apply H2].
Qed.

(** *** The life of a milestone *)

(** The status changes the contract makes: a verdict on a Pending milestone, a
    dispute of a verdict, and the resolution of a dispute. *)
Definition moves (a b : MilestoneStatus.t) : bool :=
  match a, b with
  | MilestoneStatus.Pending, (MilestoneStatus.Verified | MilestoneStatus.Failed) => true
  | (MilestoneStatus.Verified | MilestoneStatus.Failed), MilestoneStatus.Disputed => true
  | MilestoneStatus.Disputed, (MilestoneStatus.Verified | MilestoneStatus.Failed) => true
  | _, _ => false
  end.

(** X5. In one transaction the status of a milestone stays as it is or makes
    one of the moves Pending -> Verified or Failed, Verified or Failed ->
    Disputed, Disputed -> Verified or Failed; a verdict on a Pending milestone
    is only given up to the deadline; and no milestone ever returns to
    Pending. *)
Theorem milestone_status_moves (deployer : address) (txs : list (Env * Call))
    (tx : Env * Call) (i : uint256) :
  let s := run deployer txs in
  let a := Milestone.status (milestones s i) in
  let b := Milestone.status (milestones (step s tx) i) in
  (a = b \/ moves a b = true)
  /\ (a = MilestoneStatus.Pending -> b ≠ MilestoneStatus.Pending ->
      timestamp tx.1 <= Milestone.deadline (milestones s i))
  /\ (b = MilestoneStatus.Pending -> a = MilestoneStatus.Pending).
Proof.
  intros s a b. subst a b.
  destruct (run_Sound deployer txs) as ([_ _ _ HfM _ _] & _). fold s in HfM.
  destruct (step_transition s tx) as [Heq|Htr].
  { rewrite Heq. repeat split; auto. congruence. }
  destruct Htr as
    [Hms Hps Hp Hm
    |producer name description amount Hms Hps Hnew Hp Hm
    |pid st Hpid Hms Hps Hat Hp Hm
    |pid description amount target source deadline Hpid Hdl Hamt Hst Hfit Hms Hnew Hps Hat Hp Hm
    |j actual Hi Hst Hdl Hms Hat Hps Hp Hm
    |j Hi Hst Hms Hat Hps Hp Hm
    |j approve Hi Hst Hor Hms Hat Hps Hp Hm
    |j m Hi Hfrom Hunpaid Hact Hms Hat Hps Hcred Hp Hm].
  1-3: rewrite Hms; repeat split; auto; congruence.
  - destruct (decide (i = nextMilestoneId s)) as [->|Hne].
    + rewrite Hnew, HfM by (unfold milestone_exists; lia). simpl.
      repeat split; auto. congruence.
    + rewrite Hms by auto. repeat split; auto. congruence.
  - destruct (decide (i = j)) as [->|Hne];
      [rewrite Hat, Hst; simpl|rewrite Hms by auto]; repeat split; auto; congruence.
  - destruct (decide (i = j)) as [->|Hne];
      [rewrite Hat; simpl; destruct Hst as [Hst|Hst]; rewrite Hst|rewrite Hms by auto];
      repeat split; auto; congruence.
  - destruct (decide (i = j)) as [->|Hne];
      [rewrite Hat, Hst; simpl|rewrite Hms by auto]; repeat split; auto; try congruence;
      destruct approve; auto; discriminate.
  - destruct (decide (i = j)) as [->|Hne];
      [rewrite Hat; simpl|rewrite Hms by auto]; repeat split; auto; try congruence.
    + destruct Hfrom as [[-> _]|(-> & _)]; auto.
    + intros Ha _. destruct Hfrom as [[Hd _]|(_ & Hdl & _)]; [congruence|exact Hdl].
Qed.

(** *** Nothing issued is rewritten *)

Definition same_terms (m m' : Milestone.t) : Prop :=
  Milestone.id m' = Milestone.id m
  /\ Milestone.projectId m' = Milestone.projectId m
  /\ Milestone.description m' = Milestone.description m
  /\ Milestone.subsidyAmount m' = Milestone.subsidyAmount m
  /\ Milestone.targetValue m' = Milestone.targetValue m
  /\ Milestone.verificationSource m' = Milestone.verificationSource m
  /\ Milestone.deadline m' = Milestone.deadline m.

Definition same_project_terms (p p' : Project.t) : Prop :=
  Project.id p' = Project.id p
  /\ Project.producer p' = Project.producer p
  /\ Project.name p' = Project.name p
  /\ Project.description p' = Project.description p
  /\ Project.totalSubsidyAmount p' = Project.totalSubsidyAmount p
  /\ Project.createdAt p' = Project.createdAt p.

(** The later state [s'] keeps what [s] has issued. *)
Record extends (s s' : State) : Prop := {
  ex_nextP : nextProjectId s <= nextProjectId s';
  ex_nextM : nextMilestoneId s <= nextMilestoneId s';
  ex_milestone : forall i, milestone_exists s i ->
      same_terms (milestones s i) (milestones s' i)
      /\ (Milestone.paid (milestones s i) = true -> Milestone.paid (milestones s' i) = true);
  ex_project : forall p, project_exists s p ->
      same_project_terms (projects s p) (projects s' p)
      /\ Project.milestoneIds (projects s p) `prefix_of` Project.milestoneIds (projects s' p)
      /\ Project.disbursedAmount (projects s p) <= Project.disbursedAmount (projects s' p)
}.

Lemma same_terms_refl m : same_terms m m.
Proof. by repeat split. Qed.

Lemma same_project_terms_refl p : same_project_terms p p.
Proof. by repeat split. Qed.

Lemma extends_refl s : extends s s.
Proof.
  split; try lia; intros x _; repeat split; auto; lia.
Qed.

Lemma extends_trans s1 s2 s3 : extends s1 s2 -> extends s2 s3 -> extends s1 s3.
Proof.
  intros [HP HM Hm Hp] [HP' HM' Hm' Hp']. split; try lia.
  - intros i Hi. destruct (Hm i Hi) as [Ht Hpaid].
    destruct (Hm' i) as [Ht' Hpaid']; [unfold milestone_exists in *; lia|].
    split; [|auto].
    unfold same_terms in *.
    destruct Ht as (? & ? & ? & ? & ? & ? & ?), Ht' as (? & ? & ? & ? & ? & ? & ?).
    repeat split; congruence.
  - intros p Hx. destruct (Hp p Hx) as (Ht & Hl & Hd).
    destruct (Hp' p) as (Ht' & Hl' & Hd'); [unfold project_exists in *; lia|].
    split; [|split; [by etrans|lia]].
    unfold same_project_terms in *.
    destruct Ht as (? & ? & ? & ? & ? & ?), Ht' as (? & ? & ? & ? & ? & ?).
    repeat split; congruence.
Qed.

Lemma transition_extends e s s' : transition e s s' -> extends s s'.
Proof.
  intros Htr.
  destruct Htr as
    [Hms Hps Hp Hm
    |producer name description amount Hms Hps Hnew Hp Hm
    |pid st Hpid Hms Hps Hat Hp Hm
    |pid description amount target source deadline Hpid Hdl Hamt Hst Hfit Hms Hnew Hps Hat Hp Hm
    |j actual Hi Hst Hdl Hms Hat Hps Hp Hm
    |j Hi Hst Hms Hat Hps Hp Hm
    |j approve Hi Hst Hor Hms Hat Hps Hp Hm
    |j m Hi Hfrom Hunpaid Hact Hms Hat Hps Hcred Hp Hm];
    (split; [lia|lia| |]).
  - intros i _. rewrite Hms. split; [apply same_terms_refl|auto].
  - intros p _. rewrite Hps. split; [apply same_project_terms_refl|]. split; [done|lia].
  - intros i _. rewrite Hms. split; [apply same_terms_refl|auto].
  - intros p Hx. rewrite Hps by (unfold project_exists in Hx; lia).
    split; [apply same_project_terms_refl|]. split; [done|lia].
  - intros i _. rewrite Hms. split; [apply same_terms_refl|auto].
  - intros p _. destruct (decide (p = pid)) as [->|Hne];
      [rewrite Hat; simpl|rewrite Hps by auto];
      (split; [by repeat split|]; split; [done|lia]).
  - intros i Hx. rewrite Hms by (unfold milestone_exists in Hx; lia).
    split; [apply same_terms_refl|auto].
  - intros p _. destruct (decide (p = pid)) as [->|Hne];
      [rewrite Hat; simpl|rewrite Hps by auto];
      (split; [by repeat split|]; split; [|lia]); [by apply prefix_app_r|done].
  - intros i _. destruct (decide (i = j)) as [->|Hne];
      [rewrite Hat; simpl|rewrite Hms by auto]; (split; [by repeat split|auto]).
  - intros p _. rewrite Hps. split; [apply same_project_terms_refl|]. split; [done|lia].
  - intros i _. destruct (decide (i = j)) as [->|Hne];
      [rewrite Hat; simpl|rewrite Hms by auto]; (split; [by repeat split|auto]).
  - intros p _. rewrite Hps. split; [apply same_project_terms_refl|]. split; [done|lia].
  - intros i _. destruct (decide (i = j)) as [->|Hne];
      [rewrite Hat; simpl|rewrite Hms by auto]; (split; [by repeat split|auto]).
  - intros p _. rewrite Hps. split; [apply same_project_terms_refl|]. split; [done|lia].
  - intros i _. destruct (decide (i = j)) as [->|Hne];
      [rewrite Hat; simpl|rewrite Hms by auto]; (split; [|auto]).
    + destruct Hfrom as [[_ ->]|(_ & _ & actual & _ & ->)]; by repeat split.
    + apply same_terms_refl.
  - intros p _. destruct (decide (p = Milestone.projectId (milestones s j))) as [->|Hne];
      [rewrite Hcred|rewrite Hps by auto].
    + unfold credited. destruct (_ && _); simpl; (split; [by repeat split|]; split; [done|lia]).
    + split; [apply same_project_terms_refl|]. split; [done|lia].
Qed.

Lemma fold_extends txs s : extends s (fold_left step txs s).
Proof.
  revert s. induction txs as [|tx txs IH]; intros s; simpl; [apply extends_refl|].
  eapply extends_trans; [|apply IH].
  destruct (step_transition s tx) as [->|Htr]; [apply extends_refl|].
  by eapply transition_extends.
Qed.

(** X6. Nothing issued is rewritten: whatever transactions follow, the
    counters do not go down, an existing milestone keeps its identifier,
    project, description, amount, target, source and deadline (and stays paid
    once paid), and an existing project keeps its identifier, producer, name,
    description, budget and creation time, its milestone list only grows at
    the end and its disbursed amount does not go down. *)
Theorem issued_records_are_kept (deployer : address) (txs later : list (Env * Call)) :
  extends (run deployer txs) (run deployer (txs ++ later)).
Proof. unfold run. rewrite fold_left_app. apply fold_extends. Qed.

(** *** Payment and completion *)

Lemma allMilestonesCompleted_spec ms ids :
  allMilestonesCompleted ms ids = true
  <-> Forall (fun i => Milestone.status (ms i) = MilestoneStatus.Verified
                       /\ Milestone.paid (ms i) = true) ids.
Proof.
  induction ids as [|i ids IH]; simpl.
  - split; [constructor|reflexivity].
  - rewrite Forall_cons.
    destruct (bool_decide (Milestone.status (ms i) ≠ MilestoneStatus.Verified)) eqn:Hs;
      [apply bool_decide_eq_true in Hs|apply bool_decide_eq_false in Hs]; simpl.
    + split; [discriminate|]. intros [[Hv _] _]. contradiction.
    + destruct (Milestone.paid (ms i)); simpl.
      * rewrite IH. split; [intros Hf; split; [split; [|reflexivity]|exact Hf]|tauto].
        by destruct (decide (Milestone.status (ms i) = MilestoneStatus.Verified)).
      * split; [discriminate|]. intros [[_ Hp] _]. discriminate.
Qed.

(** X7. A milestone is paid only while its project is Active.  The payment
    adds the milestone's amount to the project's [disbursedAmount], leaves the
    other projects alone, and moves the project to Completed exactly when its
    milestone list is not empty and every milestone on it is then Verified
    and paid; otherwise the project stays Active. *)
Theorem payment_goes_to_active_project (s : State) (tx : Env * Call) (i : uint256) :
  Milestone.paid (milestones s i) = false ->
  Milestone.paid (milestones (step s tx) i) = true ->
  let s' := step s tx in
  let pid := Milestone.projectId (milestones s i) in
  Project.status (projects s pid) = ProjectStatus.Active
  /\ Project.disbursedAmount (projects s' pid)
     = Project.disbursedAmount (projects s pid) + Milestone.subsidyAmount (milestones s i)
  /\ (forall p, p ≠ pid -> projects s' p = projects s p)
  /\ (Project.status (projects s' pid) = ProjectStatus.Completed
      \/ Project.status (projects s' pid) = ProjectStatus.Active)
  /\ (Project.status (projects s' pid) = ProjectStatus.Completed
      <-> Project.milestoneIds (projects s' pid) ≠ []
          /\ Forall (fun j => Milestone.status (milestones s' j) = MilestoneStatus.Verified
                              /\ Milestone.paid (milestones s' j) = true)
                    (Project.milestoneIds (projects s' pid))).
Proof.
  intros Hu Hp s' pid. subst s' pid.
  destruct (step_transition s tx) as [Heq|Htr]; [rewrite Heq in Hp; congruence|].
  destruct Htr as
    [Hms Hps Hnp Hm
    |producer name description amount Hms Hps Hnew Hnp Hm
    |pid st Hpid Hms Hps Hat Hnp Hm
    |pid description amount target source deadline Hpid Hdl Hamt Hst Hfit Hms Hnew Hps Hat Hnp Hm
    |j actual Hi Hst Hdl Hms Hat Hps Hnp Hm
    |j Hi Hst Hms Hat Hps Hnp Hm
    |j approve Hi Hst Hor Hms Hat Hps Hnp Hm
    |j m Hi Hfrom Hunpaid Hact Hms Hat Hps Hcred Hnp Hm].
  1-3: rewrite Hms in Hp; congruence.
  - destruct (decide (i = nextMilestoneId s)) as [->|Hne];
      [rewrite Hnew in Hp; discriminate|rewrite Hms in Hp by auto; congruence].
  - destruct (decide (i = j)) as [->|Hne];
      [rewrite Hat in Hp; simpl in Hp|rewrite Hms in Hp by auto]; congruence.
  - destruct (decide (i = j)) as [->|Hne];
      [rewrite Hat in Hp; simpl in Hp|rewrite Hms in Hp by auto]; congruence.
  - destruct (decide (i = j)) as [->|Hne];
      [rewrite Hat in Hp; simpl in Hp|rewrite Hms in Hp by auto]; congruence.
  - destruct (decide (i = j)) as [->|Hne]; [|rewrite Hms in Hp by auto; congruence].
    split; [exact Hact|]. rewrite Hcred, credited_disbursed.
    split; [reflexivity|]. split; [exact Hps|].
    destruct (credited_lists (Milestone.subsidyAmount (milestones s j))
                (allMilestonesCompleted (milestones (step s tx))
                   (Project.milestoneIds (projects s (Milestone.projectId (milestones s j))))
                 && (0 <? length (Project.milestoneIds
                                    (projects s (Milestone.projectId (milestones s j)))))%nat)
                (projects s (Milestone.projectId (milestones s j)))) as [-> _].
    unfold credited.
    destruct (allMilestonesCompleted _ _) eqn:Hall; simpl.
    + apply allMilestonesCompleted_spec in Hall.
      destruct (Project.milestoneIds (projects s (Milestone.projectId (milestones s j))))
        as [|k ks] eqn:Hl; simpl.
      * rewrite Hact. split; [auto|]. split; [discriminate|]. intros [Hn _]. contradiction.
      * split; [auto|]. split; [|reflexivity]. intros _. split; [discriminate|exact Hall].
    + rewrite Hact. split; [auto|]. split; [discriminate|].
      intros [_ Hf]. apply allMilestonesCompleted_spec in Hf. congruence.
Qed.

Lemma payment_goes_to_active_project_witness :
  let s := run 1 setup in
  let s' := step s (oracle, VerifyMilestone 1 1500 true) in
  let pid := Milestone.projectId (milestones s 1) in
  Project.status (projects s pid) = ProjectStatus.Active
  /\ Project.disbursedAmount (projects s' pid)
     = Project.disbursedAmount (projects s pid) + Milestone.subsidyAmount (milestones s 1).
Proof.
  intros s s' pid.
  destruct (payment_goes_to_active_project s (oracle, VerifyMilestone 1 1500 true) 1)
    as (Hact & Hd & _); [vm_compute; reflexivity..|].
  split; [exact Hact|exact Hd].
Defined.

(** *** The funds and the event log *)

Fixpoint funds_added (log : list Event) : uint256 :=
  match log with
  | [] => 0
  | FundsAdded amount _ :: rest => amount + funds_added rest
  | _ :: rest => funds_added rest
  end.

Fixpoint funds_disbursed (log : list Event) : uint256 :=
  match log with
  | [] => 0
  | SubsidyDisbursed _ _ _ amount :: rest => amount + funds_disbursed rest
  | _ :: rest => funds_disbursed rest
  end.

Fixpoint funds_withdrawn (log : list Event) : uint256 :=
  match log with
  | [] => 0
  | FundsWithdrawn amount _ :: rest => amount + funds_withdrawn rest
  | _ :: rest => funds_withdrawn rest
  end.

Lemma funds_added_app l1 l2 : funds_added (l1 ++ l2) = funds_added l1 + funds_added l2.
Proof. induction l1 as [|[] l1 IH]; simpl; lia. Qed.

Lemma funds_disbursed_app l1 l2 :
  funds_disbursed (l1 ++ l2) = funds_disbursed l1 + funds_disbursed l2.
Proof. induction l1 as [|[] l1 IH]; simpl; lia. Qed.

Lemma funds_withdrawn_app l1 l2 :
  funds_withdrawn (l1 ++ l2) = funds_withdrawn l1 + funds_withdrawn l2.
Proof. induction l1 as [|[] l1 IH]; simpl; lia. Qed.

Record Ledgered (s : State) : Prop := {
  lg_pool : totalSubsidyPool s = funds_added (events s);
  lg_disbursed : totalDisbursed s = funds_disbursed (events s);
  lg_balance : balance s + funds_disbursed (events s) + funds_withdrawn (events s)
               = funds_added (events s)
}.

(** The part of the log a call appends moves the funds as the log says. *)
Definition logs (s s' : State) : Prop :=
  exists evs,
    events s' = events s ++ evs
    /\ totalSubsidyPool s' = totalSubsidyPool s + funds_added evs
    /\ totalDisbursed s' = totalDisbursed s + funds_disbursed evs
    /\ balance s' + funds_disbursed evs + funds_withdrawn evs = balance s + funds_added evs.

Lemma logs_Ledgered s s' : logs s s' -> Ledgered s -> Ledgered s'.
Proof.
  intros (evs & He & Hp & Hd & Hb) [H1 H2 H3].
  split; rewrite He, ?funds_added_app, ?funds_disbursed_app, ?funds_withdrawn_app; lia.
Qed.

Lemma logs_silent s s' evs :
  events s' = events s ++ evs ->
  funds_added evs = 0 -> funds_disbursed evs = 0 -> funds_withdrawn evs = 0 ->
  totalSubsidyPool s' = totalSubsidyPool s ->
  totalDisbursed s' = totalDisbursed s ->
  balance s' = balance s ->
  logs s s'.
Proof. intros He H1 H2 H3 Hp Hd Hb. exists evs. rewrite H1, H2, H3. repeat split; auto; lia. Qed.

Lemma grantRole_log e r a s :
  exists evs, events (_grantRole e r a s) = events s ++ evs
    /\ funds_added evs = 0 /\ funds_disbursed evs = 0 /\ funds_withdrawn evs = 0.
Proof.
  unfold _grantRole. destruct (hasRole r a s); simpl;
    [exists []; by rewrite app_nil_r|eexists; split; [reflexivity|auto]].
Qed.

Lemma revokeRole_log e r a s :
  exists evs, events (_revokeRole e r a s) = events s ++ evs
    /\ funds_added evs = 0 /\ funds_disbursed evs = 0 /\ funds_withdrawn evs = 0.
Proof.
  unfold _revokeRole. destruct (hasRole r a s); simpl;
    [eexists; split; [reflexivity|auto]|exists []; by rewrite app_nil_r].
Qed.

Lemma checkProjectCompletion_log pid s :
  exists evs, events (_checkProjectCompletion pid s) = events s ++ evs
    /\ funds_added evs = 0 /\ funds_disbursed evs = 0 /\ funds_withdrawn evs = 0.
Proof.
  unfold _checkProjectCompletion. destruct (_ && _); simpl;
    [eexists; split; [reflexivity|auto]|exists []; by rewrite app_nil_r].
Qed.

Lemma processMilestonePayment_logs e i s s' :
  _processMilestonePayment e i s = Ok s' ->
  exists evs, events s' = events s ++ evs
    /\ funds_added evs = 0
    /\ funds_disbursed evs = Milestone.subsidyAmount (milestones s i)
    /\ funds_withdrawn evs = 0.
Proof.
  intros H. unfold _processMilestonePayment in H. inv_calls. subst s'.
  match goal with |- context [_checkProjectCompletion ?p ?t] =>
    destruct (checkProjectCompletion_log p t) as (evs & -> & Ha & Hd & Hw) end.
  simpl. eexists. rewrite <- app_assoc. split; [reflexivity|].
  simpl. rewrite Ha, Hd, Hw. repeat split; auto. lia.
Qed.

Ltac silent evs := apply (logs_silent _ _ evs); simpl; rewrite <- ?app_assoc; auto; try lia.

Lemma call_logs e c s s' : call e c s = Ok s' -> logs s s'.
Proof.
  unfold call. destruct (negb (payable c) && bool_decide (0 < value e)) eqn:Hpay; [discriminate|].
  assert (Hv : payable c = false -> balance s + value e = balance s).
  { intros Hc. rewrite Hc in Hpay. simpl in Hpay. apply bool_decide_eq_false in Hpay. lia. }
  destruct c; simpl in Hv; intros H.
  - unfold addFunds, onlyGovernment in H. inv_calls. subst s'.
    eexists. simpl. split; [reflexivity|]. simpl. repeat split; lia.
  - unfold registerProject, grantRole, onlyGovernment, onlyRole in H. inv_calls. subst.
    match goal with |- context [_grantRole ?e ?r ?a ?t] =>
      destruct (grantRole_log e r a t) as (evs & He & Ha & Hd & Hw);
      destruct (grantRole_frame e r a t) as (_ & _ & Hp' & Hd' & Hb') end.
    apply (logs_silent _ _ (evs ++ [ProjectRegistered (nextProjectId s) _producer _name
                                      _totalSubsidyAmount]));
      simpl; rewrite ?He, ?Hp', ?Hd', ?Hb', ?funds_added_app, ?funds_disbursed_app,
               ?funds_withdrawn_app; simpl; rewrite <- ?app_assoc; auto; lia.
  - unfold addMilestone, onlyGovernment, projectExists in H. inv_calls. subst.
    match goal with |- context [if ?b then _ else _] => destruct b end.
    + silent [ProjectStatusChanged _projectId ProjectStatus.Pending ProjectStatus.Active;
              MilestoneAdded _projectId (nextMilestoneId s) _description _subsidyAmount].
    + silent [MilestoneAdded _projectId (nextMilestoneId s) _description _subsidyAmount].
  - unfold verifyMilestone in H. inv_calls. subst s'.
    match goal with Hi : (if ?b then _ else _) = Ok _ |- _ =>
      destruct b eqn:Hcond; rename Hi into Hres end.
    + pose proof Hres as Hres'.
      apply processMilestonePayment_logs in Hres as (evs & He & Ha & Hd & Hw).
      apply processMilestonePayment_Ok in Hres' as (_ & _ & _ & _ & Hp' & Hd' & Hb').
      simpl in *. rewrite !fn_lookup_insert in *. simpl in *.
      exists (evs ++ [MilestoneVerified _milestoneId _actualValue (sender e)]).
      simpl. rewrite He, ?funds_added_app, ?funds_disbursed_app, ?funds_withdrawn_app,
        <- ?app_assoc. simpl. rewrite Ha, Hd, Hw. repeat split; auto; lia.
    + inv_calls. subst. silent [MilestoneVerified _milestoneId _actualValue (sender e)].
  - unfold updateProjectStatus, onlyGovernment, projectExists in H. inv_calls. subst.
    silent [ProjectStatusChanged _projectId (Project.status (projects s _projectId)) _newStatus].
  - unfold disputeMilestone in H. inv_calls. subst. silent (@nil Event). by rewrite app_nil_r.
  - unfold resolveDispute, onlyAuditor in H. inv_calls. simpl in *.
    destruct _approve.
    + match goal with Hi : (if _ then _ else _) = Ok _ |- _ =>
        rewrite fn_lookup_insert in Hi; simpl in Hi; rename Hi into Hres end.
      destruct (negb (Milestone.paid (milestones s _milestoneId))) eqn:Hnp.
      * pose proof Hres as Hres'.
        apply processMilestonePayment_logs in Hres as (evs & He & Ha & Hd & Hw).
        apply processMilestonePayment_Ok in Hres' as (_ & _ & _ & _ & Hp' & Hd' & Hb').
        simpl in *. rewrite !fn_lookup_insert in *. simpl in *.
        exists evs. rewrite He, Ha, Hd, Hw. repeat split; auto; lia.
      * inv_calls. subst. silent (@nil Event). by rewrite app_nil_r.
    + inv_calls. subst. silent (@nil Event). by rewrite app_nil_r.
  - unfold emergencyWithdraw, onlyGovernment in H. inv_calls. subst. simpl in *.
    exists [FundsWithdrawn _amount _recipient]. simpl. repeat split; auto; lia.
  - unfold pause, _pause, onlyGovernment in H. inv_calls. subst. silent [Paused (sender e)].
  - unfold unpause, _unpause, onlyGovernment in H. inv_calls. subst. silent [Unpaused (sender e)].
  - unfold grantRole, onlyRole in H. inv_calls. subst.
    match goal with |- context [_grantRole ?e ?r ?a ?t] =>
      destruct (grantRole_log e r a t) as (evs & He & Ha & Hd & Hw);
      destruct (grantRole_frame e r a t) as (_ & _ & Hp' & Hd' & Hb') end.
    apply (logs_silent _ _ evs); rewrite ?He, ?Hp', ?Hd', ?Hb'; simpl; auto.
  - unfold revokeRole, onlyRole in H. inv_calls. subst.
    match goal with |- context [_revokeRole ?e ?r ?a ?t] =>
      destruct (revokeRole_log e r a t) as (evs & He & Ha & Hd & Hw);
      destruct (revokeRole_frame e r a t) as (_ & _ & Hp' & Hd' & Hb') end.
    apply (logs_silent _ _ evs); rewrite ?He, ?Hp', ?Hd', ?Hb'; simpl; auto.
  - unfold renounceRole in H. inv_calls. subst.
    match goal with |- context [_revokeRole ?e ?r ?a ?t] =>
      destruct (revokeRole_log e r a t) as (evs & He & Ha & Hd & Hw);
      destruct (revokeRole_frame e r a t) as (_ & _ & Hp' & Hd' & Hb') end.
    apply (logs_silent _ _ evs); rewrite ?He, ?Hp', ?Hd', ?Hb'; simpl; auto.
  - unfold receive in H. inv_calls. subst s'.
    eexists. simpl. split; [reflexivity|]. simpl. repeat split; lia.
Qed.

Lemma init_Ledgered deployer : Ledgered (init deployer).
Proof. split; reflexivity. Qed.

Lemma run_Ledgered deployer txs : Ledgered (run deployer txs).
Proof.
  unfold run. generalize (init_Ledgered deployer). generalize (init deployer).
  induction txs as [|tx txs IH]; intros s Hs; simpl; [assumption|].
  apply IH. unfold step. destruct (call tx.1 tx.2 s) as [s'|err] eqn:Hc; [|assumption].
  eapply logs_Ledgered; [|exact Hs]. by eapply call_logs.
Qed.

(** With forced ether [f] the balance holds [f] more than the log accounts
    for. *)
Record Funded (f : uint256) (s : State) : Prop := {
  fd_pool : totalSubsidyPool s = funds_added (events s);
  fd_disbursed : totalDisbursed s = funds_disbursed (events s);
  fd_balance : balance s + funds_disbursed (events s) + funds_withdrawn (events s)
               = funds_added (events s) + f
}.

Lemma logs_Funded f s s' : logs s s' -> Funded f s -> Funded f s'.
Proof.
  intros (evs & He & Hp & Hd & Hb) [H1 H2 H3].
  split; rewrite He, ?funds_added_app, ?funds_disbursed_app, ?funds_withdrawn_app; lia.
Qed.

Lemma move_Funded f s m : Funded f s -> Funded (f + forced_total [m]) (move s m).
Proof.
  intros Hs. destruct m as [tx|amount]; simpl; rewrite !N.add_0_r.
  - unfold step. destruct (call tx.1 tx.2 s) as [s'|err] eqn:Hc; [|assumption].
    eapply logs_Funded; [|exact Hs]. by eapply call_logs.
  - destruct Hs as [H1 H2 H3]. split; simpl; auto. lia.
Qed.

Lemma fold_move_Funded moves f s :
  Funded f s -> Funded (f + forced_total moves) (fold_left move moves s).
Proof.
  revert f s. induction moves as [|m moves IH]; intros f s Hs.
  - simpl. by rewrite N.add_0_r.
  - rewrite forced_total_cons, N.add_assoc. simpl fold_left. apply IH.
    by apply move_Funded.
Qed.

Lemma play_Funded deployer moves : Funded (forced_total moves) (play deployer moves).
Proof.
  unfold play.
  replace (forced_total moves) with (0 + forced_total moves) by lia.
  apply fold_move_Funded. split; reflexivity.
Qed.

(** X8. The counters agree with the event log, after any transactions and any
    ether forced into the contract: [totalSubsidyPool] is the sum of the
    amounts of the FundsAdded events, [totalDisbursed] the sum of the
    SubsidyDisbursed events, and the ether the contract holds, with what was
    disbursed and what emergency withdrawals took out, is what was added plus
    what was forced in.  So when [getAvailableSubsidy] returns, its result
    and the forced ether make up the balance and the withdrawals; without
    forced ether it always returns, the balance plus the withdrawals.  An
    emergency withdrawal lowers the balance and neither counter, so the
    available subsidy can exceed the balance. *)
Theorem funds_follow_the_log (deployer : address) (moves : list Move) :
  let s := play deployer moves in
  totalSubsidyPool s = funds_added (events s)
  /\ totalDisbursed s = funds_disbursed (events s)
  /\ getContractBalance s + funds_disbursed (events s) + funds_withdrawn (events s)
     = funds_added (events s) + forced_total moves
  /\ (forall available,
        getAvailableSubsidy s = Ok available ->
        available + forced_total moves
        = getContractBalance s + funds_withdrawn (events s))
  /\ (forced_total moves = 0 ->
      getAvailableSubsidy s = Ok (getContractBalance s + funds_withdrawn (events s))).
Proof.
  intros s. destruct (play_Funded deployer moves) as [H1 H2 H3]. fold s in H1, H2, H3.
  unfold getContractBalance, getAvailableSubsidy, checked_sub.
  split; [exact H1|]. split; [exact H2|]. split; [exact H3|]. split.
  - intros available Ha.
    destruct (bool_decide (totalDisbursed s <= totalSubsidyPool s)) eqn:Hle;
      [|discriminate].
    apply bool_decide_eq_true in Hle. injection Ha as <-. lia.
  - intros Hf. rewrite bool_decide_true by lia. f_equal. lia.
Qed.

(** *** The producers' index *)

Lemma transition_producer e s s' p :
  transition e s s' -> p ≠ nextProjectId s ->
  Project.producer (projects s' p) = Project.producer (projects s p).
Proof.
  intros Htr Hne.
  destruct Htr as
    [Hms Hps Hp Hm
    |producer name description amount Hms Hps Hnew Hp Hm
    |pid st Hpid Hms Hps Hat Hp Hm
    |pid description amount target source deadline Hpid Hdl Hamt Hst Hfit Hms Hnew Hps Hat Hp Hm
    |i actual Hi Hst Hdl Hms Hat Hps Hp Hm
    |i Hi Hst Hms Hat Hps Hp Hm
    |i approve Hi Hst Hor Hms Hat Hps Hp Hm
    |i m Hi Hfrom Hunpaid Hact Hms Hat Hps Hcred Hp Hm];
    rewrite ?Hps by auto; auto.
  - destruct (decide (p = pid)) as [->|Hx]; [by rewrite Hat|by rewrite Hps].
  - destruct (decide (p = pid)) as [->|Hx]; [by rewrite Hat|by rewrite Hps].
  - destruct (decide (p = Milestone.projectId (milestones s i))) as [->|Hx];
      [rewrite Hcred; unfold credited; by destruct (_ && _)|by rewrite Hps].
Qed.

Lemma checkProjectCompletion_index pid s :
  producerProjects (_checkProjectCompletion pid s) = producerProjects s.
Proof. unfold _checkProjectCompletion. by destruct (_ && _). Qed.

Lemma processMilestonePayment_index e i s s' :
  _processMilestonePayment e i s = Ok s' -> producerProjects s' = producerProjects s.
Proof.
  intros H. unfold _processMilestonePayment in H. inv_calls. subst s'.
  by rewrite checkProjectCompletion_index.
Qed.

Lemma grantRole_index e r a s : producerProjects (_grantRole e r a s) = producerProjects s.
Proof. unfold _grantRole. by destruct (hasRole _ _ _). Qed.

Lemma revokeRole_index e r a s : producerProjects (_revokeRole e r a s) = producerProjects s.
Proof. unfold _revokeRole. by destruct (hasRole _ _ _). Qed.

Lemma grantRole_holds e r a s : hasRole r a (_grantRole e r a s) = true.
Proof.
  unfold _grantRole. destruct (hasRole r a s) eqn:Hr; [exact Hr|].
  unfold hasRole. simpl. by rewrite !fn_lookup_insert.
Qed.

(** What a call does to the index: [registerProject] appends the new
    identifier to the list of the producer, every other call leaves the index
    and the counter alone. *)
Lemma call_index e c s s' :
  call e c s = Ok s' ->
  match c with
  | RegisterProject producer _ _ _ =>
      producer ≠ 0
      /\ producerProjects s'
         = <[producer := producerProjects s producer ++ [nextProjectId s]]> (producerProjects s)
      /\ Project.producer (projects s' (nextProjectId s)) = producer
      /\ nextProjectId s' = nextProjectId s + 1
  | _ => producerProjects s' = producerProjects s /\ nextProjectId s' = nextProjectId s
  end.
Proof.
  unfold call. destruct (negb (payable c) && bool_decide (0 < value e)); [discriminate|].
  destruct c; intros H.
  - unfold addFunds, onlyGovernment in H. inv_calls. by subst s'.
  - unfold registerProject, grantRole, onlyGovernment, onlyRole in H. inv_calls. subst.
    frame_roles. simpl. rewrite grantRole_index, Hgp, Hgn. simpl.
    by rewrite fn_lookup_insert.
  - unfold addMilestone, onlyGovernment, projectExists in H. inv_calls. subst.
    by match goal with |- context [if ?b then _ else _] => destruct b end.
  - unfold verifyMilestone in H. inv_calls. subst s'.
    match goal with Hi : (if ?b then _ else _) = Ok _ |- _ =>
      destruct b eqn:Hcond; rename Hi into Hres end.
    + pose proof Hres as Hres'.
      apply processMilestonePayment_index in Hres.
      apply processMilestonePayment_projects in Hres' as (_ & _ & _ & _ & _ & Hn).
      simpl in *. by rewrite Hres, Hn.
    + inv_calls. by subst.
  - unfold updateProjectStatus, onlyGovernment, projectExists in H. inv_calls. by subst.
  - unfold disputeMilestone in H. inv_calls. by subst.
  - unfold resolveDispute, onlyAuditor in H. inv_calls. simpl in *.
    destruct _approve; [|inv_calls; by subst].
    match goal with Hi : (if ?b then _ else _) = Ok _ |- _ =>
      destruct b eqn:Hcond; rename Hi into Hres end; [|inv_calls; by subst].
    pose proof Hres as Hres'.
    apply processMilestonePayment_index in Hres.
    apply processMilestonePayment_projects in Hres' as (_ & _ & _ & _ & _ & Hn).
    simpl in *. by rewrite Hres, Hn.
  - unfold emergencyWithdraw, onlyGovernment in H. inv_calls. by subst.
  - unfold pause, _pause, onlyGovernment in H. inv_calls. by subst.
  - unfold unpause, _unpause, onlyGovernment in H. inv_calls. by subst.
  - unfold grantRole, onlyRole in H. inv_calls. subst. frame_roles.
    by rewrite grantRole_index, Hgn.
  - unfold revokeRole, onlyRole in H. inv_calls. subst. frame_roles.
    by rewrite revokeRole_index, Hgn.
  - unfold renounceRole in H. inv_calls. subst. frame_roles.
    by rewrite revokeRole_index, Hgn.
  - unfold receive in H. inv_calls. by subst s'.
Qed.

Record Indexed (s : State) : Prop := {
  ix_next : 1 <= nextProjectId s;
  ix_member : forall a p,
      p ∈ producerProjects s a
      <-> project_exists s p /\ Project.producer (projects s p) = a;
  ix_order : forall a, StronglySorted N.lt (producerProjects s a);
  ix_producer : forall p, project_exists s p -> Project.producer (projects s p) ≠ 0
}.

Lemma init_Indexed deployer : Indexed (init deployer).
Proof.
  assert (HP : nextProjectId (init deployer) = 1) by reflexivity.
  assert (HL : forall a, producerProjects (init deployer) a = []) by reflexivity.
  split; unfold project_exists; rewrite ?HP.
  - lia.
  - intros a p. rewrite HL. split; [inversion 1|lia].
  - intros a. rewrite HL. constructor.
  - intros p. lia.
Qed.

Lemma StronglySorted_snoc (l : list N) (x : N) :
  StronglySorted N.lt l -> (forall y, y ∈ l -> y < x) -> StronglySorted N.lt (l ++ [x]).
Proof.
  induction 1 as [|a l Hl IH Ha]; intros Hx; simpl.
  - repeat constructor.
  - constructor.
    + apply IH. intros y Hy. apply Hx. by right.
    + apply Forall_app. split; [exact Ha|]. constructor; [|constructor].
      apply Hx. by left.
Qed.

Lemma step_Indexed s tx : Indexed s -> Indexed (step s tx).
Proof.
  intros [Hnext Hmem Hord Hprod]. unfold step.
  destruct (call tx.1 tx.2 s) as [s'|err] eqn:Hc; [|by split].
  pose proof (call_transition _ _ _ _ Hc) as Htr.
  pose proof (call_index _ _ _ _ Hc) as Hix.
  assert (Hkeep : producerProjects s' = producerProjects s /\ nextProjectId s' = nextProjectId s ->
                  Indexed s').
  { intros [Hl Hn]. split; unfold project_exists; rewrite ?Hl, ?Hn.
    - exact Hnext.
    - intros a p. rewrite Hmem. unfold project_exists.
      split; intros [Hx Hp]; (split; [exact Hx|]);
        [rewrite (transition_producer _ _ _ _ Htr) by lia
        |rewrite (transition_producer _ _ _ _ Htr) in Hp by lia]; exact Hp.
    - exact Hord.
    - intros p Hx. rewrite (transition_producer _ _ _ _ Htr) by lia. by apply Hprod. }
  destruct tx.2; try (apply Hkeep; exact Hix).
  destruct Hix as (Hnz & Hl & Hnew & Hn).
  split; unfold project_exists; rewrite ?Hl, ?Hn.
  - lia.
  - intros a p. destruct (decide (a = _producer)) as [->|Hne].
    + rewrite fn_lookup_insert, elem_of_app, list_elem_of_singleton, Hmem.
      unfold project_exists. split.
      * intros [[Hx Hp]| ->]; [|split; [lia|exact Hnew]].
        split; [lia|]. by rewrite (transition_producer _ _ _ _ Htr) by lia.
      * intros [Hx Hp]. destruct (decide (p = nextProjectId s)) as [->|Hx']; [by right|].
        left. split; [lia|]. by rewrite (transition_producer _ _ _ _ Htr) in Hp by lia.
    + rewrite fn_lookup_insert_ne by auto. rewrite Hmem. unfold project_exists. split.
      * intros [Hx Hp]. split; [lia|]. by rewrite (transition_producer _ _ _ _ Htr) by lia.
      * intros [Hx Hp]. destruct (decide (p = nextProjectId s)) as [->|Hx']; [congruence|].
        split; [lia|]. by rewrite (transition_producer _ _ _ _ Htr) in Hp by lia.
  - intros a. destruct (decide (a = _producer)) as [->|Hne].
    + rewrite fn_lookup_insert. apply StronglySorted_snoc; [apply Hord|].
      intros y Hy. apply Hmem in Hy as [Hy _]. unfold project_exists in Hy. lia.
    + rewrite fn_lookup_insert_ne by auto. apply Hord.
  - intros p Hx. destruct (decide (p = nextProjectId s)) as [->|Hx']; [by rewrite Hnew|].
    rewrite (transition_producer _ _ _ _ Htr) by lia. apply Hprod.
    unfold project_exists. lia.
Qed.

Lemma run_Indexed deployer txs : Indexed (run deployer txs).
Proof.
  unfold run. generalize (init_Indexed deployer). generalize (init deployer).
  induction txs as [|tx txs IH]; intros s Hs; simpl; [assumption|].
  apply IH. by apply step_Indexed.
Qed.

(** X9. The index of a producer, as [getProducerProjects] returns it, holds
    exactly the existing projects registered for that producer, in strictly
    increasing order of their identifiers; no project is registered for the
    zero address, whose list stays empty. *)
Theorem producer_lists_its_projects (deployer : address) (txs : list (Env * Call))
    (a : address) :
  let s := run deployer txs in
  StronglySorted N.lt (getProducerProjects a s)
  /\ (forall p, p ∈ getProducerProjects a s
                <-> exists project, getProject p s = Ok project /\ Project.producer project = a)
  /\ (a = 0 -> getProducerProjects a s = []).
Proof.
  intros s. destruct (run_Indexed deployer txs) as [_ Hmem Hord Hprod].
  fold s in Hmem, Hord, Hprod. unfold getProducerProjects.
  assert (HP : forall p, project_exists s p <-> getProject p s = Ok (projects s p)).
  { intros p. unfold getProject, projectExists, project_exists, require.
    destruct (bool_decide (0 < p)) eqn:H1, (bool_decide (p < nextProjectId s)) eqn:H2;
      simpl; rewrite ?bool_decide_eq_true, ?bool_decide_eq_false in *;
      split; try discriminate; try lia; auto. }
  split; [apply Hord|]. split.
  - intros p. rewrite Hmem. split.
    + intros [Hx Hp]. exists (projects s p). split; [by apply HP|exact Hp].
    + intros (project & Hg & Hp).
      assert (Hx : project_exists s p).
      { apply HP. unfold getProject in *. destruct (projectExists p s); [|discriminate].
        reflexivity. }
      split; [exact Hx|]. apply HP in Hx. congruence.
  - intros ->. destruct (producerProjects s 0) as [|p l] eqn:Hl; [reflexivity|].
    assert (Hin : p ∈ producerProjects s 0) by (rewrite Hl; left).
    apply Hmem in Hin as [Hx Hp]. by apply Hprod in Hx.
Qed.

(** *** The pause flag *)

Lemma checkProjectCompletion_paused b pid s :
  _checkProjectCompletion pid (set_paused b s) = set_paused b (_checkProjectCompletion pid s).
Proof. unfold _checkProjectCompletion. simpl. by destruct (_ && _). Qed.

Lemma processMilestonePayment_paused e b i s :
  _processMilestonePayment e i (set_paused b s)
  = set_paused b <$> _processMilestonePayment e i s.
Proof.
  unfold _processMilestonePayment, require, checked_add, transfer. simpl.
  repeat match goal with
  | |- context [if ?c then _ else _] => destruct c; simpl; try reflexivity
  end.
  all: by rewrite <- checkProjectCompletion_paused.
Qed.

Lemma grantRole_paused e b r a s :
  _grantRole e r a (set_paused b s) = set_paused b (_grantRole e r a s).
Proof. unfold _grantRole, hasRole. simpl. by destruct (roles s r a). Qed.

Lemma revokeRole_paused e b r a s :
  _revokeRole e r a (set_paused b s) = set_paused b (_revokeRole e r a s).
Proof. unfold _revokeRole, hasRole. simpl. by destruct (roles s r a). Qed.

Ltac split_ifs :=
  repeat match goal with
  | |- context [if ?c then _ else _] => destruct c; simpl; try reflexivity
  end.

(** X10. No function of the ledger other than [pause] and [unpause] reads the
    pause flag: whatever the flag is, every other call reverts or returns
    alike and writes the same, the flag itself excepted. *)
Theorem pause_flag_is_inert (e : Env) (c : Call) (b : bool) (s : State) :
  c ≠ Pause -> c ≠ Unpause ->
  call e c (set_paused b s) = set_paused b <$> call e c s.
Proof.
  intros Hp Hu. unfold call.
  destruct (negb (payable c) && bool_decide (0 < value e)); [reflexivity|].
  change (set_balance (balance (set_paused b s) + value e) (set_paused b s))
    with (set_paused b (set_balance (balance s + value e) s)).
  generalize (set_balance (balance s + value e) s). clear s. intros s.
  destruct c; try contradiction.
  - unfold addFunds, onlyGovernment, require, checked_add, hasRole. simpl. split_ifs.
  - unfold registerProject, grantRole, onlyGovernment, onlyRole, require, checked_add,
      checked_sub, hasRole. simpl.
    repeat match goal with
    | |- context [if ?c then _ else _] => destruct c; simpl; [|reflexivity]
    end.
    unfold _grantRole, hasRole. simpl. by destruct (roles s PRODUCER_ROLE _producer).
  - unfold addMilestone, onlyGovernment, projectExists, require, checked_add, hasRole.
    simpl.
    repeat match goal with
    | |- context [if ?c then _ else _] => destruct c; simpl; [|reflexivity]
    end.
    reflexivity.
  - unfold verifyMilestone, milestoneExists, require, hasRole. simpl.
    repeat match goal with
    | |- context [if ?c then Ok tt else _] => destruct c; simpl; try reflexivity
    end.
    match goal with |- context [if ?c then _ else _] => destruct c; simpl; try reflexivity end.
    match goal with |- context [_processMilestonePayment e ?i ?t] =>
      change (_processMilestonePayment e i t)
        with (_processMilestonePayment e i (set_paused b
               (upd_milestone i (Milestone.set_status MilestoneStatus.Verified)
                  (upd_milestone i (Milestone.set_verifiedBy (sender e))
                     (upd_milestone i (Milestone.set_verifiedAt (timestamp e))
                        (upd_milestone i (Milestone.set_actualValue _actualValue) s))))))
    end.
    rewrite processMilestonePayment_paused.
    by destruct (_processMilestonePayment _ _ _).
  - unfold updateProjectStatus, onlyGovernment, projectExists, require, hasRole.
    simpl. split_ifs.
  - unfold disputeMilestone, milestoneExists, require, hasRole. simpl. split_ifs.
  - unfold resolveDispute, onlyAuditor, milestoneExists, require, hasRole. simpl.
    repeat match goal with
    | |- context [if ?c then Ok tt else _] => destruct c; simpl; try reflexivity
    end.
    destruct _approve; [|reflexivity]. rewrite !fn_lookup_insert. simpl.
    destruct (negb _); [|reflexivity].
    match goal with |- context [_processMilestonePayment e ?i ?t] =>
      change (_processMilestonePayment e i t)
        with (_processMilestonePayment e i (set_paused b
               (upd_milestone i (Milestone.set_status MilestoneStatus.Verified) s)))
    end.
    by rewrite processMilestonePayment_paused.
  - unfold emergencyWithdraw, onlyGovernment, require, transfer, hasRole. simpl. split_ifs.
  - unfold grantRole, onlyRole, hasRole. simpl.
    destruct (roles s DEFAULT_ADMIN_ROLE (sender e)); simpl; [|reflexivity].
    by rewrite grantRole_paused.
  - unfold revokeRole, onlyRole, hasRole. simpl.
    destruct (roles s DEFAULT_ADMIN_ROLE (sender e)); simpl; [|reflexivity].
    by rewrite revokeRole_paused.
  - unfold renounceRole, require. simpl. destruct (bool_decide _); simpl; [|reflexivity].
    by rewrite revokeRole_paused.
  - unfold receive, checked_add. simpl. split_ifs.
Qed.

Lemma pause_flag_is_inert_witness :
  call government (RegisterProject 4 "Test" "Test" 1) (set_paused true (run 1 setup))
  = set_paused true <$> call government (RegisterProject 4 "Test" "Test" 1) (run 1 setup).
Proof. apply pause_flag_is_inert; discriminate. Defined.

(** *** Who can do what *)

Lemma set_balance_same s v : v = balance s -> set_balance v s = s.
Proof. intros ->. by destruct s. Qed.

(** X11. An account that holds no role and is the producer of no project can
    change the ledger in one way only, by sending ether to it: every other
    call it makes reverts or, like renouncing a role it does not hold, leaves
    the state as it was. *)
Theorem outsider_can_only_fund (e : Env) (c : Call) (s s' : State) :
  (forall r, hasRole r (sender e) s = false) ->
  (forall p, Project.producer (projects s p) ≠ sender e) ->
  call e c s = Ok s' ->
  s' = s
  \/ (c = Receive
      /\ s' = emit (FundsAdded (value e) (totalSubsidyPool s + value e))
                (set_totalSubsidyPool (totalSubsidyPool s + value e)
                   (set_balance (balance s + value e) s))).
Proof.
  intros Hrole Hprod. unfold call.
  destruct (negb (payable c) && bool_decide (0 < value e)) eqn:Hpay; [discriminate|].
  assert (Hv : payable c = false -> set_balance (balance s + value e) s = s).
  { intros Hc. rewrite Hc in Hpay. simpl in Hpay. apply bool_decide_eq_false in Hpay.
    apply set_balance_same. lia. }
  assert (Hr : forall r, hasRole r (sender e) (set_balance (balance s + value e) s) = false)
    by exact Hrole.
  destruct c; simpl in Hv; intros H.
  - unfold addFunds, onlyGovernment in H. inv_calls. congruence.
  - unfold registerProject, onlyGovernment in H. inv_calls. congruence.
  - unfold addMilestone, onlyGovernment in H. inv_calls. congruence.
  - unfold verifyMilestone in H. inv_calls.
    match goal with Hx : _ || _ = true |- _ => rewrite !Hr in Hx; discriminate end.
  - unfold updateProjectStatus, onlyGovernment in H. inv_calls. congruence.
  - unfold disputeMilestone in H. inv_calls.
    match goal with Hx : _ || _ = true |- _ =>
      rewrite Hr, orb_false_r in Hx; apply bool_decide_eq_true in Hx end.
    simpl in *. by destruct (Hprod (Milestone.projectId (milestones s _milestoneId))).
  - unfold resolveDispute, onlyAuditor in H. inv_calls. congruence.
  - unfold emergencyWithdraw, onlyGovernment in H. inv_calls. congruence.
  - unfold pause, onlyGovernment in H. inv_calls. congruence.
  - unfold unpause, onlyGovernment in H. inv_calls. congruence.
  - unfold grantRole, onlyRole in H. rewrite Hr in H. discriminate.
  - unfold revokeRole, onlyRole in H. rewrite Hr in H. discriminate.
  - unfold renounceRole in H. inv_calls. subst. unfold _revokeRole. rewrite Hr.
    left. by apply Hv.
  - unfold receive in H. inv_calls. subst s'. right. split; reflexivity.
Qed.

Lemma outsider_can_only_fund_witness :
  step (init 1) (mkEnv 9 0 100 everyone, RenounceRole GOVERNMENT_ROLE 9) = init 1
  \/ (RenounceRole GOVERNMENT_ROLE 9 = Receive
      /\ step (init 1) (mkEnv 9 0 100 everyone, RenounceRole GOVERNMENT_ROLE 9)
         = emit (FundsAdded 0 (totalSubsidyPool (init 1) + 0))
             (set_totalSubsidyPool (totalSubsidyPool (init 1) + 0)
                (set_balance (balance (init 1) + 0) (init 1)))).
Proof.
  apply (outsider_can_only_fund (mkEnv 9 0 100 everyone)).
  - intros r. destruct r; vm_compute; reflexivity.
  - intros p. vm_compute. discriminate.
  - vm_compute. reflexivity.
Defined.

(** *** Disputes *)

(** A Verified milestone has been paid. *)
Definition Settled (s : State) : Prop :=
  forall i, Milestone.status (milestones s i) = MilestoneStatus.Verified ->
            Milestone.paid (milestones s i) = true.

Lemma transition_Settled e s s' : transition e s s' -> Settled s -> Settled s'.
Proof.
  intros Htr HS.
  destruct Htr as
    [Hms Hps Hp Hm
    |producer name description amount Hms Hps Hnew Hp Hm
    |pid st Hpid Hms Hps Hat Hp Hm
    |pid description amount target source deadline Hpid Hdl Hamt Hst Hfit Hms Hnew Hps Hat Hp Hm
    |i actual Hi Hst Hdl Hms Hat Hps Hp Hm
    |i Hi Hst Hms Hat Hps Hp Hm
    |i approve Hi Hst Hor Hms Hat Hps Hp Hm
    |i m Hi Hfrom Hunpaid Hact Hms Hat Hps Hcred Hp Hm]; intros j.
  1-3: rewrite Hms; apply HS.
  - destruct (decide (j = nextMilestoneId s)) as [->|Hne];
      [rewrite Hnew; discriminate|rewrite Hms by auto; apply HS].
  - destruct (decide (j = i)) as [->|Hne];
      [rewrite Hat; discriminate|rewrite Hms by auto; apply HS].
  - destruct (decide (j = i)) as [->|Hne];
      [rewrite Hat; discriminate|rewrite Hms by auto; apply HS].
  - destruct (decide (j = i)) as [->|Hne]; [|rewrite Hms by auto; apply HS].
    rewrite Hat. simpl. destruct Hor as [->|Hpaid]; [discriminate|auto].
  - destruct (decide (j = i)) as [->|Hne]; [|rewrite Hms by auto; apply HS].
    rewrite Hat. reflexivity.
Qed.

Lemma run_Settled deployer txs : Settled (run deployer txs).
Proof.
  unfold run.
  assert (H0 : Settled (init deployer)) by (intros i; discriminate).
  revert H0. generalize (init deployer).
  induction txs as [|tx txs IH]; intros s Hs; simpl; [assumption|].
  apply IH. destruct (step_transition s tx) as [->|Htr]; [assumption|].
  by eapply transition_Settled.
Qed.

(** The two states agree on everything a call or a view can read. *)
Record same_state (s s' : State) : Prop := {
  same_roles : roles s' = roles s;
  same_paused : paused s' = paused s;
  same_projects : projects s' = projects s;
  same_milestones : forall i, milestones s' i = milestones s i;
  same_producerProjects : producerProjects s' = producerProjects s;
  same_nextProjectId : nextProjectId s' = nextProjectId s;
  same_nextMilestoneId : nextMilestoneId s' = nextMilestoneId s;
  same_totalSubsidyPool : totalSubsidyPool s' = totalSubsidyPool s;
  same_totalDisbursed : totalDisbursed s' = totalDisbursed s;
  same_balance : balance s' = balance s;
  same_events : events s' = events s
}.

Lemma set_status_back (m : Milestone.t) st st' :
  Milestone.status m = st ->
  Milestone.set_status st (Milestone.set_status st' m) = m.
Proof. destruct m. simpl. by intros ->. Qed.

(** X12. In a state the ledger can reach, a Verified milestone is a paid one;
    disputing it and having the dispute approved brings the ledger back to
    the state before the dispute, with no second payment and no event. *)
Theorem dispute_then_approval_restores (deployer : address) (txs : list (Env * Call))
    (e1 e2 : Env) (i : uint256) (s1 s2 : State) :
  let s := run deployer txs in
  Milestone.status (milestones s i) = MilestoneStatus.Verified ->
  call e1 (DisputeMilestone i) s = Ok s1 ->
  call e2 (ResolveDispute i true) s1 = Ok s2 ->
  Milestone.paid (milestones s i) = true
  /\ Milestone.status (milestones s1 i) = MilestoneStatus.Disputed
  /\ same_state s s2.
Proof.
  intros s Hst Hdispute Hresolve.
  pose proof (run_Settled deployer txs i Hst) as Hpaid. fold s in Hpaid.
  split; [exact Hpaid|].
  unfold call in Hdispute. simpl in Hdispute.
  destruct (bool_decide (0 < value e1)) eqn:Hv1; [discriminate|].
  apply bool_decide_eq_false in Hv1.
  rewrite set_balance_same in Hdispute by lia.
  unfold disputeMilestone in Hdispute. inv_calls. subst s1.
  unfold call in Hresolve. simpl in Hresolve.
  destruct (bool_decide (0 < value e2)) eqn:Hv2; [discriminate|].
  apply bool_decide_eq_false in Hv2.
  unfold resolveDispute, onlyAuditor in Hresolve. inv_calls.
  match goal with Hx : (if _ then _ else _) = Ok _ |- _ =>
    simpl in Hx; rewrite !fn_lookup_insert in Hx; simpl in Hx; rewrite Hpaid in Hx;
    simpl in Hx; injection Hx as <- end.
  simpl. rewrite fn_lookup_insert. split; [reflexivity|].
  split; simpl; auto; [|lia].
  intros j. destruct (decide (j = i)) as [->|Hne].
  - rewrite !fn_lookup_insert. by apply set_status_back.
  - by rewrite !fn_lookup_insert_ne.
Qed.

Lemma dispute_then_approval_restores_witness :
  Milestone.paid (milestones (run 1 verified_and_paid) 1) = true
  /\ Milestone.status (milestones (step (run 1 verified_and_paid) (producer, DisputeMilestone 1)) 1)
     = MilestoneStatus.Disputed
  /\ same_state (run 1 verified_and_paid)
       (step (step (run 1 verified_and_paid) (producer, DisputeMilestone 1))
             (auditor, ResolveDispute 1 true)).
Proof.
  apply (dispute_then_approval_restores 1 verified_and_paid producer auditor 1);
    vm_compute; reflexivity.
Defined.



(** *** Registration and milestones read back *)

Lemma nonempty_length (x : string) : 0 < N.of_nat (String.length x) <-> x ≠ "".
Proof. destruct x; simpl; split; try lia; try discriminate; intros Hx; by destruct Hx. Qed.

Lemma is_ok_fmap {A B} (f : A -> B) (r : result A) : is_ok (f <$> r) = is_ok r.
Proof. by destruct r. Qed.

Lemma require_bind {A} (c : bool) msg (k : unit -> result A) :
  is_ok (require c msg ≫= k) = c && is_ok (k tt).
Proof. by destruct c. Qed.

Lemma checked_add_bind {A} a b (k : uint256 -> result A) :
  is_ok (checked_add a b ≫= k) = bool_decide (a + b <= MAX_UINT256) && is_ok (k (a + b)).
Proof. unfold checked_add. by destruct (bool_decide _). Qed.

Lemma checked_sub_bind {A} a b (k : uint256 -> result A) :
  is_ok (checked_sub a b ≫= k) = bool_decide (b <= a) && is_ok (k (a - b)).
Proof. unfold checked_sub. by destruct (bool_decide _). Qed.

Lemma grantRole_bind {A} e r a s (k : State -> result A) :
  is_ok (grantRole e r a s ≫= k)
  = hasRole DEFAULT_ADMIN_ROLE (sender e) s && is_ok (k (_grantRole e r a s)).
Proof. unfold grantRole, onlyRole. by destruct (hasRole _ _ _). Qed.

Lemma call_value e c s :
  is_ok (call e c s) = true -> payable c = false -> value e = 0.
Proof.
  unfold call. intros Hok Hc. rewrite Hc in Hok. simpl in Hok.
  destruct (bool_decide (0 < value e)) eqn:Hv; [discriminate|].
  apply bool_decide_eq_false in Hv. lia.
Qed.

Lemma call_free e c s :
  payable c = false -> value e = 0 ->
  call e c s
  = match c with
    | AddFunds => addFunds e s
    | RegisterProject p n d t => fst <$> registerProject e p n d t s
    | AddMilestone p d a t v dl => fst <$> addMilestone e p d a t v dl s
    | VerifyMilestone m a ok => verifyMilestone e m a ok s
    | UpdateProjectStatus p st => updateProjectStatus e p st s
    | DisputeMilestone m => disputeMilestone e m s
    | ResolveDispute m a => resolveDispute e m a s
    | EmergencyWithdraw a r => emergencyWithdraw e a r s
    | Pause => pause e s
    | Unpause => unpause e s
    | GrantRole r a => grantRole e r a s
    | RevokeRole r a => revokeRole e r a s
    | RenounceRole r a => renounceRole e r a s
    | Receive => receive e s
    end.
Proof.
  intros Hc Hv. unfold call. rewrite Hc, Hv. simpl.
  rewrite set_balance_same by lia. reflexivity.
Qed.

(** X14. [registerProject] returns exactly when the caller holds both the
    government role and the admin role (the function goes through the public
    [grantRole]), the producer is not the zero address, the name is not empty
    and the amount is positive and within the available subsidy.  The new
    project then reads back under the next identifier as Pending, with
    nothing disbursed and no milestone; it is appended to the producer's
    list, the producer holds the producer role, and the available subsidy is
    as before: registration reserves nothing. *)
Theorem registration_reads_back (deployer : address) (txs : list (Env * Call)) (e : Env)
    (producer : address) (name description : string) (amount : uint256) :
  let s := run deployer txs in
  let pid := nextProjectId s in
  (is_ok (call e (RegisterProject producer name description amount) s) = true
   <-> value e = 0
       /\ hasRole GOVERNMENT_ROLE (sender e) s = true
       /\ hasRole DEFAULT_ADMIN_ROLE (sender e) s = true
       /\ producer ≠ 0 /\ name ≠ "" /\ 0 < amount
       /\ amount <= totalSubsidyPool s - totalDisbursed s
       /\ pid + 1 <= MAX_UINT256)
  /\ (forall s', call e (RegisterProject producer name description amount) s = Ok s' ->
        getProject pid s'
        = Ok (Project.mk pid producer name description amount 0 (timestamp e)
                         ProjectStatus.Pending [] (fun _ => false))
        /\ getProjectMilestones pid s' = Ok []
        /\ getProducerProjects producer s' = getProducerProjects producer s ++ [pid]
        /\ hasRole PRODUCER_ROLE producer s' = true
        /\ (forall p, p ≠ pid -> projects s' p = projects s p)
        /\ getAvailableSubsidy s' = getAvailableSubsidy s).
Proof.
  intros s pid.
  destruct (run_Ledgered deployer txs) as [Hpool Hdis Hbal]. fold s in Hpool, Hdis, Hbal.
  destruct (run_Sound deployer txs) as ([HnP _ HfP _ _ _] & _). fold s in HnP, HfP.
  assert (Hle : totalDisbursed s <= totalSubsidyPool s) by lia.
  split.
  - split.
    + intros Hok.
      pose proof (call_value _ _ _ Hok eq_refl) as Hv.
      rewrite call_free, is_ok_fmap in Hok by (assumption || reflexivity).
      unfold registerProject, onlyGovernment in Hok.
      rewrite !require_bind, checked_sub_bind, require_bind, checked_add_bind,
        grantRole_bind in Hok.
      repeat (apply andb_true_iff in Hok as [? Hok]). to_prop.
      repeat split; auto; try lia. by apply nonempty_length.
    + intros (Hv & Hgov & Hadm & Hprod & Hname & Hamt & Havail & Hnext).
      rewrite call_free, is_ok_fmap by (assumption || reflexivity).
      unfold registerProject, onlyGovernment.
      rewrite !require_bind, checked_sub_bind, require_bind, checked_add_bind,
        grantRole_bind.
      rewrite Hgov. apply nonempty_length in Hname.
      rewrite !bool_decide_eq_true_2 by (auto; lia). simpl.
      unfold hasRole in *. simpl. by rewrite Hadm.
  - intros s' Hc.
    assert (Hok : is_ok (call e (RegisterProject producer name description amount) s) = true)
      by (by rewrite Hc).
    pose proof (call_value _ _ _ Hok eq_refl) as Hv.
    rewrite call_free in Hc by (assumption || reflexivity).
    unfold registerProject, grantRole, onlyGovernment, onlyRole in Hc. inv_calls. subst.
    frame_roles.
    match goal with |- context [_grantRole ?e ?r ?a ?t] =>
      destruct (grantRole_frame e r a t) as (_ & _ & Hp' & Hd' & _);
      pose proof (grantRole_index e r a t) as Hix;
      pose proof (grantRole_holds e r a t) as Hrole end.
    unfold hasRole in Hrole.
    unfold getProject, getProjectMilestones, getProducerProjects, getAvailableSubsidy,
      projectExists, hasRole.
    simpl. rewrite Hgn, Hgp, Hix, Hp', Hd', Hrole. simpl.
    fold pid. rewrite !bool_decide_eq_true_2 by lia. simpl.
    rewrite !fn_lookup_insert.
    assert (Hz : projects s pid = Project.zero) by (apply HfP; unfold project_exists; lia).
    rewrite Hz. simpl.
    repeat split; auto. intros p Hp. by rewrite fn_lookup_insert_ne.
Qed.

(** X15. [addMilestone] returns exactly when the caller holds the government
    role, the project exists and is Pending or Active, the description is not
    empty, the amount and the target are positive, the deadline lies after
    the block time, and what the project has been paid plus the amount stays
    within its budget.  The milestone then reads back under the next
    identifier as Pending and unpaid with no verdict recorded, it is the last
    entry of the project's list, and the project is Active. *)
Theorem milestone_reads_back (deployer : address) (txs : list (Env * Call)) (e : Env)
    (pid : uint256) (description : string) (amount target : uint256) (source : string)
    (deadline : uint256) :
  let s := run deployer txs in
  let i := nextMilestoneId s in
  let p := projects s pid in
  (is_ok (call e (AddMilestone pid description amount target source deadline) s) = true
   <-> value e = 0
       /\ hasRole GOVERNMENT_ROLE (sender e) s = true
       /\ is_ok (getProject pid s) = true
       /\ description ≠ "" /\ 0 < amount /\ 0 < target
       /\ timestamp e < deadline
       /\ (Project.status p = ProjectStatus.Pending \/ Project.status p = ProjectStatus.Active)
       /\ Project.disbursedAmount p + amount <= Project.totalSubsidyAmount p
       /\ Project.disbursedAmount p + amount <= MAX_UINT256
       /\ i + 1 <= MAX_UINT256)
  /\ (forall s', call e (AddMilestone pid description amount target source deadline) s = Ok s' ->
        getMilestone i s'
        = Ok (Milestone.mk i pid description amount target 0 source deadline
                           MilestoneStatus.Pending 0 0 false)
        /\ getProjectMilestones pid s' = Ok (Project.milestoneIds p ++ [i])
        /\ Project.status (projects s' pid) = ProjectStatus.Active
        /\ (forall j, j ≠ i -> milestones s' j = milestones s j)
        /\ (forall q, q ≠ pid -> projects s' q = projects s q)).
Proof.
  intros s i p.
  destruct (run_Sound deployer txs) as ([_ HnM _ _ _ _] & _). fold s in HnM.
  split.
  - split.
    + intros Hok.
      pose proof (call_value _ _ _ Hok eq_refl) as Hv.
      rewrite call_free, is_ok_fmap in Hok by (assumption || reflexivity).
      unfold addMilestone, onlyGovernment in Hok. fold p in Hok.
      unfold getProject.
      rewrite require_bind in Hok. apply andb_true_iff in Hok as [Hgov Hok].
      destruct (projectExists pid s) as [[]|] eqn:Hex; [|discriminate]. simpl in Hok.
      rewrite !require_bind, checked_add_bind, require_bind, checked_add_bind in Hok.
      repeat (apply andb_true_iff in Hok as [? Hok]).
      match goal with Hx : _ || _ = true |- _ =>
        apply orb_true_iff in Hx as [Hx|Hx]; apply bool_decide_eq_true in Hx end;
        to_prop; repeat split; auto; try lia; by apply nonempty_length.
    + intros (Hv & Hgov & Hex & Hdesc & Hamt & Htgt & Hdl & Hst & Hfit & Hmax & Hnext).
      rewrite call_free, is_ok_fmap by (assumption || reflexivity).
      unfold addMilestone, onlyGovernment. fold p.
      unfold getProject in Hex.
      rewrite require_bind, Hgov. simpl.
      destruct (projectExists pid s) as [[]|]; [|discriminate]. simpl.
      rewrite !require_bind, checked_add_bind, require_bind, checked_add_bind.
      apply nonempty_length in Hdesc.
      repeat (apply andb_true_iff; split);
        try (apply bool_decide_eq_true; first [assumption|lia]);
        try reflexivity.
      destruct Hst as [-> | ->]; reflexivity.
  - intros s' Hc.
    assert (Hok : is_ok (call e (AddMilestone pid description amount target source deadline) s)
                  = true) by (by rewrite Hc).
    pose proof (call_value _ _ _ Hok eq_refl) as Hv.
    rewrite call_free in Hc by (assumption || reflexivity).
    unfold addMilestone, onlyGovernment, projectExists in Hc. inv_calls. subst.
    unfold getMilestone, getProjectMilestones, milestoneExists, projectExists.
    fold i p.
    assert (Hst' : Project.status
                     (projects
                        (if bool_decide (Project.status p = ProjectStatus.Pending)
                         then emit (ProjectStatusChanged pid ProjectStatus.Pending
                                      ProjectStatus.Active)
                                (upd_project pid (Project.set_status ProjectStatus.Active)
                                   (upd_project pid
                                      (fun q => Project.set_milestoneExists
                                                  (<[i := true]> (Project.milestoneExists q)) q)
                                      (upd_project pid
                                         (fun q => Project.set_milestoneIds
                                                     (Project.milestoneIds q ++ [i]) q)
                                         (set_milestones
                                            (<[i := Milestone.mk i pid description amount
                                                     target 0 source deadline
                                                     MilestoneStatus.Pending 0 0 false]>
                                               (milestones s))
                                            (set_nextMilestoneId (i + 1) s)))))
                         else upd_project pid
                                (fun q => Project.set_milestoneExists
                                            (<[i := true]> (Project.milestoneExists q)) q)
                                (upd_project pid
                                   (fun q => Project.set_milestoneIds
                                               (Project.milestoneIds q ++ [i]) q)
                                   (set_milestones
                                      (<[i := Milestone.mk i pid description amount
                                               target 0 source deadline
                                               MilestoneStatus.Pending 0 0 false]>
                                         (milestones s))
                                      (set_nextMilestoneId (i + 1) s)))) pid)
                   = ProjectStatus.Active).
    { destruct (bool_decide _) eqn:Hb; simpl; rewrite !fn_lookup_insert; simpl; auto.
      match goal with Hx : _ || _ = true |- _ =>
        simpl in Hx; by apply bool_decide_eq_true in Hx end. }
    simpl in *. rewrite !fn_lookup_insert in *. simpl in *. fold p in Hst' |- *.
    destruct (bool_decide (Project.status p = ProjectStatus.Pending)); simpl in *;
      rewrite !fn_lookup_insert in *; simpl;
      rewrite !bool_decide_eq_true_2 by lia; simpl;
      (repeat split; auto;
       [intros j Hj; by rewrite fn_lookup_insert_ne
       |intros q Hq; by rewrite !fn_lookup_insert_ne]).
Qed.

(** *** When a verification returns *)

(** X16. A report on a Pending milestone, made by an oracle or an auditor up
    to the deadline, always goes through when it fails the milestone
    ([_success] false or the value below the target), whatever the state of
    the project and of the funds; a report that meets the target returns
    exactly when the payment can be made: the project is Active, the contract
    holds the amount and the producer takes the transfer. *)
Theorem verification_returns_iff (deployer : address) (txs : list (Env * Call)) (e : Env)
    (i actual : uint256) (success : bool) :
  let s := run deployer txs in
  let m := milestones s i in
  let p := projects s (Milestone.projectId m) in
  is_ok (call e (VerifyMilestone i actual success) s) = true
  <-> value e = 0
      /\ is_ok (getMilestone i s) = true
      /\ (hasRole ORACLE_ROLE (sender e) s = true \/ hasRole AUDITOR_ROLE (sender e) s = true)
      /\ Milestone.status m = MilestoneStatus.Pending
      /\ timestamp e <= Milestone.deadline m
      /\ (success = true -> Milestone.targetValue m <= actual ->
          Project.status p = ProjectStatus.Active
          /\ Milestone.subsidyAmount m <= balance s
          /\ accepts e (Project.producer p) = true
          /\ Project.disbursedAmount p + Milestone.subsidyAmount m <= MAX_UINT256
          /\ totalDisbursed s + Milestone.subsidyAmount m <= MAX_UINT256).
Proof.
  intros s m p.
  destruct (run_Sound deployer txs) as (_ & _ & _ & [Hpend _]). fold s in Hpend.
  assert (Hpay :
    Milestone.status (milestones s i) = MilestoneStatus.Pending ->
    is_ok (_processMilestonePayment e i
             (upd_milestone i (Milestone.set_status MilestoneStatus.Verified)
                (upd_milestone i (Milestone.set_verifiedBy (sender e))
                   (upd_milestone i (Milestone.set_verifiedAt (timestamp e))
                      (upd_milestone i (Milestone.set_actualValue actual) s))))) = true
    <-> Project.status p = ProjectStatus.Active
        /\ Milestone.subsidyAmount m <= balance s
        /\ accepts e (Project.producer p) = true
        /\ Project.disbursedAmount p + Milestone.subsidyAmount m <= MAX_UINT256
        /\ totalDisbursed s + Milestone.subsidyAmount m <= MAX_UINT256).
  { intros Hst. rewrite processMilestonePayment_returns. simpl.
    rewrite !fn_lookup_insert. simpl. subst m p.
    destruct (Hpend i Hst) as (_ & _ & _ & Hunpaid). tauto. }
  revert Hpay. subst m p.
  set (paying := _processMilestonePayment e i
             (upd_milestone i (Milestone.set_status MilestoneStatus.Verified)
                (upd_milestone i (Milestone.set_verifiedBy (sender e))
                   (upd_milestone i (Milestone.set_verifiedAt (timestamp e))
                      (upd_milestone i (Milestone.set_actualValue actual) s))))).
  intros Hpay.
  split.
  - intros Hok. pose proof (call_value _ _ _ Hok eq_refl) as Hv.
    rewrite call_free in Hok by (assumption || reflexivity).
    unfold verifyMilestone, getMilestone in *.
    destruct (milestoneExists i s) as [[]|]; [|discriminate]. simpl in Hok.
    rewrite !require_bind in Hok.
    apply andb_true_iff in Hok as [Hrole Hok]. apply orb_true_iff in Hrole.
    apply andb_true_iff in Hok as [Hst Hok]. apply bool_decide_eq_true in Hst.
    apply andb_true_iff in Hok as [Hdl Hok]. apply bool_decide_eq_true in Hdl.
    do 5 (split; [auto|]).
    intros Hs Ht. subst success. simpl in Hok. rewrite !fn_lookup_insert in Hok.
    simpl in Hok. rewrite bool_decide_eq_true_2 in Hok by exact Ht. fold paying in Hok.
    destruct paying eqn:Hp; [|discriminate].
    apply Hpay; auto.
  - intros (Hv & Hex & Hrole & Hst & Hdl & Hcan).
    rewrite call_free by (assumption || reflexivity).
    unfold verifyMilestone, getMilestone in *.
    destruct (milestoneExists i s) as [[]|]; [|discriminate]. simpl.
    rewrite !require_bind.
    rewrite !(bool_decide_eq_true_2 _ Hst), !(bool_decide_eq_true_2 _ Hdl).
    assert (Hor : hasRole ORACLE_ROLE (sender e) s || hasRole AUDITOR_ROLE (sender e) s = true)
      by (by apply orb_true_iff).
    rewrite Hor. simpl. rewrite !fn_lookup_insert. simpl.
    destruct success; simpl; [|reflexivity].
    destruct (bool_decide (Milestone.targetValue (milestones s i) <= actual)) eqn:Ht;
      [|reflexivity].
    apply bool_decide_eq_true in Ht. fold paying.
    apply Hpay in Hcan; auto.
    by destruct paying.
Qed.

End SubsidyExtras.

(** * Further properties of the oracle *)

Module OracleExtras.
Import DataOracle OracleScenarios VerificationScenarios OracleProperties.

(** *** The registry of trusted sources *)

Record Registered (s : State) : Prop := {
  rg_threshold : forall t, verificationThresholds s t <= 100;
  rg_score : forall src, sourceReliabilityScore s src <= 100;
  rg_untrusted : forall src, trustedSources s src = false ->
      sourceReliabilityScore s src = 0 /\ sourceTypes s src = DataSourceType.IoTDevice
}.

Lemma init_Registered deployer : Registered (init deployer).
Proof.
  split.
  - intros t. destruct t; vm_compute; discriminate.
  - intros src. vm_compute. discriminate.
  - intros src _. split; reflexivity.
Qed.

Lemma grantRole_registry e r a s :
  trustedSources (_grantRole e r a s) = trustedSources s
  /\ sourceTypes (_grantRole e r a s) = sourceTypes s
  /\ verificationThresholds (_grantRole e r a s) = verificationThresholds s
  /\ sourceReliabilityScore (_grantRole e r a s) = sourceReliabilityScore s.
Proof. unfold _grantRole. destruct (hasRole r a s); auto. Qed.

Lemma revokeRole_registry e r a s :
  trustedSources (_revokeRole e r a s) = trustedSources s
  /\ sourceTypes (_revokeRole e r a s) = sourceTypes s
  /\ verificationThresholds (_revokeRole e r a s) = verificationThresholds s
  /\ sourceReliabilityScore (_revokeRole e r a s) = sourceReliabilityScore s.
Proof. unfold _revokeRole. destruct (hasRole r a s); auto. Qed.

Section Registry.

Variable keccak256 : list Byte.byte -> bytes32.

Lemma call_Registered e c s s' :
  call keccak256 e c s = Ok s' -> Registered s -> Registered s'.
Proof.
  unfold call. destruct (bool_decide (0 < value e)); [discriminate|].
  intros H [Ht Hs Hu]. destruct c.
  - unfold addTrustedSource, onlyRole in H. inv_oracle. subst. split; simpl; auto.
    + intros src. destruct (decide (src = _source)) as [->|Hne];
        [rewrite fn_lookup_insert; apply Ht|rewrite fn_lookup_insert_ne by auto; apply Hs].
    + intros src. destruct (decide (src = _source)) as [->|Hne];
        [rewrite fn_lookup_insert; discriminate|rewrite !fn_lookup_insert_ne by auto; apply Hu].
  - unfold removeTrustedSource, onlyRole in H. inv_oracle. subst. split; simpl; auto.
    + intros src. destruct (decide (src = _source)) as [->|Hne];
        [rewrite fn_lookup_insert; lia|rewrite fn_lookup_insert_ne by auto; apply Hs].
    + intros src. destruct (decide (src = _source)) as [->|Hne];
        [rewrite !fn_lookup_insert; auto|rewrite !fn_lookup_insert_ne by auto; apply Hu].
  - apply fmap_Ok in H as ([s1 d] & H & ->).
    unfold submitData, onlyRole, onlyTrustedSource, whenNotPaused in H. inv_oracle.
    subst. by split.
  - unfold verifyData, onlyRole in H. inv_oracle. subst. by split.
  - unfold updateVerificationThreshold, onlyRole in H. inv_oracle. subst.
    split; simpl; auto.
    intros t. destruct (decide (t = _sourceType)) as [->|Hne];
      [rewrite fn_lookup_insert; by apply (bool_decide_eq_true _)
      |rewrite fn_lookup_insert_ne by auto; apply Ht].
  - unfold updateSourceReliability, onlyRole, onlyTrustedSource in H. inv_oracle. subst.
    split; simpl; auto.
    + intros src. destruct (decide (src = _source)) as [->|Hne];
        [rewrite fn_lookup_insert; by apply (bool_decide_eq_true _)
        |rewrite fn_lookup_insert_ne by auto; apply Hs].
    + intros src Hsrc. destruct (decide (src = _source)) as [->|Hne]; [congruence|].
      rewrite fn_lookup_insert_ne by auto. by apply Hu.
  - unfold pause, _pause, onlyRole, whenNotPaused in H. inv_oracle. subst. by split.
  - unfold unpause, _unpause, onlyRole, whenPaused in H. inv_oracle. subst. by split.
  - unfold grantRole, onlyRole in H. inv_oracle. subst.
    destruct (grantRole_registry e r account s) as (H1 & H2 & H3 & H4).
    split; rewrite ?H1, ?H2, ?H3, ?H4; auto.
  - unfold revokeRole, onlyRole in H. inv_oracle. subst.
    destruct (revokeRole_registry e r account s) as (H1 & H2 & H3 & H4).
    split; rewrite ?H1, ?H2, ?H3, ?H4; auto.
  - unfold renounceRole in H. inv_oracle. subst.
    destruct (revokeRole_registry e r account s) as (H1 & H2 & H3 & H4).
    split; rewrite ?H1, ?H2, ?H3, ?H4; auto.
Qed.

Lemma run_Registered deployer txs : Registered (run keccak256 deployer txs).
Proof.
  unfold run. generalize (init_Registered deployer). generalize (init deployer).
  induction txs as [|tx txs IH]; intros s Hs; simpl; [assumption|].
  apply IH. unfold step. destruct (call keccak256 tx.1 tx.2 s) as [s'|err] eqn:Hc;
    [by eapply call_Registered|assumption].
Qed.

End Registry.

(** X17. Thresholds and reliability scores are percentages: whatever the
    transactions, every verification threshold and every reliability score is
    at most 100, and a source that is not trusted has the score 0 and the
    default source type. *)
Theorem registry_holds_percentages (keccak256 : list Byte.byte -> bytes32)
    (deployer : address) (txs : list (Env * Call)) :
  let s := run keccak256 deployer txs in
  (forall t, verificationThresholds s t <= 100)
  /\ (forall src, getSourceReliability src s <= 100)
  /\ (forall src, isSourceTrusted src s = false ->
                  getSourceReliability src s = 0
                  /\ sourceTypes s src = DataSourceType.IoTDevice).
Proof.
  intros s. destruct (run_Registered keccak256 deployer txs) as [H1 H2 H3].
  repeat split; auto; by apply H3.
Qed.

(** *** What the queries depend on *)

(** The calls that write data points or histories. *)
Definition writes_data (c : Call) : bool :=
  match c with
  | SubmitData _ _ _ | VerifyData _ _ => true
  | _ => false
  end.

Section Data.

Variable keccak256 : list Byte.byte -> bytes32.

Lemma call_data e c s s' :
  writes_data c = false ->
  call keccak256 e c s = Ok s' ->
  dataPoints s' = dataPoints s /\ sourceDataHistory s' = sourceDataHistory s.
Proof.
  unfold call. destruct (bool_decide (0 < value e)); [discriminate|].
  destruct c; simpl; try discriminate; intros _ H.
  - unfold addTrustedSource, onlyRole in H. inv_oracle. subst. auto.
  - unfold removeTrustedSource, onlyRole in H. inv_oracle. subst. auto.
  - unfold updateVerificationThreshold, onlyRole in H. inv_oracle. subst. auto.
  - unfold updateSourceReliability, onlyRole, onlyTrustedSource in H. inv_oracle. subst. auto.
  - unfold pause, _pause, onlyRole, whenNotPaused in H. inv_oracle. subst. auto.
  - unfold unpause, _unpause, onlyRole, whenPaused in H. inv_oracle. subst. auto.
  - unfold grantRole, onlyRole in H. inv_oracle. subst. apply grantRole_keeps.
  - unfold revokeRole, onlyRole in H. inv_oracle. subst. apply revokeRole_keeps.
  - unfold renounceRole in H. inv_oracle. subst. apply revokeRole_keeps.
Qed.

Lemma verifyData_Ok e d v s s' :
  verifyData e d v s = Ok s' ->
  0 < DataPoint.timestamp (dataPoints s d)
  /\ dataPoints s' d
     = DataPoint.set_verifier (sender e) (DataPoint.set_isVerified v (dataPoints s d))
  /\ (forall d', d' ≠ d -> dataPoints s' d' = dataPoints s d')
  /\ sourceDataHistory s' = sourceDataHistory s.
Proof.
  unfold verifyData, onlyRole. intros H. inv_oracle. subst. simpl.
  rewrite !fn_lookup_insert. repeat split; auto.
  - by apply (bool_decide_eq_true _).
  - intros d' Hd. by rewrite !fn_lookup_insert_ne.
Qed.

Lemma call_step e c s :
  is_ok (call keccak256 e c s) = true ->
  call keccak256 e c s = Ok (step keccak256 s (e, c)).
Proof. unfold step. simpl. by destruct (call keccak256 e c s). Qed.

Lemma call_verifies e d v s s' :
  call keccak256 e (VerifyData d v) s = Ok s' -> verifyData e d v s = Ok s'.
Proof. unfold call. by destruct (bool_decide (0 < value e)). Qed.

(** Every data point that was written is on the history of the source it
    names, and only a data point with a timestamp is marked verified. *)
Record Filed (s : State) : Prop := {
  fl_history : forall d,
      dataPoints s d ≠ DataPoint.zero ->
      d ∈ sourceDataHistory s (DataPoint.source (dataPoints s d));
  fl_verified : forall d,
      DataPoint.isVerified (dataPoints s d) = true ->
      0 < DataPoint.timestamp (dataPoints s d)
}.

Lemma init_Filed deployer : Filed (init deployer).
Proof. split; intros d; [intros H; by destruct H|discriminate]. Qed.

Lemma call_Filed e c s s' :
  call keccak256 e c s = Ok s' -> Filed s -> Filed s'.
Proof.
  intros Hc [Hh Hv].
  destruct (writes_data c) eqn:Hw.
  - destruct c; try discriminate Hw.
    + apply call_submits in Hc as [dataId Hc].
      apply submitData_Ok in Hc as (_ & Hdp & Hframe & Happ & Hother).
      split; intros d.
      * destruct (decide (d = dataId)) as [->|Hne].
        -- rewrite Hdp. simpl. rewrite Happ. intros _. apply elem_of_app. right. by left.
        -- rewrite Hframe by auto. intros Hz. specialize (Hh d Hz).
           destruct (decide (DataPoint.source (dataPoints s d) = _source)) as [Heq|Hsrc].
           ++ rewrite Heq in *. rewrite Happ. apply elem_of_app. by left.
           ++ by rewrite Hother.
      * destruct (decide (d = dataId)) as [->|Hne];
          [rewrite Hdp; discriminate|rewrite Hframe by auto; apply Hv].
    + apply call_verifies in Hc.
      apply verifyData_Ok in Hc as (Hts & Hdp & Hframe & Hhist).
      split; intros d; rewrite ?Hhist.
      * destruct (decide (d = _dataId)) as [->|Hne].
        -- rewrite Hdp. simpl. intros _. apply Hh. intros Hz. rewrite Hz in Hts.
           simpl in Hts. lia.
        -- rewrite Hframe by auto. apply Hh.
      * destruct (decide (d = _dataId)) as [->|Hne];
          [rewrite Hdp; simpl; auto|rewrite Hframe by auto; apply Hv].
  - destruct (call_data e c s s' Hw Hc) as [Hd Hhist].
    split; intros d; rewrite ?Hd, ?Hhist; auto.
Qed.

Lemma run_Filed deployer txs : Filed (run keccak256 deployer txs).
Proof.
  unfold run. generalize (init_Filed deployer). generalize (init deployer).
  induction txs as [|tx txs IH]; intros s Hs; simpl; [assumption|].
  apply IH. unfold step. destruct (call keccak256 tx.1 tx.2 s) as [s'|err] eqn:Hc;
    [by eapply call_Filed|assumption].
Qed.

End Data.

(** X18. Only [submitData] and [verifyData] change what the queries return:
    after any other call (adding or removing a trusted source, changing a
    threshold or a score, pausing, granting or revoking a role) every query
    gives what it gave before.  Removing a source from the trusted list in
    particular keeps its history and its verified data. *)
Theorem queries_change_with_data_only (keccak256 : list Byte.byte -> bytes32) (e : Env)
    (c : Call) (s s' : State) :
  writes_data c = false ->
  call keccak256 e c s = Ok s' ->
  forall src a b,
    getVerifiedData src a b s' = getVerifiedData src a b s
    /\ getAggregateValue src a b s' = getAggregateValue src a b s
    /\ (forall d, getDataPoint d s' = getDataPoint d s).
Proof.
  intros Hw Hc src a b. destruct (call_data keccak256 e c s s' Hw Hc) as [Hd Hh].
  unfold getAggregateValue, getVerifiedData, getDataPoint. rewrite Hd, Hh. auto.
Qed.

Lemma queries_change_with_data_only_witness :
  let s := run bytes_number 1 two_readings in
  getVerifiedData meter 0 200 (step bytes_number s (operator, RemoveTrustedSource meter))
  = getVerifiedData meter 0 200 s.
Proof.
  intros s.
  assert (Hc : is_ok (call bytes_number operator (RemoveTrustedSource meter) s) = true)
    by (vm_compute; reflexivity).
  exact (proj1 (queries_change_with_data_only bytes_number operator
                  (RemoveTrustedSource meter) s _ eq_refl
                  (call_step bytes_number _ _ _ Hc) meter 0 200)).
Defined.

(** X19. Only submitted data can be verified.  In every state the oracle
    reaches, a data point marked verified has a timestamp, its identifier is
    on the history of the source it names, and [getVerifiedData] for that
    source returns it for every range that contains its timestamp. *)
Theorem verified_data_is_on_file (keccak256 : list Byte.byte -> bytes32)
    (deployer : address) (txs : list (Env * Call)) (d : bytes32) :
  let s := run keccak256 deployer txs in
  let dp := getDataPoint d s in
  DataPoint.isVerified dp = true ->
  0 < DataPoint.timestamp dp
  /\ d ∈ sourceDataHistory s (DataPoint.source dp)
  /\ (forall a b, a <= DataPoint.timestamp dp <= b ->
        exists ids values,
          getVerifiedData (DataPoint.source dp) a b s = Ok (ids, values) /\ d ∈ ids).
Proof.
  intros s dp Hver. destruct (run_Filed keccak256 deployer txs) as [Hh Hv].
  fold s in Hh, Hv. unfold getDataPoint in dp.
  pose proof (Hv d Hver) as Hts. fold dp in Hts.
  assert (Hin : d ∈ sourceDataHistory s (DataPoint.source dp)).
  { apply Hh. intros Hz. subst dp. rewrite Hz in Hver. discriminate. }
  split; [exact Hts|]. split; [exact Hin|].
  intros a b Hab. rewrite getVerifiedData_filter. eexists _, _. split; [reflexivity|].
  unfold verifiedInRange. apply list_elem_of_filter. split; [|exact Hin].
  split; [exact Hver|exact Hab].
Qed.

Lemma verified_data_is_on_file_witness :
  let s := run bytes_number 1 one_verified in
  0 < DataPoint.timestamp (getDataPoint morning_id s)
  /\ morning_id ∈ sourceDataHistory s (DataPoint.source (getDataPoint morning_id s)).
Proof.
  intros s.
  destruct (verified_data_is_on_file bytes_number 1 one_verified morning_id) as (H1 & H2 & _).
  - vm_compute. reflexivity.
  - split; assumption.
Defined.

(** *** What an identifier commits to *)

Section Commitment.

Variable keccak256 : list Byte.byte -> bytes32.

(** Every entry of a history is the identifier of a submission for that
    source whose value and time are the ones its data point holds. *)
Definition committed (subs : list (string * uint256 * uint256 * address)) (s : State) : Prop :=
  forall src d, d ∈ sourceDataHistory s src ->
    DataPoint.source (dataPoints s d) = src
    /\ exists who,
         (src, DataPoint.value (dataPoints s d), DataPoint.timestamp (dataPoints s d), who)
           ∈ subs
         /\ d = dataIdOf keccak256
                  (src, DataPoint.value (dataPoints s d),
                   DataPoint.timestamp (dataPoints s d), who).

Lemma committed_weaken subs subs' s :
  committed subs s -> subs ⊆ subs' -> committed subs' s.
Proof.
  intros H Hsub src d Hd. destruct (H src d Hd) as (Hs & who & Hin & Hid).
  split; [exact Hs|]. exists who. split; [by apply Hsub|exact Hid].
Qed.

Lemma committed_submit subs e src v md s s' dataId :
  committed subs s ->
  injective_on keccak256 (subs ++ [(src, v, timestamp e, sender e)]) ->
  submitData keccak256 e src v md s = Ok (s', dataId) ->
  committed (subs ++ [(src, v, timestamp e, sender e)]) s'.
Proof.
  intros H Hinj Hsub.
  apply submitData_Ok in Hsub as (Hid & Hdp & Hframe & Happ & Hother).
  assert (Hold : forall src' d, d ∈ sourceDataHistory s src' ->
            DataPoint.source (dataPoints s' d) = src'
            /\ exists who,
                 (src', DataPoint.value (dataPoints s' d),
                  DataPoint.timestamp (dataPoints s' d), who)
                   ∈ subs ++ [(src, v, timestamp e, sender e)]
                 /\ d = dataIdOf keccak256
                          (src', DataPoint.value (dataPoints s' d),
                           DataPoint.timestamp (dataPoints s' d), who)).
  { intros src' d Hd. destruct (H src' d Hd) as (Hs & who & Hin & Heq).
    destruct (decide (d = dataId)) as [->|Hne].
    - assert (Ht : (src', DataPoint.value (dataPoints s dataId),
                    DataPoint.timestamp (dataPoints s dataId), who)
                   = (src, v, timestamp e, sender e)).
      { apply Hinj; [apply elem_of_app; by left|apply elem_of_app; right; by left|].
        rewrite <- Heq. exact Hid. }
      injection Ht as -> Hv' Ht' ->. rewrite Hdp. simpl.
      split; [reflexivity|]. exists (sender e). split; [|exact Hid].
      apply elem_of_app. right. by left.
    - rewrite Hframe by auto. split; [exact Hs|]. exists who.
      split; [apply elem_of_app; by left|exact Heq]. }
  intros src' d Hd.
  destruct (decide (src' = src)) as [->|Hne]; [|rewrite Hother in Hd by auto; by apply Hold].
  rewrite Happ in Hd. apply elem_of_app in Hd as [Hd|Hd]; [by apply Hold|].
  apply list_elem_of_singleton in Hd. subst d. rewrite Hdp. simpl.
  split; [reflexivity|]. exists (sender e). split; [|exact Hid].
  apply elem_of_app. right. by left.
Qed.

Lemma committed_step subs s tx :
  committed subs s ->
  injective_on keccak256 (subs ++ omap submission [tx]) ->
  committed (subs ++ omap submission [tx]) (step keccak256 s tx).
Proof.
  intros H Hinj. destruct tx as [e c]. unfold step. cbn [fst snd] in *.
  destruct (call keccak256 e c s) as [s'|err] eqn:Hc.
  - destruct (submission (e, c)) as [t|] eqn:Hsub.
    + destruct c; try discriminate Hsub.
      apply call_submits in Hc as [d Hc].
      cbn in Hsub. injection Hsub as <-. cbn [omap list_omap submission snd fst] in *.
      by eapply committed_submit.
    + simpl. rewrite Hsub, app_nil_r.
      destruct (call_keeps keccak256 e c s s' Hsub Hc) as [Hh Ht].
      assert (Hsrc : forall d, DataPoint.source (dataPoints s' d)
                               = DataPoint.source (dataPoints s d)).
      { intros d. destruct (writes_data c) eqn:Hw.
        - destruct c; try discriminate Hw; try discriminate Hsub.
          apply call_verifies, verifyData_Ok in Hc as (_ & Hdp & Hframe & _).
          destruct (decide (d = _dataId)) as [->|Hne];
            [by rewrite Hdp|by rewrite Hframe].
        - by destruct (call_data keccak256 e c s s' Hw Hc) as [-> _]. }
      intros src d Hd. rewrite Hh in Hd. destruct (H src d Hd) as (Hs & who & Hin & Hid).
      rewrite Hsrc. destruct (Ht d) as [-> ->]. split; [exact Hs|]. by exists who.
  - eapply committed_weaken; [exact H|]. intros t Ht. apply elem_of_app. by left.
Qed.

Lemma committed_fold txs subs s :
  committed subs s ->
  injective_on keccak256 (subs ++ omap submission txs) ->
  committed (subs ++ omap submission txs) (fold_left (step keccak256) txs s).
Proof.
  revert subs s. induction txs as [|tx txs IH]; intros subs s H Hinj.
  - simpl. by rewrite app_nil_r.
  - change (tx :: txs) with ([tx] ++ txs) in *. rewrite omap_app, app_assoc in *.
    simpl. apply IH; [|exact Hinj]. apply committed_step; [exact H|].
    intros t1 t2 H1 H2. apply Hinj; apply elem_of_app; by left.
Qed.

End Commitment.

(** X20. When no two submissions of a run collide under the hash unless they
    agree on source, value, timestamp and submitter, every entry of the
    history of a source is the identifier of a submission of the run for that
    source, and the data point stored under it names that source and holds
    the value and the block time of that submission: a later submission or
    verification has not put other data under the identifier. *)
Theorem history_entries_commit_to_their_data (keccak256 : list Byte.byte -> bytes32)
    (deployer : address) (txs : list (Env * Call)) (src : string) (d : bytes32) :
  collisionFree keccak256 txs = true ->
  let s := run keccak256 deployer txs in
  d ∈ sourceDataHistory s src ->
  DataPoint.source (getDataPoint d s) = src
  /\ exists e v md,
       (e, SubmitData src v md) ∈ txs
       /\ DataPoint.value (getDataPoint d s) = v
       /\ DataPoint.timestamp (getDataPoint d s) = timestamp e
       /\ d = keccak256 (encodePacked src v (timestamp e) (sender e)).
Proof.
  intros Hfree s Hd.
  assert (H0 : committed keccak256 [] (init deployer)) by (intros src' d'; inversion 1).
  pose proof (committed_fold keccak256 txs [] (init deployer) H0
                (collisionFree_spec keccak256 txs Hfree)) as H.
  destruct (H src d Hd) as (Hs & who & Hin & Hid).
  split; [exact Hs|].
  simpl in Hin. apply list_elem_of_omap in Hin as ([e c] & Htx & Hsub).
  destruct c; try discriminate Hsub. cbn in Hsub. injection Hsub as Hsrc Hv Ht Hwho.
  exists e, _value, _metadata. unfold getDataPoint. fold s in Hv, Ht, Hid |- *.
  rewrite <- Hsrc in Hid |- *. rewrite <- Hv, <- Ht, <- Hwho in Hid.
  repeat split; auto.
Qed.

Lemma history_entries_commit_to_their_data_witness :
  let s := run bytes_number 1 one_verified in
  DataPoint.source (getDataPoint morning_id s) = meter.
Proof.
  intros s.
  destruct (history_entries_commit_to_their_data bytes_number 1 one_verified meter morning_id)
    as [H _].
  - vm_compute. reflexivity.
  - vm_compute. left.
  - exact H.
Defined.

(** *** The packed encoding *)

Lemma be_bytes_length n x : length (be_bytes n x) = n.
Proof.
  revert x. induction n as [|n IH]; intros x; simpl; [reflexivity|].
  rewrite length_app, IH. simpl. lia.
Qed.

Lemma byte_of_N_inj x y :
  x < 256 -> y < 256 ->
  Ascii.byte_of_ascii (Ascii.ascii_of_N x) = Ascii.byte_of_ascii (Ascii.ascii_of_N y) ->
  x = y.
Proof.
  intros Hx Hy H.
  apply (f_equal Ascii.ascii_of_byte) in H. rewrite !Ascii.ascii_of_byte_of_ascii in H.
  apply (f_equal Ascii.N_of_ascii) in H.
  by rewrite !Ascii.N_ascii_embedding in H by assumption.
Qed.

Lemma be_bytes_inj n x y :
  x < 256 ^ N.of_nat n -> y < 256 ^ N.of_nat n -> be_bytes n x = be_bytes n y -> x = y.
Proof.
  revert x y. induction n as [|n IH]; intros x y Hx Hy H.
  - simpl in Hx, Hy. lia.
  - simpl in H. apply app_inj_tail in H as [Hhi Hlo].
    rewrite Nat2N.inj_succ, N.pow_succ_r' in Hx, Hy.
    apply byte_of_N_inj in Hlo; [|apply N.mod_lt; lia|apply N.mod_lt; lia].
    apply IH in Hhi; [| apply N.Div0.div_lt_upper_bound; lia
                      | apply N.Div0.div_lt_upper_bound; lia].
    rewrite (N.div_mod x 256), (N.div_mod y 256) by lia. by rewrite Hhi, Hlo.
Qed.

Lemma list_byte_of_string_inj (a b : string) :
  String.list_byte_of_string a = String.list_byte_of_string b -> a = b.
Proof.
  intros H. apply (f_equal String.string_of_list_byte) in H.
  by rewrite !String.string_of_list_byte_of_string in H.
Qed.

(** X21. The packed encoding the identifier is computed from determines the
    submission: for values and timestamps of 256 bits and addresses of 160
    bits, two encodings are equal only when source, value, timestamp and
    submitter are.  So two submissions share an identifier only when they
    agree on the four or the hash collides. *)
Theorem encodePacked_injective (src src' : string) (v v' t t' : uint256) (a a' : address) :
  v <= MAX_UINT256 -> v' <= MAX_UINT256 -> t <= MAX_UINT256 -> t' <= MAX_UINT256 ->
  a < 2 ^ 160 -> a' < 2 ^ 160 ->
  encodePacked src v t a = encodePacked src' v' t' a' ->
  src = src' /\ v = v' /\ t = t' /\ a = a'.
Proof.
  unfold MAX_UINT256. intros Hv Hv' Ht Ht' Ha Ha' H. unfold encodePacked in H.
  assert (H256 : 256 ^ N.of_nat 32 = 2 ^ 256) by (vm_compute; reflexivity).
  assert (H160 : 256 ^ N.of_nat 20 = 2 ^ 160) by (vm_compute; reflexivity).
  assert (Hpos : 0 < 2 ^ 256) by (vm_compute; reflexivity).
  apply app_inj_2 in H as [Hs H]; [|by rewrite !length_app, !be_bytes_length].
  apply app_inj_1 in H as [Hv1 H]; [|by rewrite !be_bytes_length].
  apply app_inj_1 in H as [Ht1 Ha1]; [|by rewrite !be_bytes_length].
  split; [by apply list_byte_of_string_inj|].
  split; [apply (be_bytes_inj 32); auto; rewrite H256; lia|].
  split; [apply (be_bytes_inj 32); auto; rewrite H256; lia|].
  apply (be_bytes_inj 20); auto; rewrite H160; lia.
Qed.

Lemma encodePacked_injective_witness :
  encodePacked "ab" 1 2 3 = encodePacked "ab" 1 2 3
  /\ ("ab" = "ab" /\ 1 = 1 /\ 2 = 2 /\ 3 = 3).
Proof.
  split; [reflexivity|].
  apply (encodePacked_injective "ab" "ab" 1 1 2 2 3 3);
    vm_compute; (discriminate || reflexivity).
Defined.

(** *** Pausing, and who can do what *)

(** The calls that carry [whenNotPaused] or [whenPaused]. *)
Definition reads_pause (c : Call) : bool :=
  match c with
  | SubmitData _ _ _ | Pause | Unpause => true
  | _ => false
  end.

Lemma grantRole_unpaused_alike e b r a s :
  _grantRole e r a (set_paused b s) = set_paused b (_grantRole e r a s).
Proof. unfold _grantRole, hasRole. simpl. by destruct (roles s r a). Qed.

Lemma revokeRole_unpaused_alike e b r a s :
  _revokeRole e r a (set_paused b s) = set_paused b (_revokeRole e r a s).
Proof. unfold _revokeRole, hasRole. simpl. by destruct (roles s r a). Qed.

Ltac split_conditions :=
  repeat match goal with
  | |- context [if ?c then _ else _] => destruct c; simpl; try reflexivity
  end.

(** X22. Pausing the oracle stops submissions and nothing else: while it is
    paused every [submitData] reverts, and every call other than
    [submitData], [pause] and [unpause] reverts or returns alike and writes
    the same whatever the flag is, so data can still be verified and sources
    added or removed. *)
Theorem oracle_pause_stops_submissions_only (keccak256 : list Byte.byte -> bytes32)
    (e : Env) (s : State) :
  (paused s = true ->
   forall src v md, is_ok (call keccak256 e (SubmitData src v md) s) = false)
  /\ (forall c b, reads_pause c = false ->
        call keccak256 e c (set_paused b s) = set_paused b <$> call keccak256 e c s).
Proof.
  split.
  - intros Hp src v md. unfold call. destruct (bool_decide (0 < value e)); [reflexivity|].
    unfold submitData, onlyRole, onlyTrustedSource, whenNotPaused. rewrite Hp.
    destruct (hasRole _ _ _); [|reflexivity]. simpl.
    destruct (trustedSources s src); reflexivity.
  - intros c b Hc. unfold call. destruct (bool_decide (0 < value e)); [reflexivity|].
    destruct c; try discriminate Hc.
    + unfold addTrustedSource, onlyRole, hasRole. simpl. split_conditions.
    + unfold removeTrustedSource, onlyRole, hasRole. simpl. split_conditions.
    + unfold verifyData, onlyRole, require, hasRole. simpl. split_conditions.
    + unfold updateVerificationThreshold, onlyRole, require, hasRole. simpl. split_conditions.
    + unfold updateSourceReliability, onlyRole, onlyTrustedSource, require, hasRole.
      simpl. split_conditions.
    + unfold grantRole, onlyRole, hasRole. simpl.
      destruct (roles s DEFAULT_ADMIN_ROLE (sender e)); simpl; [|reflexivity].
      by rewrite grantRole_unpaused_alike.
    + unfold revokeRole, onlyRole, hasRole. simpl.
      destruct (roles s DEFAULT_ADMIN_ROLE (sender e)); simpl; [|reflexivity].
      by rewrite revokeRole_unpaused_alike.
    + unfold renounceRole, require. simpl. destruct (bool_decide _); simpl; [|reflexivity].
      by rewrite revokeRole_unpaused_alike.
Qed.


(** X23. An account that holds no role changes nothing: every call it makes
    to the oracle reverts or, like renouncing a role it does not hold, leaves
    the state as it was. *)
Theorem oracle_outsider_changes_nothing (keccak256 : list Byte.byte -> bytes32) (e : Env)
    (c : Call) (s s' : State) :
  (forall r, hasRole r (sender e) s = false) ->
  call keccak256 e c s = Ok s' ->
  s' = s.
Proof.
  intros Hr. unfold call. destruct (bool_decide (0 < value e)); [discriminate|].
  destruct c; intros H.
  - unfold addTrustedSource, onlyRole in H. rewrite Hr in H. discriminate.
  - unfold removeTrustedSource, onlyRole in H. rewrite Hr in H. discriminate.
  - unfold submitData, onlyRole in H. rewrite Hr in H. discriminate.
  - unfold verifyData, onlyRole in H. rewrite Hr in H. discriminate.
  - unfold updateVerificationThreshold, onlyRole in H. rewrite Hr in H. discriminate.
  - unfold updateSourceReliability, onlyRole in H. rewrite Hr in H. discriminate.
  - unfold pause, onlyRole in H. rewrite Hr in H. discriminate.
  - unfold unpause, onlyRole in H. rewrite Hr in H. discriminate.
  - unfold grantRole, onlyRole in H. rewrite Hr in H. discriminate.
  - unfold revokeRole, onlyRole in H. rewrite Hr in H. discriminate.
  - unfold renounceRole in H. inv_oracle. subst.
    match goal with Hb : bool_decide (_ = _) = true |- _ =>
      apply bool_decide_eq_true in Hb; subst end.
    unfold _revokeRole. by rewrite Hr.
Qed.

Lemma oracle_outsider_changes_nothing_witness :
  step bytes_number (run bytes_number 1 two_readings)
       (stranger, RenounceRole DATA_PROVIDER_ROLE 9)
  = run bytes_number 1 two_readings.
Proof.
  apply (oracle_outsider_changes_nothing bytes_number stranger
           (RenounceRole DATA_PROVIDER_ROLE 9)).
  - intros r. destruct r; vm_compute; reflexivity.
  - apply call_step. vm_compute. reflexivity.
Defined.

(** X24. Nobody but an operator marks data as verified: after a call by an
    account without the operator role, a data point is verified only if it
    was before the call.  A provider cannot verify its own submissions. *)
Theorem only_operators_verify (keccak256 : list Byte.byte -> bytes32) (e : Env)
    (c : Call) (s s' : State) (d : bytes32) :
  hasRole ORACLE_OPERATOR_ROLE (sender e) s = false ->
  call keccak256 e c s = Ok s' ->
  DataPoint.isVerified (getDataPoint d s') = true ->
  DataPoint.isVerified (getDataPoint d s) = true.
Proof.
  intros Hr Hc. unfold getDataPoint. destruct (writes_data c) eqn:Hw.
  - destruct c; try discriminate Hw.
    + apply call_submits in Hc as [dataId Hc].
      apply submitData_Ok in Hc as (_ & Hdp & Hframe & _).
      destruct (decide (d = dataId)) as [->|Hne];
        [rewrite Hdp; discriminate|by rewrite Hframe].
    + apply call_verifies in Hc. unfold verifyData, onlyRole in Hc.
      rewrite Hr in Hc. discriminate.
  - by destruct (call_data keccak256 e c s s' Hw Hc) as [-> _].
Qed.

Lemma only_operators_verify_witness :
  DataPoint.isVerified (getDataPoint morning_id (run bytes_number 1 one_verified)) = true.
Proof.
  apply (only_operators_verify bytes_number provider_later (SubmitData meter 1700 "night")
           (run bytes_number 1 one_verified)
           (step bytes_number (run bytes_number 1 one_verified)
                 (provider_later, SubmitData meter 1700 "night"))).
  - vm_compute. reflexivity.
  - apply call_step. vm_compute. reflexivity.
  - vm_compute. reflexivity.
Defined.

(** *** Queries that find nothing *)

(** X25. A query over an empty range ([toTime] before [fromTime]) or for a
    source without history (one never submitted for, trusted or not) does not
    revert: [getVerifiedData] returns two empty arrays and
    [getAggregateValue] the total 0 and the count 0.  In general the
    two arrays have the same length, at most that of the history. *)
Theorem queries_that_find_nothing (src : string) (a b : uint256) (s : State) :
  (b < a \/ sourceDataHistory s src = [] ->
   getVerifiedData src a b s = Ok ([], [])
   /\ getAggregateValue src a b s = Ok (0, 0))
  /\ (exists ids values,
        getVerifiedData src a b s = Ok (ids, values)
        /\ length ids = length values
        /\ (length ids <= length (sourceDataHistory s src))%nat).
Proof.
  split.
  - intros H.
    assert (Hnil : verifiedInRange src a b s = []).
    { unfold verifiedInRange. destruct H as [H|H]; [|by rewrite H].
      induction (sourceDataHistory s src) as [|d l IH]; [reflexivity|].
      rewrite filter_cons_False; [exact IH|]. intros [_ Hr]. lia. }
    rewrite getAggregateValue_sum, getVerifiedData_filter, Hnil. simpl. auto.
  - rewrite getVerifiedData_filter. eexists _, _. split; [reflexivity|].
    split; [by rewrite length_fmap|]. unfold verifiedInRange. apply length_filter.
Qed.

End OracleExtras.
